(** * Smart media update pipeline: a shallow embedding

    The definitions below follow the sources of the repository:
    - [packages/core/src/generation.ts]
      ([trimTokens], [truncateTiktoken], [generateObjectDeprecated],
      [generateImage], [splitChunks], [splitText], the parsers with a retry
      loop [generateShouldRespond], [generateTrueOrFalse],
      [generateTextArray], [generateObjectArray], [generateTweetActions],
      and [generateMessageResponse]);
    - [utils/types.ts] of the client (the data model);
    - [templates/bonsaiGarden.ts] of the client
      (the template handler: vote weighting and the image retry loop);
    - [templates/rpgGame.ts] of the client (the template handler);
    - [packages/client-bonsai/src/ClientService.ts]
      ([handlePostUpdate], [handlePreviewCredits], [getPost] and the cache
      helpers, the routes [POST /post/create-preview], [POST /post/create],
      [GET /post/:postId], [POST /post/:postId/update] and
      [POST /post/:postId/disable]).

    JavaScript numbers that count things (tokens, seconds, milliseconds,
    versions) are integers of [Z]; the chunk size and the bleed of
    [splitText], which nothing makes integers, are numbers of [Js.number]; a
    value that may be [undefined] or [null] is an [option]; an [async]
    function that may reject returns a [result].
    Collaborators outside these files (providers, the Lens client, the
    tokenizer, the credit ledger) are arguments of the definitions. *)

From stdpp Require Import gmap strings list fin_maps pretty.
From Stdlib Require Import ZArith Lia.
From Stdlib Require QArith Qround Lqa.

Set Warnings "-register-all,-clear-no-such-hyp".

Open Scope Z_scope.

(** ** JavaScript values and control flow *)

Module Js.

(** A computation that either returns a value or throws an [Error] whose
    message is a string (a rejected promise, for an [async] function). *)
Inductive result (A : Type) : Type :=
| Ok (a : A)
| Throw (e : string).

Arguments Ok {A} a.
Arguments Throw {A} e.

#[export] Instance result_ret : MRet result := λ A a, Ok a.

#[export] Instance result_bind : MBind result :=
  λ A B f m, match m with Ok a => f a | Throw e => Throw e end.

(** [try { body } catch (error) { handler(error) }] *)
Definition try_catch {A} (body : result A) (handler : string → result A) : result A :=
  match body with
  | Ok a => Ok a
  | Throw e => handler e
  end.

(** The values [JSON.parse] can produce; the numbers met here are counts,
    kept as integers. *)
Inductive json : Type :=
| JNull
| JBool (b : bool)
| JNum (n : Z)
| JStr (s : string)
| JArr (items : list json)
| JObj (fields : list (string * json)).

(** [!!v] on a parsed JSON value. *)
Definition truthy (v : json) : bool :=
  match v with
  | JNull => false
  | JBool b => b
  | JNum n => negb (Z.eqb n 0)
  | JStr s => negb (String.eqb s "")
  | JArr _ | JObj _ => true
  end.

(** [!!s] on a string. *)
Definition truthy_string (s : string) : bool := negb (String.eqb s "").

(** [!!s] on a string that may be [undefined] or [null]. *)
Definition truthy_opt_string (s : option string) : bool :=
  match s with
  | Some s => truthy_string s
  | None => false
  end.

(** [x || 0] on a number that may be [undefined]. *)
Definition or_zero (x : option Z) : Z := default 0 x.

(** Property lookup on a parsed object. *)
Fixpoint assoc (k : string) (fields : list (string * json)) : option json :=
  match fields with
  | [] => None
  | (k', v) :: rest => if String.eqb k k' then Some v else assoc k rest
  end.

(** [v.k]: [null] has no properties (a [TypeError]); on primitives and on
    arrays an unknown property reads as [undefined]. *)
Definition get_prop (v : json) (k : string) : result (option json) :=
  match v with
  | JNull => Throw "TypeError: Cannot read properties of null"
  | JObj fields => Ok (assoc k fields)
  | _ => Ok None
  end.

(** A string is the sequence of its code units: [length] and [slice] count
    them.

    The index at which [Array.prototype.slice(start)] and
    [String.prototype.slice(start)] begin, for a receiver of length [len]. *)
Definition slice_start (len : nat) (start : Z) : nat :=
  if start <? 0 then Z.to_nat (Z.max (Z.of_nat len + start) 0)
  else Nat.min (Z.to_nat start) len.

Definition array_slice {A} (start : Z) (l : list A) : list A :=
  drop (slice_start (length l) start) l.

Fixpoint string_drop (n : nat) (s : string) : string :=
  match n, s with
  | O, _ => s
  | S n', String _ s' => string_drop n' s'
  | S _, EmptyString => EmptyString
  end.

Definition string_slice (start : Z) (s : string) : string :=
  string_drop (slice_start (String.length s) start) s.

Fixpoint string_take (n : nat) (s : string) : string :=
  match n, s with
  | O, _ => EmptyString
  | S n', String c s' => String c (string_take n' s')
  | S _, EmptyString => EmptyString
  end.

(** [s.substring(start, end)]: each index is clamped to the string, and the
    two are swapped when [start] is the greater. *)
Definition substring (start end_ : Z) (s : string) : string :=
  let len := Z.of_nat (String.length s) in
  let a := Z.max 0 (Z.min start len) in
  let b := Z.max 0 (Z.min end_ len) in
  let from := Z.min a b in
  let to := Z.max a b in
  string_take (Z.to_nat (to - from)) (string_drop (Z.to_nat from) s).

(** *** Numbers that need not be integers

    A number is a finite value, an infinity or [NaN]. The finite values are
    the rationals; the sign of zero is not kept, nor is the rounding of the
    arithmetic on doubles. *)

Import QArith_base Qround.
#[local] Open Scope Z_scope.

Inductive number : Type :=
| Fin (q : Q)
| PosInf
| NegInf
| NaN.

Definition num_of_Z (z : Z) : number := Fin (inject_Z z).

(** [a + b] *)
Definition num_add (a b : number) : number :=
  match a, b with
  | NaN, _ | _, NaN => NaN
  | Fin x, Fin y => Fin (x + y)%Q
  | PosInf, NegInf | NegInf, PosInf => NaN
  | PosInf, _ | _, PosInf => PosInf
  | NegInf, _ | _, NegInf => NegInf
  end.

(** [-a] and [a - b] *)
Definition num_neg (a : number) : number :=
  match a with
  | Fin x => Fin (- x)%Q
  | PosInf => NegInf
  | NegInf => PosInf
  | NaN => NaN
  end.

Definition num_sub (a b : number) : number := num_add a (num_neg b).

(** [a <= b] and [a < b]: false when either is [NaN]. *)
Definition num_le (a b : number) : bool :=
  match a, b with
  | NaN, _ | _, NaN => false
  | Fin x, Fin y => Qle_bool x y
  | NegInf, _ | _, PosInf => true
  | _, _ => false
  end.

Definition num_lt (a b : number) : bool :=
  match a, b with
  | NaN, _ | _, NaN => false
  | _, _ => negb (num_le b a)
  end.

(** [Math.min(a, b)] and [Math.max(a, b)]: [NaN] when either is. *)
Definition num_min (a b : number) : number :=
  match a, b with
  | NaN, _ | _, NaN => NaN
  | _, _ => if num_le a b then a else b
  end.

Definition num_max (a b : number) : number :=
  match a, b with
  | NaN, _ | _, NaN => NaN
  | _, _ => if num_le a b then b else a
  end.

(** [Math.floor(a)], and [a / d] for a positive integer constant [d]. *)
Definition num_floor (a : number) : number :=
  match a with
  | Fin x => Fin (inject_Z (Qfloor x))
  | _ => a
  end.

Definition num_div (a : number) (d : positive) : number :=
  match a with
  | Fin x => Fin (x / inject_Z (Z.pos d))%Q
  | _ => a
  end.

(** The integer an index argument of [substring] stands for in a string of
    length [len]: [NaN] counts as 0, a fraction is cut off towards zero, and
    an infinity is clamped as [substring] clamps every index. *)
Definition to_index (len : nat) (a : number) : Z :=
  match a with
  | Fin x => if Qle_bool 0 x then Qfloor x else Qceiling x
  | PosInf => Z.of_nat len
  | NegInf => 0
  | NaN => 0
  end.

(** [s.substring(start, end)] for numbers. *)
Definition substring_num (start end_ : number) (s : string) : string :=
  substring (to_index (String.length s) start) (to_index (String.length s) end_) s.

End Js.

Import Js.

(** ** generation.ts *)

Module Generation.

(** *** Context trimming *)

Definition token := Z.

(** What [encodingForModel(model)] of js-tiktoken hands back. *)
Record Encoding := {
  encode : string → result (list token);
  decode : list token → result string;
}.

Record IAgentRuntime := {
  getSetting : string → option string;
}.

Section Trim.

(** [encodingForModel] throws on a model it does not know. *)
Variable encodingForModel : string → result Encoding.

(** [TokenizerType.TikToken], declared in [types.ts]. *)
Variable TokenizerType_TikToken : string.

Definition truncateTiktoken (model context : string) (maxTokens : Z) : string :=
  let body : result string :=
    encoding ← encodingForModel model;
    tokens ← encode encoding context;
    if Z.of_nat (length tokens) <=? maxTokens then Ok context
    else
      let truncatedTokens := array_slice (- maxTokens) tokens in
      decode encoding truncatedTokens in
  match body with
  | Ok s => s
  | Throw _ => string_slice (- maxTokens * 4) context
  end.

(** The tokenizer model [trimTokens] settles on for a runtime. *)
Definition tokenizerFor (runtime : IAgentRuntime) : string :=
  let tokenizerModel := getSetting runtime "TOKENIZER_MODEL" in
  let tokenizerType := getSetting runtime "TOKENIZER_TYPE" in
  if negb (truthy_opt_string tokenizerModel) || negb (truthy_opt_string tokenizerType)
  then "gpt-4o"
  else if bool_decide (tokenizerType = Some TokenizerType_TikToken)
       then default "" tokenizerModel
       else "gpt-4o".

Definition trimTokens (context : string) (maxTokens : Z) (runtime : IAgentRuntime)
  : result string :=
  if negb (truthy_string context) then Ok ""
  else if maxTokens <=? 0 then Throw "maxTokens must be positive"
  else Ok (truncateTiktoken (tokenizerFor runtime) context maxTokens).

End Trim.

(** *** Structured generation with unbounded retry *)

Record LanguageModelUsage := {
  promptTokens : Z;
  completionTokens : Z;
  totalTokens : Z;
}.

(** The arguments of [generateObjectDeprecated] that its control flow reads. *)
Record ObjectRequest := {
  context : string;
  modelProvider : option string;
  returnUsage : bool;
  messages : option (list json);
}.

(** [returnUsage ? { response: parsedResponse, usage } : parsedResponse] *)
Record Generated := {
  response : json;
  usage : option LanguageModelUsage;
}.

(** Where a call of the retry loop stands after a number of iterations:
    it has returned, or it is still looping. [waits] lists the delays handed
    to [setTimeout] so far, oldest first. *)
Inductive Run (A : Type) : Type :=
| Finished (value : A) (waits : list Z)
| Pending (attempts : nat) (retryDelay : Z) (waits : list Z).

Arguments Finished {A} value waits.
Arguments Pending {A} attempts retryDelay waits.

Section ObjectGeneration.

(** The [k]-th call of [generateText] made by one invocation: the provider's
    text and usage, or a provider error. *)
Variable generateText : nat → result (string * LanguageModelUsage).

(** [parseJSONObjectFromText] of [parsing.ts]: an object, or [null]. *)
Variable parseJSONObjectFromText : string → result (option json).

(** [ModelProviderName.VENICE], and the removal of [<think>] blocks that is
    applied to a Venice response. *)
Variable ModelProviderName_VENICE : string.
Variable stripThink : string → string.

(** The body of the [try] block of one iteration; [Ok None] when the parse
    check fails and control leaves the [try] without returning. *)
Definition attempt (req : ObjectRequest) (k : nat) : result (option Generated) :=
  generateResponse ← generateText k;
  let response0 := generateResponse.1 in
  let usage := if returnUsage req then Some generateResponse.2 else None in
  let response1 :=
    if bool_decide (modelProvider req = Some ModelProviderName_VENICE)
    then stripThink response0 else response0 in
  parsedResponse ← parseJSONObjectFromText response1;
  match parsedResponse with
  | Some v => if truthy v then Ok (Some {| response := v; usage := usage |}) else Ok None
  | None => Ok None
  end.

(** An iteration fails when its [try] block ends without returning: the
    provider or the parser threw (caught and logged), or the parse check
    found nothing. *)
Definition attemptFails (req : ObjectRequest) (k : nat) : Prop :=
  try_catch (attempt req k) (λ _, Ok None) = Ok None.

(** [while (true) { try { ... } catch { log } await sleep(retryDelay);
    retryDelay *= 2 }], unrolled [fuel] times. *)
Fixpoint retryLoop (req : ObjectRequest) (fuel k : nat) (retryDelay : Z) (waits : list Z)
  : Run Generated :=
  match fuel with
  | O => Pending k retryDelay waits
  | S fuel' =>
    match try_catch (attempt req k) (λ _, Ok None) with
    | Ok (Some g) => Finished g waits
    | _ => retryLoop req fuel' (S k) (retryDelay * 2) (waits ++ [retryDelay])
    end
  end.

(** The entry guard [!context && messages.length === 0]; [Some true] when the
    call returns [null] at once. Reading [length] of an absent [messages]
    throws. *)
Definition emptyRequest (req : ObjectRequest) : result bool :=
  if truthy_string (context req) then Ok false
  else match messages req with
       | None => Throw "TypeError: Cannot read properties of undefined (reading 'length')"
       | Some ms => Ok (bool_decide (length ms = 0%nat))
       end.

Definition generateObjectDeprecated (fuel : nat) (req : ObjectRequest)
  : result (Run (option Generated)) :=
  empty ← emptyRequest req;
  if (empty : bool) then Ok (Finished None [])
  else
    let retryDelay := 1000 in
    match retryLoop req fuel 0 retryDelay [] with
    | Finished g waits => Ok (Finished (Some g) waits)
    | Pending k d waits => Ok (Pending k d waits)
    end.

End ObjectGeneration.

(** *** Image generation *)

Record ImageRequest := {
  prompt : string;
  width : Z;
  height : Z;
  modelId : option string;
  stylePreset : option string;
  inpaint : option (Z * string);
}.

(** The JSON body posted to the provider. *)
Record VeniceBody := {
  body_model : string;
  body_prompt : string;
  body_width : Z;
  body_height : Z;
  body_style_preset : option string;
  body_inpaint : option (Z * string);
}.

(** The promise returned by [generateImage], once resolved. *)
Record ImageResult := {
  success : bool;
  data : option (list string);
  error : option string;
}.

(** What [fetch] does with a request: it rejects, or it resolves to a
    response whose [json()] yields a value or throws. *)
Inductive FetchOutcome : Type :=
| FetchRejects (e : string)
| FetchResponds (status : Z) (body : result json).

(** The surroundings one call of [generateImage] reads. *)
Record ImageEnv := {
  getImageModelSettings : option string;  (* [modelSettings.name], if any *)
  VENICE_API_KEY : option string;          (* [process.env.VENICE_API_KEY] *)
  fetch_is_function : bool;                (* [typeof fetch === "function"] *)
  fetch : string → VeniceBody → FetchOutcome;
}.

Section ImageGeneration.

(** The text a template literal gives for a value that is not a string. *)
Variable toDisplayString : json → string.

Definition template_string (v : json) : string :=
  match v with
  | JStr s => s
  | _ => toDisplayString v
  end.

Definition failure (e : string) : ImageResult :=
  {| success := false; data := None; error := Some e |}.

(** The callback of [result.images.map]. *)
Definition toDataUri (base64String : json) : result string :=
  if negb (truthy base64String)
  then Throw "Empty base64 string in Venice AI response"
  else Ok ("data:image/png;base64," +:+ template_string base64String).

(** [requestBody], built from the request and the name of the model. *)
Definition veniceRequest (model : string) (data : ImageRequest) : VeniceBody :=
  {| body_model := if truthy_opt_string (modelId data)
                   then default "" (modelId data) else model;
     body_prompt := prompt data;
     body_width := width data;
     body_height := height data;
     body_style_preset := stylePreset data;
     body_inpaint := inpaint data |}.

Definition generateImage (env : ImageEnv) (data : ImageRequest) : result ImageResult :=
  match getImageModelSettings env with
  | None => Ok (failure "No model settings available")
  | Some model =>
    match VENICE_API_KEY env with
    | None => Ok (failure "VENICE_API_KEY is missing")
    | Some apiKey =>
      if negb (truthy_string apiKey) then Ok (failure "VENICE_API_KEY is missing")
      else if negb (fetch_is_function env) then Ok (failure "Global fetch is not available")
      else
        let requestBody := veniceRequest model data in
        try_catch
          (match fetch env apiKey requestBody with
           | FetchRejects e => Throw e
           | FetchResponds _ body =>
             match body with
             | Throw _ => Ok (failure "Failed to parse Venice response as JSON")
             | Ok result =>
               images ← get_prop result "images";
               match images with
               | Some (JArr items) =>
                 base64s ← mapM toDataUri items;
                 Ok {| success := true; data := Some base64s; error := None |}
               | _ => Ok (failure "Invalid response format from Venice AI")
               end
             end
           end)
          (λ error, Ok (failure error))
    end
  end.

End ImageGeneration.

(** *** Splitting a text into chunks *)

(** The [while (start < content.length)] loop of [splitText], unrolled at
    most [fuel] times; [None] when it is still running then. [chunkSize] and
    [bleed] are numbers: nothing makes them integers. *)
Fixpoint splitLoop (fuel : nat) (content : string) (chunkSize bleed start : number)
  (chunks : list string) : option (list string) :=
  let length := num_of_Z (Z.of_nat (String.length content)) in
  if num_lt start length then
    match fuel with
    | O => None
    | S fuel' =>
      let end_ := num_min (num_add start chunkSize) length in
      let chunks :=
        if num_lt start end_ then chunks ++ [substring_num start end_ content]
        else chunks in
      splitLoop fuel' content chunkSize bleed
        (num_max (num_sub end_ bleed) (num_add start (num_of_Z 1))) chunks
    end
  else Some chunks.

(** [splitText(content, chunkSize, bleed)]; one iteration per code unit of
    the content is enough to leave the loop. *)
Definition splitText (content : string) (chunkSize bleed : number) : list string :=
  default [] (splitLoop (String.length content) content chunkSize bleed (num_of_Z 0) []).

(** The parameters [splitChunks] hands to [splitText]: a size that is not
    positive becomes 1500, a bleed not below the size a quarter of the size,
    rounded down, then a negative bleed 100. *)
Definition effectiveChunkSize (chunkSize : number) : number :=
  if num_le chunkSize (num_of_Z 0) then num_of_Z 1500 else chunkSize.

Definition effectiveBleed (chunkSize bleed : number) : number :=
  let chunkSize := effectiveChunkSize chunkSize in
  let bleed := if num_le chunkSize bleed then num_floor (num_div chunkSize 4) else bleed in
  if num_lt bleed (num_of_Z 0) then num_of_Z 100 else bleed.

(** [splitChunks(content, chunkSize = 1500, bleed = 100)] *)
Definition splitChunks (content : string) (chunkSize bleed : option number)
  : list string :=
  let chunkSize := default (num_of_Z 1500) chunkSize in
  let bleed := default (num_of_Z 100) bleed in
  splitText content (effectiveChunkSize chunkSize) (effectiveBleed chunkSize bleed).

(** *** The text parsers and their retry loop *)

(** [while (true) { try { ...; return } catch { log }
    await sleep(retryDelay); retryDelay *= 2 }], the loop of
    [generateShouldRespond], [generateTrueOrFalse], [generateTextArray],
    [generateObjectArray] and [generateTweetActions], unrolled [fuel] times.
    [attempt k] is the [try] block of iteration [k]: [Ok None] when it ends
    without returning. *)
Fixpoint backoffLoop {A} (attempt : nat → result (option A)) (fuel k : nat)
  (retryDelay : Z) (waits : list Z) : Run A :=
  match fuel with
  | O => Pending k retryDelay waits
  | S fuel' =>
    match try_catch (attempt k) (λ _, Ok None) with
    | Ok (Some a) => Finished a waits
    | _ => backoffLoop attempt fuel' (S k) (retryDelay * 2) (waits ++ [retryDelay])
    end
  end.

(** The [try] block of iteration [k] ended without a [return]: it threw, or
    its parse check failed. *)
Definition noAnswer {A} (attempt : nat → result (option A)) (k : nat) : Prop :=
  try_catch (attempt k) (λ _, Ok None) = Ok None.

Section TextParsers.

(** The [k]-th call of [generateText] made by one invocation, without usage. *)
Variable generateTextOnly : nat → result string.

(** [String.prototype.trim], and the parsers of [parsing.ts]; each gives
    [null] for a text it does not recognise. *)
Variable trim : string → string.
Variable parseBooleanFromText : string → result (option bool).
Variable parseJsonArrayFromText : string → result (option (list json)).
Variable parseShouldRespondFromText : string → result (option string).
Variable parseActionResponseFromText : string → result (option json).

(** [generateTrueOrFalse]: the test is [parsedResponse !== null]. *)
Definition trueOrFalseAttempt (k : nat) : result (option bool) :=
  response ← generateTextOnly k;
  parseBooleanFromText (trim response).

(** [modelSettings] is what [getModelSettings] returned: its [stop] list,
    or [None] for [undefined], on which reading [stop] throws. *)
Definition generateTrueOrFalse (modelSettings : option (list string)) (fuel : nat)
  : result (Run bool) :=
  match modelSettings with
  | None => Throw "TypeError: Cannot read properties of undefined (reading 'stop')"
  | Some _ => Ok (backoffLoop trueOrFalseAttempt fuel 0 1000 [])
  end.

(** [generateTextArray] and [generateObjectArray]: the test is
    [if (parsedResponse)], and an array is truthy. *)
Definition arrayAttempt (k : nat) : result (option (list json)) :=
  response ← generateTextOnly k;
  parseJsonArrayFromText response.

Definition generateTextArray (context : string) (fuel : nat) : Run (list json) :=
  if negb (truthy_string context) then Finished [] []
  else backoffLoop arrayAttempt fuel 0 1000 [].

Definition generateObjectArray (context : string) (fuel : nat) : Run (list json) :=
  if negb (truthy_string context) then Finished [] []
  else backoffLoop arrayAttempt fuel 0 1000 [].

(** [generateShouldRespond]: the test is [if (parsedResponse)] on a string. *)
Definition shouldRespondAttempt (k : nat) : result (option string) :=
  response ← generateTextOnly k;
  parsedResponse ← parseShouldRespondFromText (trim response);
  match parsedResponse with
  | Some verdict => if truthy_string verdict then Ok (Some verdict) else Ok None
  | None => Ok None
  end.

Definition generateShouldRespond (fuel : nat) : Run string :=
  backoffLoop shouldRespondAttempt fuel 0 1000 [].

(** [generateTweetActions]: the test is [if (actions)]. *)
Definition tweetActionsAttempt (k : nat) : result (option json) :=
  response ← generateTextOnly k;
  actions ← parseActionResponseFromText (trim response);
  match actions with
  | Some v => if truthy v then Ok (Some v) else Ok None
  | None => Ok None
  end.

Definition generateTweetActions (fuel : nat) : Run json :=
  backoffLoop tweetActionsAttempt fuel 0 1000 [].

End TextParsers.

(** The first statement of [generateText]:
    [if (!context && messages.length === 0) return ""]. [messages] has no
    default value, so it is [undefined] for a caller that does not pass it.
    [rest k] is what the remainder of the function gives at the [k]-th call. *)
Definition generateTextEntry (context : string) (messages : option (list json))
  (rest : nat → result string) (k : nat) : result string :=
  if negb (truthy_string context) then
    match messages with
    | None => Throw "TypeError: Cannot read properties of undefined (reading 'length')"
    | Some ms => if Z.of_nat (length ms) =? 0 then Ok "" else rest k
    end
  else rest k.

(** *** Message responses: three attempts *)

(** The variables of the loop of [generateMessageResponse], with the delays
    handed to [setTimeout] and the number of [generateText] calls so far. *)
Record MessageState := {
  m_attempts : Z;
  m_retryLength : Z;
  m_waits : list Z;
  m_calls : nat;
}.

Inductive MessageExit : Type :=
| MessageReturned (content : Generated) (st : MessageState)
| MessageThrew (e : string) (st : MessageState)
| MessageRunning (st : MessageState).

Definition messageState (exit : MessageExit) : MessageState :=
  match exit with
  | MessageReturned _ st | MessageThrew _ st | MessageRunning st => st
  end.

Section MessageResponse.

Variable encodingForModel : string → result Encoding.
Variable TokenizerType_TikToken : string.

(** The [k]-th call of [generateText] for a context. *)
Variable generateTextFor : string → nat → result (string * LanguageModelUsage).
Variable parseJSONObjectFromText : string → result (option json).

Definition maxAttempts : Z := 3.

(** The [try] block of one iteration up to its [return]. *)
Definition messageAttempt (context : string) (returnUsage : bool) (k : nat)
  : result (option Generated) :=
  response ← generateTextFor context k;
  parsedContent ← parseJSONObjectFromText response.1;
  match parsedContent with
  | Some v =>
    if truthy v
    then Ok (Some {| response := v;
                     usage := if returnUsage then Some response.2 else None |})
    else Ok None
  | None => Ok None
  end.

Fixpoint messageLoop (context : string) (returnUsage : bool) (fuel : nat)
  (st : MessageState) : MessageExit :=
  if m_attempts st <? maxAttempts then
    match fuel with
    | O => MessageRunning st
    | S fuel' =>
      let called := S (m_calls st) in
      match messageAttempt context returnUsage (m_calls st) with
      | Ok (Some content) =>
        MessageReturned content
          {| m_attempts := m_attempts st; m_retryLength := m_retryLength st;
             m_waits := m_waits st; m_calls := called |}
      | Ok None =>
        (* parsedContent is null: [attempts++] and straight on *)
        messageLoop context returnUsage fuel'
          {| m_attempts := m_attempts st + 1; m_retryLength := m_retryLength st;
             m_waits := m_waits st; m_calls := called |}
      | Throw _ =>
        (* [attempts++], then the delay is doubled and waited for, unless
           that was the last attempt *)
        let attempts := m_attempts st + 1 in
        if attempts <? maxAttempts then
          let retryLength := m_retryLength st * 2 in
          messageLoop context returnUsage fuel'
            {| m_attempts := attempts; m_retryLength := retryLength;
               m_waits := m_waits st ++ [retryLength]; m_calls := called |}
        else
          messageLoop context returnUsage fuel'
            {| m_attempts := attempts; m_retryLength := m_retryLength st;
               m_waits := m_waits st; m_calls := called |}
      end
    end
  else MessageThrew "Failed to generate message response after 3 attempts" st.

Definition initialMessageState : MessageState :=
  {| m_attempts := 0; m_retryLength := 1000; m_waits := []; m_calls := 0 |}.

(** [generateMessageResponse]; [maxInputTokens] is the setting of the model
    in use, to which the context is trimmed first. *)
Definition generateMessageResponse (maxInputTokens : Z) (runtime : IAgentRuntime)
  (context : string) (returnUsage : bool) (fuel : nat) : MessageExit :=
  match trimTokens encodingForModel TokenizerType_TikToken context maxInputTokens runtime with
  | Throw e => MessageThrew e initialMessageState
  | Ok trimmed => messageLoop trimmed returnUsage fuel initialMessageState
  end.

End MessageResponse.

End Generation.

(** ** utils/types.ts *)

Module Types.

Inductive LaunchpadChain : Type := BASE | LENS.

Inductive SmartMediaStatus : Type :=
| ACTIVE     (* handler updated it *)
| FAILED     (* handler failed to update it *)
| DISABLED.  (* updates are disabled *)

#[export] Instance SmartMediaStatus_eq_dec : EqDecision SmartMediaStatus.
Proof. solve_decision. Defined.

#[export] Instance LaunchpadChain_eq_dec : EqDecision LaunchpadChain.
Proof. solve_decision. Defined.

Record LaunchpadToken := {
  chain : LaunchpadChain;
  address : string;
}.

Definition TemplateName := string.

(** [SmartMediaBase & {...}]; the fields marked optional in the source are
    options. [templateData] is [unknown] there: any JSON value. *)
Record SmartMedia := {
  agentId : string;
  creator : string;
  template : TemplateName;
  category : string;
  createdAt : Z;
  updatedAt : Z;
  templateData : option json;
  postId : string;
  maxStaleTime : Z;
  uri : string;
  token : option LaunchpadToken;
  versions : option (list string);
  versionCount : option Z;
  canvas : option string;
  status : option SmartMediaStatus;
}.

(** [LanguageModelUsage & {...}]. [videosCreated] is not among the declared
    fields; [handlePostUpdate] reads it all the same, so it is kept here as a
    property that is [undefined] unless a handler sets it. *)
Record TemplateUsage := {
  promptTokens : Z;
  completionTokens : Z;
  totalTokens : Z;
  imagesCreated : option Z;
  videosCreated : option Z;
  videoCostParams : option (string * Z);
  audioCharacters : option Z;
  customTokens : option (list (string * Generation.LanguageModelUsage));
}.

Record TemplateHandlerResponse := {
  preview : option json;
  metadata : option json;
  refreshMetadata : option bool;
  refreshCache : option bool;
  persistVersionUri : option string;
  updatedTemplateData : option json;
  totalUsage : option TemplateUsage;
}.

(** [!!b] on a flag that may be [undefined]. *)
Definition flag (b : option bool) : bool := default false b.

End Types.

Import Types.

(** ** templates/bonsaiGarden.ts *)

Module BonsaiGarden.

(** A Lens comment, as far as the handler reads it. *)
Record Post := {
  id : string;
  author : string;    (* [comment.author.address] *)
  content : string;   (* [comment.metadata.content] *)
}.

Record WeightedComment := {
  wc_content : string;
  votes : Z;
}.

Inductive Event : Type :=
| EvGenerateText (topComment : string) (attempt : Z)
| EvGenerateImage (imagePrompt : string) (attempt : Z).

(** The number of [generateImage] calls in a trace. *)
Definition isImageCall (e : Event) : bool :=
  match e with
  | EvGenerateImage _ _ => true
  | EvGenerateText _ _ => false
  end.

Definition imageCalls (tr : list Event) : nat :=
  length (filter (λ e, isImageCall e = true) tr).

(** The collaborators of one handler run. *)
Record HandlerEnv := {
  isMediaStale : SmartMedia → bool;
  fetchAllCommentsFor : string → result (list Post);
  getLatestComments : SmartMedia → list Post → list Post;
  (* the value lodash reads at the path ['comment.author.address'] *)
  uniqKey : Post → option string;
  fetchAllCollectorsFor : string → result (list string);
  fetchAllUpvotersFor : string → result (list string);
  balanceOfBatched : LaunchpadChain → list string → string → result (list Z);
  getVoteWeightFromBalance : Z → Z;
  (* [storageClient.resolve] and the fetch of the current metadata *)
  resolveCurrentImage : SmartMedia → result string;
  generateText : string → Z → result (string * Generation.LanguageModelUsage);
  generateImage : string → Z → Generation.ImageResult;
  (* version caching on storj and [storageClient.editFile]: the version uri
     to persist, if any *)
  persistImage : SmartMedia → Generation.ImageResult → result (option string);
}.

Definition DEFAULT_MIN_ENGAGEMENT_UPDATE_THREHOLD : Z := 1.
Definition MAX_ATTEMPTS : Z := 2.

(** lodash [uniq]: the first occurrence of each element, in order. *)
Fixpoint uniq_from (seen l : list string) : list string :=
  match l with
  | [] => []
  | x :: rest =>
    if bool_decide (x ∈ seen) then uniq_from seen rest
    else x :: uniq_from (x :: seen) rest
  end.

Definition uniq (l : list string) : list string := uniq_from [] l.

(** lodash [uniqBy]: the first element for each key. *)
Fixpoint uniqBy_from {A} (key : A → option string) (seen : list (option string))
  (l : list A) : list A :=
  match l with
  | [] => []
  | x :: rest =>
    if bool_decide (key x ∈ seen) then uniqBy_from key seen rest
    else x :: uniqBy_from key (key x :: seen) rest
  end.

Definition uniqBy {A} (key : A → option string) (l : list A) : list A :=
  uniqBy_from key [] l.

(** [allCollectors.includes(account)] *)
Definition includes (l : list string) (x : string) : bool := bool_decide (x ∈ l).

(** lodash [orderBy(_, 'votes', 'desc')]: a stable sort, largest first. *)
Fixpoint insert_desc (x : WeightedComment) (l : list WeightedComment) : list WeightedComment :=
  match l with
  | [] => [x]
  | y :: rest =>
    if votes y <=? votes x then x :: y :: rest
    else y :: insert_desc x rest
  end.

Definition orderBy_votes_desc (l : list WeightedComment) : list WeightedComment :=
  foldr insert_desc [] l.

Section Handler.

Variable env : HandlerEnv.

(** The voters of a comment that count: up-voters and author, without
    repetition, collectors only. *)
Definition qualifyingVoters (allCollectors upvoters : list string) (comment : Post)
  : list string :=
  let voters := (upvoters ++ [author comment]) in
  let voters := uniq voters in
  filter (λ account, includes allCollectors account = true) voters.

(** [!media?.token?.address] *)
Definition noToken (media : SmartMedia) : bool :=
  match token media with
  | Some tok => negb (truthy_string (address tok))
  | None => true
  end.

(** The callback of [comments.map] that builds [commentsWeighted]. *)
Definition weighComment (media : SmartMedia) (allCollectors : list string) (comment : Post)
  : result WeightedComment :=
  upvoters ← fetchAllUpvotersFor env (id comment);
  let voters := qualifyingVoters allCollectors upvoters comment in
  match token media with
  | Some tok =>
    if truthy_string (address tok) then
      balances ← balanceOfBatched env (if bool_decide (chain tok = BASE) then BASE else LENS)
                                  voters (address tok);
      Ok {| wc_content := content comment;
            votes := fold_left (λ acc b, acc + getVoteWeightFromBalance env b) balances 0 |}
    else Ok {| wc_content := content comment; votes := Z.of_nat (length voters) |}
  | None => Ok {| wc_content := content comment; votes := Z.of_nat (length voters) |}
  end.

(** [minCommentUpdateThreshold || DEFAULT_MIN_ENGAGEMENT_UPDATE_THREHOLD] *)
Definition threshold (td : json) : Z :=
  match td with
  | JObj fields =>
    match assoc "minCommentUpdateThreshold" fields with
    | Some (JNum n) => if Z.eqb n 0 then DEFAULT_MIN_ENGAGEMENT_UPDATE_THREHOLD else n
    | _ => DEFAULT_MIN_ENGAGEMENT_UPDATE_THREHOLD
    end
  | _ => DEFAULT_MIN_ENGAGEMENT_UPDATE_THREHOLD
  end.

(** The staleness and engagement gate: the comments to evaluate, or [None]
    when the handler returns its no-op response. *)
Definition commentsToEvaluate (media : SmartMedia) (td : json) (forceUpdate : bool)
  : result (option (list Post)) :=
  if isMediaStale env media || forceUpdate then
    allComments ← fetchAllCommentsFor env (postId media);
    let comments := getLatestComments env media allComments in
    let comments := uniqBy (uniqKey env) comments in
    if Z.of_nat (length comments) <? threshold td then Ok None
    else Ok (Some comments)
  else Ok None.

(** [orderBy(commentsWeighted, 'votes', 'desc')[0].content] *)
Definition topComment (commentsWeighted : list WeightedComment) : result string :=
  match orderBy_votes_desc commentsWeighted with
  | top :: _ => Ok (wc_content top)
  | [] => Throw "TypeError: Cannot read properties of undefined (reading 'content')"
  end.

Definition addUsage (total : TemplateUsage) (u : Generation.LanguageModelUsage)
  : TemplateUsage :=
  {| promptTokens := promptTokens total + Generation.promptTokens u;
     completionTokens := completionTokens total + Generation.completionTokens u;
     totalTokens := totalTokens total + Generation.totalTokens u;
     imagesCreated := imagesCreated total;
     videosCreated := videosCreated total;
     videoCostParams := videoCostParams total;
     audioCharacters := audioCharacters total;
     customTokens := customTokens total |}.

Definition addImage (total : TemplateUsage) : TemplateUsage :=
  {| promptTokens := promptTokens total;
     completionTokens := completionTokens total;
     totalTokens := totalTokens total;
     imagesCreated := Some (or_zero (imagesCreated total) + 1);
     videosCreated := videosCreated total;
     videoCostParams := videoCostParams total;
     audioCharacters := audioCharacters total;
     customTokens := customTokens total |}.

(** The variables the image loop updates. *)
Record LoopState := {
  attempts : Z;
  imageResponse : option Generation.ImageResult;
  loopUsage : TemplateUsage;
  trace : list Event;
}.

(** The iterations the loop condition still allows in a state. *)
Definition iterationsLeft (st : LoopState) : nat := Z.to_nat (MAX_ATTEMPTS - attempts st).

(** Where the [while (attempts < MAX_ATTEMPTS)] loop stands after at most
    [fuel] iterations: left (by [break] or by its condition), thrown out of
    by [generateText], or still running. *)
Inductive LoopExit : Type :=
| Left_ (st : LoopState)
| Thrown (e : string) (st : LoopState)
| StillRunning (st : LoopState).

Fixpoint imageLoop (top : string) (fuel : nat) (st : LoopState) : LoopExit :=
  if attempts st <? MAX_ATTEMPTS then
    match fuel with
    | O => StillRunning st
    | S fuel' =>
      let tr := (trace st ++ [EvGenerateText top (attempts st)]) in
      match generateText env top (attempts st) with
      | Throw e =>
        Thrown e {| attempts := attempts st; imageResponse := imageResponse st;
                    loopUsage := loopUsage st; trace := tr |}
      | Ok (imagePrompt, usage) =>
        let total := addUsage (loopUsage st) usage in
        let r := generateImage env imagePrompt (attempts st) in
        let tr := (tr ++ [EvGenerateImage imagePrompt (attempts st)]) in
        let total := addImage total in
        if Generation.success r then
          Left_ {| attempts := attempts st; imageResponse := Some r;
                   loopUsage := total; trace := tr |}
        else
          imageLoop top fuel' {| attempts := attempts st + 1; imageResponse := Some r;
                                 loopUsage := total; trace := tr |}
      end
    end
  else Left_ st.

(** [let imageResponse; let attempts = 0;] and the fresh [totalUsage]. *)
Definition zeroUsage : TemplateUsage :=
  {| promptTokens := 0; completionTokens := 0; totalTokens := 0;
     imagesCreated := Some 0; videosCreated := None; videoCostParams := None;
     audioCharacters := None; customTokens := None |}.

Definition initialLoopState : LoopState :=
  {| attempts := 0; imageResponse := None; loopUsage := zeroUsage; trace := [] |}.

(** [{ metadata: undefined, totalUsage }] *)
Definition skipped (total : TemplateUsage) : TemplateHandlerResponse :=
  {| preview := None; metadata := None; refreshMetadata := None; refreshCache := None;
     persistVersionUri := None; updatedTemplateData := None; totalUsage := Some total |}.

(** The statements of the [try] block up to the image loop: the content of
    the winning comment, or [None] for the no-op response. *)
Definition chooseComment (media : SmartMedia) (td : json) (forceUpdate : bool)
  : result (option string) :=
  comments ← commentsToEvaluate media td forceUpdate;
  match comments with
  | None => Ok None
  | Some comments =>
    allCollectors ← fetchAllCollectorsFor env (postId media);
    commentsWeighted ← mapM (weighComment media allCollectors) comments;
    _ ← resolveCurrentImage env media;
    top ← topComment commentsWeighted;
    Ok (Some top)
  end.

(** [bonsaiGarden.handler]: the response ([None] for [undefined]) and the
    generation calls made, in order. [fuel] bounds the iterations of the image
    loop that are unrolled. *)
Definition handler (fuel : nat) (media : option SmartMedia) (forceUpdate : bool)
  : option TemplateHandlerResponse * list Event :=
  match media with
  | None => (None, [])
  | Some media =>
    match templateData media with
    | None => (None, [])
    | Some td =>
      if negb (truthy td) then (None, [])
      else
        let refresh := true in
        match chooseComment media td forceUpdate with
        | Throw _ => (None, [])
        | Ok None => (Some (skipped zeroUsage), [])
        | Ok (Some top) =>
          match imageLoop top fuel initialLoopState with
          | StillRunning st => (None, trace st)
          | Thrown _ st => (None, trace st)
          | Left_ st =>
            match imageResponse st with
            | None => (None, trace st)
            | Some r =>
              if negb (Generation.success r) then (None, trace st)
              else
                match persistImage env media r with
                | Throw _ => (None, trace st)
                | Ok uri =>
                  (Some {| preview := None; metadata := None;
                           refreshMetadata := Some refresh; refreshCache := None;
                           persistVersionUri := uri; updatedTemplateData := None;
                           totalUsage := Some (loopUsage st) |}, trace st)
                end
            end
          end
        end
    end
  end.

End Handler.

End BonsaiGarden.

(** ** ClientService.ts *)

Module ClientService.

(** [utils/constants.ts] and [utils/apiCredits.ts] are not among the sources
    at hand; the constants they export are the fields of a configuration. *)
Record Config := {
  DEFAULT_FREEZE_TIME : Z;
  FREE_GENERATIONS_PER_HOUR : Z;
  PREMIUM_TEMPLATES : list TemplateName;
  DEFAULT_MODEL_ID : string;
}.

(** [template.clientMetadata], as far as the service reads it. *)
Record Template := {
  name : TemplateName;
  defaultModel : option string;
}.

Inductive Event : Type :=
| EvHandler (template : TemplateName) (media : option SmartMedia) (forceUpdate : bool)
| EvDecrementCredits (creator model : string) (input output images : Z)
    (videoCostParams : option (string * Z)) (audioCharacters : option Z)
    (customTokens : option (list (string * Generation.LanguageModelUsage)))
| EvRefreshMetadata (postId : string).

(** A preview counter in Redis: the integer [INCR] maintains and the time to
    live set by [EXPIRE], in seconds. *)
Record Counter := {
  count : Z;
  ttl : option Z;
}.

(** The stores of the service. Redis holds the cached posts under
    [post/<postId>] and the preview counters under
    [create_preview_count:<creator>]; the two families of keys are two maps
    here. A cached post is the record that [JSON.stringify] wrote: a field
    set to [undefined] is absent. [mongo_media] is the [media] collection,
    one document per [postId]. *)
Record State := {
  redis_posts : gmap string SmartMedia;
  redis_counters : gmap string Counter;
  mongo_media : gmap string SmartMedia;
  tasks : gset string;
  templates : gmap TemplateName Template;
  log : list Event;
}.

(** What one request or job meets outside the service. *)
Record Env := {
  now : Z;            (* [Math.floor(Date.now() / 1000)] at the freeze check *)
  nowAtCache : Z;     (* the same reading, taken when the post is cached *)
  isDeleted : string → bool;                    (* [fetchPostById(postId)?.isDeleted] *)
  canUpdate : string → TemplateName → bool;     (* [canUpdate(creator, template)] *)
  runHandler : TemplateName → option SmartMedia → bool
               → result (option TemplateHandlerResponse);
  refreshMetadataStatus : string → string;      (* status of the refresh job *)
}.

(** *** Record updates *)

Definition with_redis_posts (f : gmap string SmartMedia → gmap string SmartMedia)
  (st : State) : State :=
  {| redis_posts := f (redis_posts st); redis_counters := redis_counters st;
     mongo_media := mongo_media st; tasks := tasks st; templates := templates st;
     log := log st |}.

Definition with_redis_counters (f : gmap string Counter → gmap string Counter)
  (st : State) : State :=
  {| redis_posts := redis_posts st; redis_counters := f (redis_counters st);
     mongo_media := mongo_media st; tasks := tasks st; templates := templates st;
     log := log st |}.

Definition with_mongo_media (f : gmap string SmartMedia → gmap string SmartMedia)
  (st : State) : State :=
  {| redis_posts := redis_posts st; redis_counters := redis_counters st;
     mongo_media := f (mongo_media st); tasks := tasks st; templates := templates st;
     log := log st |}.

Definition with_tasks (f : gset string → gset string) (st : State) : State :=
  {| redis_posts := redis_posts st; redis_counters := redis_counters st;
     mongo_media := mongo_media st; tasks := f (tasks st); templates := templates st;
     log := log st |}.

Definition emit (e : Event) (st : State) : State :=
  {| redis_posts := redis_posts st; redis_counters := redis_counters st;
     mongo_media := mongo_media st; tasks := tasks st; templates := templates st;
     log := (log st ++ [e]) |}.

Definition set_status (s : option SmartMediaStatus) (m : SmartMedia) : SmartMedia :=
  {| agentId := agentId m; creator := creator m; template := template m;
     category := category m; createdAt := createdAt m; updatedAt := updatedAt m;
     templateData := templateData m; postId := postId m;
     maxStaleTime := maxStaleTime m; uri := uri m; token := token m;
     versions := versions m; versionCount := versionCount m; canvas := canvas m;
     status := s |}.

Definition set_versionCount (n : option Z) (m : SmartMedia) : SmartMedia :=
  {| agentId := agentId m; creator := creator m; template := template m;
     category := category m; createdAt := createdAt m; updatedAt := updatedAt m;
     templateData := templateData m; postId := postId m;
     maxStaleTime := maxStaleTime m; uri := uri m; token := token m;
     versions := versions m; versionCount := n; canvas := canvas m;
     status := status m |}.

Definition set_versions (vs : option (list string)) (m : SmartMedia) : SmartMedia :=
  {| agentId := agentId m; creator := creator m; template := template m;
     category := category m; createdAt := createdAt m; updatedAt := updatedAt m;
     templateData := templateData m; postId := postId m;
     maxStaleTime := maxStaleTime m; uri := uri m; token := token m;
     versions := vs; versionCount := versionCount m; canvas := canvas m;
     status := status m |}.

Definition set_templateData (td : option json) (m : SmartMedia) : SmartMedia :=
  {| agentId := agentId m; creator := creator m; template := template m;
     category := category m; createdAt := createdAt m; updatedAt := updatedAt m;
     templateData := td; postId := postId m;
     maxStaleTime := maxStaleTime m; uri := uri m; token := token m;
     versions := versions m; versionCount := versionCount m; canvas := canvas m;
     status := status m |}.

Definition set_updatedAt (t : Z) (m : SmartMedia) : SmartMedia :=
  {| agentId := agentId m; creator := creator m; template := template m;
     category := category m; createdAt := createdAt m; updatedAt := t;
     templateData := templateData m; postId := postId m;
     maxStaleTime := maxStaleTime m; uri := uri m; token := token m;
     versions := versions m; versionCount := versionCount m; canvas := canvas m;
     status := status m |}.

(** *** Stores *)

(** [cachePost]: [redis.set(`post/${data.postId}`, JSON.stringify(data))] *)
Definition cachePost (data : SmartMedia) (st : State) : State :=
  with_redis_posts (λ m, <[postId data := data]> m) st.

(** [removePostFromCache]: [redis.del(`post/${data.postId}`)] *)
Definition removePostFromCache (data : SmartMedia) (st : State) : State :=
  with_redis_posts (λ m, delete (postId data) m) st.

(** The projection [{ _id: 0, versions: { $slice: -10 } }]. *)
Definition project_last10 (doc : SmartMedia) : SmartMedia :=
  set_versions (array_slice (-10) <$> versions doc) doc.

(** [getPost]: the cache first, the collection otherwise. *)
Definition getPost (st : State) (postId : string) : option SmartMedia :=
  match redis_posts st !! postId with
  | Some cached => Some cached
  | None => project_last10 <$> mongo_media st !! postId
  end.

(** The update document built by [handlePostUpdate]. Each assignment to
    [update.$set] stores a whole object. *)
Record SetFields := {
  set_f_versionCount : option Z;
  set_f_status : option SmartMediaStatus;
}.

Record UpdateDoc := {
  upd_push : option string;      (* [$push: { versions: uri }] *)
  upd_set : option SetFields;    (* [$set: {...}] *)
}.

Definition apply_set (s : SetFields) (doc : SmartMedia) : SmartMedia :=
  let doc := match set_f_versionCount s with
             | Some n => set_versionCount (Some n) doc
             | None => doc
             end in
  match set_f_status s with
  | Some v => set_status (Some v) doc
  | None => doc
  end.

Definition apply_update (u : UpdateDoc) (doc : SmartMedia) : SmartMedia :=
  let doc := match upd_push u with
             | Some v => set_versions (Some (default [] (versions doc) ++ [v])) doc
             | None => doc
             end in
  match upd_set u with
  | Some s => apply_set s doc
  | None => doc
  end.

(** [mongo.media.updateOne({ postId }, update)]: no document, no change. *)
Definition updateOne (postId : string) (u : UpdateDoc) (st : State) : State :=
  with_mongo_media (alter (apply_update u) postId) st.

Definition set_status_doc (s : SmartMediaStatus) : UpdateDoc :=
  {| upd_push := None;
     upd_set := Some {| set_f_versionCount := None; set_f_status := Some s |} |}.

(** *** handlePostUpdate *)

(** [decrementCredits(creator, model, { input, output }, images, ...)] *)
Definition decrementCredits (creator model : string) (totalUsage : option TemplateUsage)
  (st : State) : State :=
  emit (EvDecrementCredits creator model
          (default 0 (promptTokens <$> totalUsage))
          (default 0 (completionTokens <$> totalUsage))
          (or_zero (totalUsage ≫= imagesCreated))
          (totalUsage ≫= videoCostParams)
          (totalUsage ≫= audioCharacters)
          (totalUsage ≫= customTokens)) st.

(** [defaultModel || DEFAULT_MODEL_ID] *)
Definition modelOr (cfg : Config) (defaultModel : option string) : string :=
  if truthy_opt_string defaultModel then default "" defaultModel else DEFAULT_MODEL_ID cfg.

(** The condition of the [else if] at the head of [handlePostUpdate]:
    [!response.refreshMetadata && response.totalUsage.promptTokens === 0 &&
     response.totalUsage.imagesCreated === 0 &&
     response.totalUsage.videosCreated === 0]. *)
Definition noUpdates (response : TemplateHandlerResponse) : result bool :=
  if flag (refreshMetadata response) then Ok false
  else
    match totalUsage response with
    | None => Throw "TypeError: Cannot read properties of undefined (reading 'promptTokens')"
    | Some u =>
      Ok (bool_decide (promptTokens u = 0)
          && bool_decide (imagesCreated u = Some 0)
          && bool_decide (videosCreated u = Some 0))
    end.

(** The freeze shared by the two branches: past [DEFAULT_FREEZE_TIME] the
    document is marked [FAILED] and the post leaves the cache. *)
Definition freezeIfOverdue (cfg : Config) (env : Env) (postId : string)
  (data : SmartMedia) (st : State) : State :=
  if DEFAULT_FREEZE_TIME cfg <? now env - updatedAt data then
    removePostFromCache data (updateOne postId (set_status_doc FAILED) st)
  else st.

(** [!!response.persistVersionUri] *)
Definition hasNewVersion (response : TemplateHandlerResponse) : bool :=
  truthy_opt_string (persistVersionUri response).

Definition needsStatusUpdate (data : SmartMedia) : bool :=
  bool_decide (status data = Some DISABLED) || bool_decide (status data = Some FAILED).

(** The object [update] as it stands when [updateOne] is called. *)
Definition buildUpdate (data : SmartMedia) (response : TemplateHandlerResponse)
  : UpdateDoc :=
  let update := {| upd_push := None; upd_set := None |} in
  let update :=
    if hasNewVersion response then
      {| upd_push := persistVersionUri response;
         upd_set := Some {| set_f_versionCount := Some (or_zero (versionCount data) + 1);
                            set_f_status := None |} |}
    else update in
  if needsStatusUpdate data then
    {| upd_push := upd_push update;
       upd_set := Some {| set_f_versionCount := None; set_f_status := Some ACTIVE |} |}
  else update.

Definition hasMetadata (response : TemplateHandlerResponse) : bool :=
  match metadata response with
  | Some v => truthy v
  | None => false
  end.

(** [response.updatedTemplateData || data.templateData] *)
Definition nextTemplateData (data : SmartMedia) (response : TemplateHandlerResponse)
  : option json :=
  match updatedTemplateData response with
  | Some v => if truthy v then Some v else templateData data
  | None => templateData data
  end.

(** The refresh is asked for and its job reports [FAILED]. *)
Definition refreshFails (env : Env) (postId : string) (response : TemplateHandlerResponse)
  : bool :=
  (hasMetadata response || flag (refreshMetadata response))
  && bool_decide (refreshMetadataStatus env postId = "FAILED").

(** What follows the log line "handler completed". *)
Definition applyResponse (cfg : Config) (env : Env) (postId : string) (tpl : Template)
  (data : SmartMedia) (response : TemplateHandlerResponse) (st : State) : State :=
  let st :=
    if needsStatusUpdate data || hasNewVersion response
    then updateOne postId (buildUpdate data response) st
    else st in
  let st := decrementCredits (creator data) (modelOr cfg (defaultModel tpl))
                             (totalUsage response) st in
  let wantsRefresh := hasMetadata response || flag (refreshMetadata response) in
  if negb wantsRefresh && negb (flag (refreshCache response)) then st
  else
    let st := if wantsRefresh then emit (EvRefreshMetadata postId) st else st in
    if wantsRefresh && bool_decide (refreshMetadataStatus env postId = "FAILED")
    then updateOne postId (set_status_doc FAILED) st
    else
      cachePost
        (set_status None
          (set_versionCount (Some (or_zero (versionCount data) + 1))
            (set_versions None
              (set_updatedAt (nowAtCache env)
                (set_templateData (nextTemplateData data response) data)))))
        st.

(** [handlePostUpdate(postId, forceUpdate)]: the state it leaves and whether
    its promise resolves or rejects. *)
Definition handlePostUpdate (cfg : Config) (env : Env) (postId : string)
  (forceUpdate : option bool) (st : State) : State * result () :=
  match getPost st postId with
  | None => (st, Ok ())
  | Some data =>
    match templates st !! template data with
    | None => (st, Ok ())
    | Some tpl =>
      if isDeleted env postId then
        (removePostFromCache data (updateOne postId (set_status_doc DISABLED) st), Ok ())
      else if negb (canUpdate env (creator data) (template data)) then (st, Ok ())
      else
        let st := emit (EvHandler (template data) (Some data) (flag forceUpdate)) st in
        match runHandler env (template data) (Some data) (flag forceUpdate) with
        | Throw e => (st, Throw e)
        | Ok None => (freezeIfOverdue cfg env postId data st, Ok ())
        | Ok (Some response) =>
          match noUpdates response with
          | Throw e => (st, Throw e)
          | Ok true => (freezeIfOverdue cfg env postId data st, Ok ())
          | Ok false => (applyResponse cfg env postId tpl data response st, Ok ())
          end
        end
    end
  end.

(** *** handlePreviewCredits *)

Definition previewKey (creator : string) : string := "create_preview_count:" +:+ creator.

(** [redis.get(previewKey)] yields the counter as a decimal string, or
    [null]; a decimal string is truthy and [Number.parseInt] reads the integer
    back. [multi().incr(key).expire(key, 3600).exec()] adds one and arms the
    hour. *)
Definition handlePreviewCredits (cfg : Config) (templateName : TemplateName)
  (creator : string) (totalUsage : option TemplateUsage) (defaultModel : option string)
  (st : State) : State :=
  let debit := decrementCredits creator (modelOr cfg defaultModel) totalUsage st in
  if negb (bool_decide (templateName ∈ PREMIUM_TEMPLATES cfg)) then
    match redis_counters st !! previewKey creator with
    | Some previewCount =>
      if count previewCount <? FREE_GENERATIONS_PER_HOUR cfg then
        with_redis_counters
          (<[previewKey creator := {| count := count previewCount + 1; ttl := Some 3600 |}]>)
          st
      else debit
    | None => debit
    end
  else debit.

(** *** Routes *)

(** Modelled from the spec: [utils/taskQueue.ts] is not among the sources.
    Section 4.1 of the specification: at most one job per key is in flight;
    a job's exception is caught and the key released when the job ends. Jobs
    run to completion one after the other here. *)
Definition isProcessing (st : State) (postId : string) : bool :=
  bool_decide (postId ∈ tasks st).

(** Modelled from the spec: [TaskQueue.add(key, job)] marks the key busy,
    runs the job, and releases the key when the job has ended, by return or
    by exception. *)
Definition tasks_add (postId : string) (job : State → State * result ()) (st : State)
  : State :=
  let st := with_tasks (λ t, {[postId]} ∪ t) st in
  let st := (job st).1 in
  with_tasks (λ t, t ∖ {[postId]}) st.

(** [POST /post/:postId/update], after the [verifyApiKeyOrLensId] middleware;
    [user] is [req.user?.sub]. The job the route queues has run when the
    state is returned. *)
Definition postUpdate (cfg : Config) (env : Env) (postId : string)
  (forceUpdate : option bool) (user : option string) (st : State) : State * Z :=
  if isProcessing st postId then (st, 204)
  else
    match getPost st postId with
    | None => (st, 404)
    | Some data =>
      if flag forceUpdate && negb (bool_decide (Some (creator data) = user)) then (st, 401)
      else if negb (canUpdate env (creator data) (template data)) then (st, 403)
      else (tasks_add postId (handlePostUpdate cfg env postId forceUpdate) st, 200)
    end.

(** [POST /post/:postId/disable], after the [verifyLensId] middleware. *)
Definition postDisable (postId : string) (user : option string) (st : State)
  : State * Z :=
  match getPost st postId with
  | None => (st, 404)
  | Some data =>
    if negb (bool_decide (Some (creator data) = user)) then (st, 401)
    else (removePostFromCache data (updateOne postId (set_status_doc DISABLED) st), 200)
  end.

(** The credit debits recorded in a log. *)
Definition isDebit (e : Event) : bool :=
  match e with
  | EvDecrementCredits _ _ _ _ _ _ _ _ => true
  | _ => false
  end.

Definition debits (l : list Event) : nat := length (filter (λ e, isDebit e = true) l).

(** The handler invocations recorded in a log. *)
Definition isHandlerRun (e : Event) : bool :=
  match e with
  | EvHandler _ _ _ => true
  | _ => false
  end.

Definition handlerRuns (l : list Event) : list Event :=
  filter (λ e, isHandlerRun e = true) l.

End ClientService.

(** ** ClientService.ts: the routes that create a post *)

Module ClientRoutes.

Import ClientService.

(** The service with [this.cache], the previews kept in memory by
    [agentId], beside the stores. *)
Record Service := {
  store : State;
  cache : gmap string SmartMedia;
}.

(** What the two routes meet outside the service. *)
Record RouteEnv := {
  (* [canUpdate(creator, templateName)] *)
  canAfford : string → TemplateName → bool;
  (* [template.handler(runtime, undefined, templateData)] of the template
     registered under a name *)
  previewHandler : TemplateName → option json → result (option TemplateHandlerResponse);
  (* [formatSmartMedia(creator, category, templateName, templateData, postId,
     uri, token)] of [utils/utils.ts], which is not among the sources: the
     record it builds, with the identifier and the time stamps it draws *)
  formatSmartMedia : string → option json → TemplateName → option json
                     → option string → option string → option LaunchpadToken → SmartMedia;
}.

Definition with_store (f : State → State) (svc : Service) : Service :=
  {| store := f (store svc); cache := cache svc |}.

(** [cachePreview]: [this.cache.set(data.agentId, data)] *)
Definition cachePreview (data : SmartMedia) (svc : Service) : Service :=
  {| store := store svc; cache := <[agentId data := data]> (cache svc) |}.

(** [deletePreview]: [this.cache.delete(agentId)] *)
Definition deletePreview (agentId : string) (svc : Service) : Service :=
  {| store := store svc; cache := delete agentId (cache svc) |}.

(** [mongo.media.insertOne(doc)]. The collection is the map from a post id
    to the document [findOne({ postId })] returns, the first one in insertion
    order: a document inserted under a post id that has one already does not
    change it. *)
Definition insertOne (doc : SmartMedia) (st : State) : State :=
  with_mongo_media
    (λ m, match m !! postId doc with
          | Some _ => m
          | None => <[postId doc := doc]> m
          end) st.

(** The own enumerable properties [{ ...v }] copies: those of an object, the
    indices of an array or of a string, none of the other values. *)
Definition spread (v : option json) : list (string * json) :=
  match v with
  | Some (JObj fields) => fields
  | Some (JArr items) => imap (λ i item, (pretty i, item)) items
  | Some (JStr s) =>
    imap (λ i c, (pretty i, JStr (String c EmptyString))) (String.list_ascii_of_string s)
  | _ => []
  end.

(** [x || y] on values that may be [undefined]. *)
Definition or_else (x y : option json) : option json :=
  match x with
  | Some v => if truthy v then Some v else y
  | None => y
  end.

(** A name usable as a key of [this.templates] and as an element of
    [PREMIUM_TEMPLATES]: a string. *)
Definition asName (v : option json) : option TemplateName :=
  match v with
  | Some (JStr s) => Some s
  | _ => None
  end.

(** The body of a preview request: [req.body.data] as it is after
    [typeof data === 'string' ? JSON.parse(data) : data] ([None] when the
    field is missing, a [Throw] when the string does not parse), and
    [req.file] as its mime type and the base64 text of its buffer. *)
Record PreviewRequest := {
  pr_data : option (result json);
  pr_file : option (string * string);
}.

Inductive Reply (A : Type) : Type :=
| Status (code : Z)          (* an answer other than 200 *)
| Success (body : A).        (* [res.status(200)] with its body *)

Arguments Status {A} code.
Arguments Success {A} body.

(** The [try] block that reads the form. *)
Definition formFields (data : option (result json))
  : result (option json * option json * option json) :=
  formData ← match data with
             | Some parsed => parsed
             | None => Throw "TypeError: Cannot read properties of undefined"
             end;
  templateData ← get_prop formData "templateData";
  category ← get_prop formData "category";
  templateName ← get_prop formData "templateName";
  Ok (templateData, category, templateName).

(** [PREMIUM_TEMPLATES.includes(templateName)] *)
Definition isPremium (cfg : Config) (name : option TemplateName) : bool :=
  match name with
  | Some n => bool_decide (n ∈ PREMIUM_TEMPLATES cfg)
  | None => false
  end.

(** [{ ...templateData, imageData: `data:${mimetype};base64,${imageData}` }]:
    the new property shadows one of the same name. *)
Definition withImage (file : option (string * string)) (templateData : option json)
  : option json :=
  match file with
  | Some (mimetype, imageData) =>
    Some (JObj (("imageData", JStr ("data:" +:+ mimetype +:+ ";base64," +:+ imageData))
                :: spread templateData))
  | None => templateData
  end.

(** [POST /post/create-preview], after the [verifyLensId] middleware;
    [creator] is [req.user?.sub]. The answer is the agent id and the preview
    of the response; a handler that throws leaves the request unanswered. *)
Definition postCreatePreview (cfg : Config) (env : RouteEnv) (creator : string)
  (req : PreviewRequest) (svc : Service)
  : Service * result (Reply (string * option json)) :=
  match formFields (pr_data req) with
  | Throw _ => (svc, Ok (Status 400))
  | Ok (templateData, category, templateName) =>
    let name := asName templateName in
    if isPremium cfg name && negb (canAfford env creator (default "" name))
    then (svc, Ok (Status 403))
    else
      let templateData := withImage (pr_file req) templateData in
      match name ≫= (λ n, templates (store svc) !! n) with
      | None => (svc, Ok (Status 400))
      | Some tpl =>
        let templateName := default "" name in
        let svc := with_store (emit (EvHandler templateName None false)) svc in
        match previewHandler env templateName templateData with
        | Throw e => (svc, Throw e)
        | Ok response =>
          let media :=
            formatSmartMedia env creator category templateName
              (or_else (response ≫= updatedTemplateData) templateData) None None None in
          let svc := cachePreview media svc in
          let svc :=
            with_store (handlePreviewCredits cfg (ClientService.name tpl) creator
                          (response ≫= totalUsage) (defaultModel tpl)) svc in
          (svc, Ok (Success (agentId media, response ≫= preview)))
        end
      end
  end.

(** [req.body.params] of [POST /post/create]. *)
Record CreateParams := {
  cp_templateName : TemplateName;
  cp_category : option json;
  cp_templateData : option json;
}.

Record CreateRequest := {
  cr_agentId : option string;
  cr_params : option CreateParams;
  cr_postId : option string;
  cr_uri : option string;
  cr_token : option LaunchpadToken;
}.

(** [cachePost(media)] and [insertOne({ ...media, versions: [], status:
    ACTIVE })]. *)
Definition persist (media : SmartMedia) (svc : Service) : Service :=
  with_store
    (λ st, insertOne (set_status (Some ACTIVE) (set_versions (Some []) media))
             (cachePost media st)) svc.

(** [POST /post/create], after the [verifyLensId] middleware. *)
Definition postCreate (env : RouteEnv) (creator : string) (req : CreateRequest)
  (svc : Service) : Service * result (Reply SmartMedia) :=
  if truthy_opt_string (cr_agentId req) then
    let agentId := default "" (cr_agentId req) in
    match cache svc !! agentId with
    | None => (svc, Ok (Status 400))
    | Some preview =>
      let media :=
        formatSmartMedia env creator (Some (JStr (category preview))) (template preview)
          (templateData preview) (cr_postId req) (cr_uri req) (cr_token req) in
      let svc := deletePreview agentId svc in
      (persist media svc, Ok (Success media))
    end
  else
    match cr_params req with
    | Some params =>
      match templates (store svc) !! cp_templateName params with
      | None => (svc, Ok (Status 400))
      | Some tpl =>
        if negb (canAfford env creator (cp_templateName params))
        then (svc, Ok (Status 403))
        else
          let svc := with_store (emit (EvHandler (cp_templateName params) None false)) svc in
          match previewHandler env (cp_templateName params) (cp_templateData params) with
          | Throw e => (svc, Throw e)
          | Ok response =>
            let media :=
              formatSmartMedia env creator (cp_category params) (cp_templateName params)
                (or_else (response ≫= updatedTemplateData) (cp_templateData params))
                (cr_postId req) (cr_uri req) (cr_token req) in
            (persist media svc, Ok (Success media))
          end
      end
    | None => (svc, Ok (Status 400))
    end.

(** The body of the answer of [GET /post/:postId], without the descriptive
    fields copied from the template and without [featured], which is not a
    field of [SmartMedia]. *)
Record PostView := {
  view_data : SmartMedia;
  view_isProcessing : bool;
  view_versions : option (list string);
  view_status : option SmartMediaStatus;
}.

(** [GET /post/:postId]; [withVersions] is [req.query.withVersions], a
    string when present. An unregistered template makes the handler throw. *)
Definition getPostRoute (postId : string) (withVersions : option string) (st : State)
  : result (Reply PostView) :=
  match getPost st postId with
  | Some data =>
    let versions := versions data in
    let status := status data in
    let doc := mongo_media st !! postId in
    let queried := truthy_opt_string withVersions
                   && negb (bool_decide (is_Some versions) || bool_decide (is_Some status)) in
    let versions :=
      if queried then doc ≫= (λ d, array_slice (-10) <$> Types.versions d) else versions in
    let status := if queried then doc ≫= Types.status else status in
    match templates st !! template data with
    | None => Throw "template not found"
    | Some _ =>
      Ok (Success {| view_data := data; view_isProcessing := isProcessing st postId;
                     view_versions := versions; view_status := status |})
    end
  | None => Ok (Status 404)
  end.

End ClientRoutes.

(** ** templates/rpgGame.ts *)

Module RpgGame.

(** The handler casts [media.templateData] and [_templateData] to
    [TemplateData], and the answers of the model to [DecisionResponse] and
    to [NextPageResponse]; a cast checks nothing, so all of them are parsed
    JSON values here, and a property that is missing is [undefined]. *)

(** [v[i]] on a value that may be [undefined]. *)
Definition index (v : option json) (i : nat) : result (option json) :=
  match v with
  | None => Throw "TypeError: Cannot read properties of undefined"
  | Some JNull => Throw "TypeError: Cannot read properties of null"
  | Some (JArr items) => Ok (items !! i)
  | Some (JStr s) => Ok ((λ c, JStr (String c EmptyString)) <$> String.get i s)
  | Some (JObj fields) => Ok (assoc (pretty i) fields)
  | Some (JBool _) | Some (JNum _) => Ok None
  end.

(** [v.k] on a value that may be [undefined]. *)
Definition prop (v : option json) (k : string) : result (option json) :=
  match v with
  | None => Throw "TypeError: Cannot read properties of undefined"
  | Some v => get_prop v k
  end.

(** [v?.length] *)
Definition length_of (v : option json) : option json :=
  match v with
  | Some (JArr items) => Some (JNum (Z.of_nat (length items)))
  | Some (JStr s) => Some (JNum (Z.of_nat (String.length s)))
  | Some (JObj fields) => assoc "length" fields
  | Some JNull | Some (JBool _) | Some (JNum _) | None => None
  end.

(** [!!v] on a value that may be [undefined]. *)
Definition truthy_opt (v : option json) : bool :=
  match v with
  | Some v => truthy v
  | None => false
  end.

(** [v || ''] *)
Definition or_empty (v : option json) : json :=
  match v with
  | Some v => if truthy v then v else JStr ""
  | None => JStr ""
  end.

(** Assignment to the property [k] of an object: the value of a property
    that is there is replaced where it stands, a new property comes last. *)
Fixpoint set_prop {A} (k : string) (v : A) (props : list (string * A))
  : list (string * A) :=
  match props with
  | [] => [(k, v)]
  | (k', v') :: rest =>
    if String.eqb k k' then (k', v) :: rest else (k', v') :: set_prop k v rest
  end.

(** The own enumerable properties of the template data, which is all the
    handler reads of it; the names it reads are no indices. *)
Definition own (td : json) : list (string * json) := ClientRoutes.spread (Some td).

(** Whether a property can be added to a value: to an object or an array,
    not to a string, a number or a boolean, where the assignment throws in a
    module. *)
Definition extensible (td : json) : bool :=
  match td with
  | JObj _ | JArr _ => true
  | _ => false
  end.

(** The state [composeContext] fills [nextPageTemplate] with. *)
Record PageState := {
  st_context : option json;
  st_previousPages : json;
  st_writingStyle : option json;
  st_characterPersonalities : json;
}.

Definition pageState (props : list (string * json)) : PageState :=
  {| st_context := assoc "context" props;
     st_previousPages := or_empty (assoc "previousPages" props);
     st_writingStyle := assoc "writingStyle" props;
     st_characterPersonalities := or_empty (assoc "characterPersonalities" props) |}.

Inductive Event : Type :=
| EvDecide (decisions : option json) (comments : list BonsaiGarden.WeightedComment)
| EvNextPage (state : PageState)
| EvPublish (text : string).

(** The collaborators of one run: the Lens reads and the vote weights as
    for bonsaiGarden, and the two calls of [generateObjectDeprecated] with the
    contexts composed from [decisionTemplate] and [nextPageTemplate], when
    they return. *)
Record HandlerEnv := {
  lens : BonsaiGarden.HandlerEnv;
  decide : option json → list BonsaiGarden.WeightedComment
           → result (json * Generation.LanguageModelUsage);
  nextPage : PageState → result (json * Generation.LanguageModelUsage);
  (* [storageClient.resolve], the fetch of the current metadata,
     [cacheJsonStorj] of the previous version and [storageClient.updateJson]:
     the version uri to persist, if the version was cached *)
  publish : SmartMedia → string → result (option string);
  (* [String(n)] for a number *)
  numberToString : Z → string;
}.

(** What the handler returns when it returns an object. The properties of
    [updatedTemplateData] may hold [undefined]. *)
Record Page := {
  text : string;                       (* [preview.text] *)
  metadata : option string;            (* the text of the new metadata *)
  refreshMetadata : bool;
  updatedTemplateData : list (string * option json);
  persistVersionUri : option string;
  totalUsage : TemplateUsage;
}.

Inductive Response : Type :=
| Skipped (totalUsage : TemplateUsage)   (* [{ metadata: undefined, totalUsage }] *)
| Generated (page : Page).

(** One run: what the handler returns ([None] for [undefined]), the calls
    made, in order, and the properties of [media.templateData] once the run
    has written to it. *)
Record Outcome := {
  returned : option Response;
  calls : list Event;
  written : option (list (string * json));
}.

Definition newline : string := String (Ascii.ascii_of_nat 10) EmptyString.

Definition zeroUsage : TemplateUsage :=
  {| promptTokens := 0; completionTokens := 0; totalTokens := 0;
     imagesCreated := Some 0; videosCreated := None; videoCostParams := None;
     audioCharacters := None; customTokens := None |}.

Section Handler.

Variable env : HandlerEnv.

(** [`${v}`] for a parsed value: an array prints its elements with commas
    between them, [null] among them as nothing. *)
Fixpoint display (v : json) : string :=
  match v with
  | JNull => "null"
  | JBool true => "true"
  | JBool false => "false"
  | JNum n => numberToString env n
  | JStr s => s
  | JArr items =>
    (fix elements (items : list json) : string :=
       let element (x : json) :=
         match x with
         | JNull => ""
         | _ => display x
         end in
       match items with
       | [] => ""
       | [x] => element x
       | x :: rest => element x +:+ "," +:+ elements rest
       end) items
  | JObj _ => "[object Object]"
  end.

(** [`${v}`] for a value that may be [undefined]. *)
Definition shown (v : option json) : string :=
  match v with
  | Some v => display v
  | None => "undefined"
  end.

(** The template literal [text]; [page.decisions[0]] throws when the page
    has no [decisions]. *)
Definition pageText (page : json) : result string :=
  chapterName ← get_prop page "chapterName";
  content ← get_prop page "content";
  decisions ← get_prop page "decisions";
  a ← index decisions 0;
  b ← index decisions 1;
  c ← index decisions 2;
  d ← index decisions 3;
  Ok (shown chapterName +:+ newline +:+ shown content +:+ newline +:+ newline
      +:+ "Option A) " +:+ shown a +:+ newline +:+ newline
      +:+ "Option B) " +:+ shown b +:+ newline +:+ newline
      +:+ "Option C) " +:+ shown c +:+ newline +:+ newline
      +:+ "Option D) " +:+ shown d +:+ newline).

(** [{ ...templateData, decisions: page.decisions, chapterName:
    page.chapterName }] *)
Definition turnPage (page : json) (props : list (string * json))
  : result (list (string * option json)) :=
  decisions ← get_prop page "decisions";
  chapterName ← get_prop page "chapterName";
  Ok (set_prop "chapterName" chapterName
        (set_prop "decisions" decisions (prod_map id Some <$> props))).

(** The decision taken: the content of the first decision of the model's
    answer, or the first decision of the current page when the answer has no
    [decisions] with a length. *)
Definition decisionTaken (props : list (string * json)) (response : json)
  : result (option json) :=
  decisions ← get_prop response "decisions";
  if negb (truthy_opt (length_of decisions)) then index (assoc "decisions" props) 0
  else
    first ← index decisions 0;
    prop first "content".

(** The entry for the page that was current:
    [`${templateData.chapterName}; ${decision}`]. *)
Definition entryFor (props : list (string * json)) (decision : option json) : string :=
  shown (assoc "chapterName" props) +:+ "; " +:+ shown decision.

(** [templateData.previousPages.push(entry)] when there are previous pages,
    [templateData.previousPages = [entry]] otherwise: the properties of the
    template data afterwards. *)
Definition recordPage (td : json) (entry : string) : result (list (string * json)) :=
  let props := own td in
  let previousPages := assoc "previousPages" props in
  if truthy_opt previousPages then
    match previousPages with
    | Some (JArr pages) => Ok (set_prop "previousPages" (JArr (pages ++ [JStr entry])) props)
    | _ => Throw "TypeError: templateData.previousPages.push is not a function"
    end
  else if extensible td then Ok (set_prop "previousPages" (JArr [JStr entry]) props)
  else Throw "TypeError: Cannot create property 'previousPages'".

(** The generation of the page and what follows it; [refresh] carries the
    media when a persisted post is refreshed. *)
Definition writePage (refresh : option SmartMedia) (props : list (string * json))
  (usage : TemplateUsage) (tr : list Event) : option Response * list Event :=
  let state := pageState props in
  let tr := (tr ++ [EvNextPage state]) in
  match nextPage env state with
  | Throw _ => (None, tr)
  | Ok (page, pageUsage) =>
    let usage := BonsaiGarden.addUsage usage pageUsage in
    match pageText page with
    | Throw _ => (None, tr)
    | Ok text =>
      let response (metadata : option string) (uri : option string) :=
        match turnPage page props with
        | Throw _ => None
        | Ok updated =>
          Some (Generated {| text := text; metadata := metadata;
                             refreshMetadata := bool_decide (is_Some refresh);
                             updatedTemplateData := updated;
                             persistVersionUri := uri; totalUsage := usage |})
        end in
      match refresh with
      | Some media =>
        let tr := (tr ++ [EvPublish text]) in
        match publish env media text with
        | Throw _ => (None, tr)
        | Ok uri => (response (Some text) uri, tr)
        end
      | None => (response None None, tr)
      end
    end
  end.

(** The refresh of a persisted post whose template data is [td]. The
    staleness and engagement gate and the weighting of the comments are those
    of bonsaiGarden, statement for statement, with the same default
    threshold. *)
Definition refreshPage (media : SmartMedia) (td : json) (forceUpdate : bool) : Outcome :=
  match BonsaiGarden.commentsToEvaluate (lens env) media td forceUpdate with
  | Throw _ => {| returned := None; calls := []; written := None |}
  | Ok None => {| returned := Some (Skipped zeroUsage); calls := []; written := None |}
  | Ok (Some comments) =>
    match
      allCollectors ← BonsaiGarden.fetchAllCollectorsFor (lens env) (postId media);
      mapM (BonsaiGarden.weighComment (lens env) media allCollectors) comments
    with
    | Throw _ => {| returned := None; calls := []; written := None |}
    | Ok commentsWeighted =>
      let tr := [EvDecide (assoc "decisions" (own td)) commentsWeighted] in
      match decide env (assoc "decisions" (own td)) commentsWeighted with
      | Throw _ => {| returned := None; calls := tr; written := None |}
      | Ok (response, usage) =>
        let total := BonsaiGarden.addUsage zeroUsage usage in
        match decisionTaken (own td) response with
        | Throw _ => {| returned := None; calls := tr; written := None |}
        | Ok decision =>
          match recordPage td (entryFor (own td) decision) with
          | Throw _ => {| returned := None; calls := tr; written := None |}
          | Ok props =>
            let run := writePage (Some media) props total tr in
            {| returned := run.1; calls := run.2; written := Some props |}
          end
        end
      end
    end
  end.

(** [rpgGame.handler] *)
Definition handler (media : option SmartMedia) (_templateData : option json)
  (forceUpdate : bool) : Outcome :=
  let refresh := truthy_opt (media ≫= templateData) in
  match (if refresh then media ≫= templateData else _templateData) with
  | None => {| returned := None; calls := []; written := None |}
  | Some td =>
    if negb (truthy td) then {| returned := None; calls := []; written := None |}
    else
      match (if refresh then media else None) with
      | Some media => refreshPage media td forceUpdate
      | None =>
        let run := writePage None (own td) zeroUsage [] in
        {| returned := run.1; calls := run.2; written := None |}
      end
  end.

End Handler.

End RpgGame.
(** ** Notions of the specification *)

Module Spec.

(** The waits of a backoff that starts at [d] milliseconds and doubles:
    [d], [2d], [4d], ..., [n] of them. *)
Definition backoffDelays (d : Z) (n : nat) : list Z :=
  (λ i : nat, d * 2 ^ Z.of_nat i) <$> seq 0 n.

Definition total (l : list Z) : Z := foldr Z.add 0 l.

(** A base64 image as a data URI. *)
Definition isDataUri (u : string) : Prop := ∃ b, u = "data:image/png;base64," +:+ b.

(** The number [a] is the integer [z]. *)
Definition integral (a : number) (z : Z) : Prop :=
  ∃ q, a = Fin q ∧ QArith_base.Qeq q (QArith_base.inject_Z z).

(** Where the loop of [splitText] may stand with [fuel] iterations left and
    still end: [start] is never minus infinity, and a finite [start] is
    within [fuel] code units of the end of the content. *)
Definition withinReach (content : string) (fuel : nat) (start : number) : Prop :=
  match start with
  | Fin q => Z.of_nat (String.length content) - Qround.Qfloor q <= Z.of_nat fuel
  | NegInf => False
  | PosInf | NaN => True
  end.

(** The loop of [splitText] when the chunk size and the bleed are integers:
    every quantity of the loop is then an integer. *)
Fixpoint splitLoopZ (fuel : nat) (content : string) (chunkSize bleed start : Z)
  (chunks : list string) : option (list string) :=
  if start <? Z.of_nat (String.length content) then
    match fuel with
    | O => None
    | S fuel' =>
      let end_ := Z.min (start + chunkSize) (Z.of_nat (String.length content)) in
      let chunks :=
        if start <? end_ then chunks ++ [substring start end_ content] else chunks in
      splitLoopZ fuel' content chunkSize bleed (Z.max (end_ - bleed) (start + 1)) chunks
    end
  else Some chunks.

Definition splitTextZ (content : string) (chunkSize bleed : Z) : list string :=
  default [] (splitLoopZ (String.length content) content chunkSize bleed 0 []).

(** The chunks put end to end. *)
Definition joined (chunks : list string) : string := foldr String.append "" chunks.

(** The chunks with the overlap taken off all but the first. *)
Definition withoutOverlap (bleed : Z) (chunks : list string) : list string :=
  match chunks with
  | [] => []
  | first :: rest => first :: (string_drop (Z.to_nat bleed) <$> rest)
  end.

(** [chunk] occurs in [content]. *)
Definition occursIn (chunk content : string) : Prop :=
  ∃ before after, content = before +:+ chunk +:+ after.

(** The usage reported by the text calls of a trace that returned. *)
Definition textUsages (env : BonsaiGarden.HandlerEnv) (tr : list BonsaiGarden.Event)
  : list Generation.LanguageModelUsage :=
  omap (λ e, match e with
             | BonsaiGarden.EvGenerateText top k =>
               match BonsaiGarden.generateText env top k with
               | Ok (_, u) => Some u
               | Throw _ => None
               end
             | BonsaiGarden.EvGenerateImage _ _ => None
             end) tr.

(** The usage kept by the image loop is the usage of the calls recorded. *)
Definition usageMatchesTrace (env : BonsaiGarden.HandlerEnv) (st : BonsaiGarden.LoopState)
  : Prop :=
  imagesCreated (BonsaiGarden.loopUsage st)
  = Some (Z.of_nat (BonsaiGarden.imageCalls (BonsaiGarden.trace st)))
  ∧ (is_Some (BonsaiGarden.imageResponse st) →
     (1 ≤ BonsaiGarden.imageCalls (BonsaiGarden.trace st))%nat)
  ∧ promptTokens (BonsaiGarden.loopUsage st)
    = total (Generation.promptTokens <$> textUsages env (BonsaiGarden.trace st))
  ∧ completionTokens (BonsaiGarden.loopUsage st)
    = total (Generation.completionTokens <$> textUsages env (BonsaiGarden.trace st))
  ∧ totalTokens (BonsaiGarden.loopUsage st)
    = total (Generation.totalTokens <$> textUsages env (BonsaiGarden.trace st)).

(** The stores are keyed by the post they hold: [cachePost] writes under
    [post/<data.postId>] and [findOne({ postId })] matches the field. *)
Definition wellKeyed (st : ClientService.State) : Prop :=
  (∀ k d, ClientService.redis_posts st !! k = Some d → postId d = k)
  ∧ (∀ k d, ClientService.mongo_media st !! k = Some d → postId d = k).

(** [st'] differs from [st] in what is stored for [postId] and in the
    events added to the log, and in nothing else; no document is created or
    removed. *)
Definition touchesOnly (postId : string) (st st' : ClientService.State) : Prop :=
  ClientService.templates st' = ClientService.templates st
  ∧ ClientService.redis_counters st' = ClientService.redis_counters st
  ∧ ClientService.tasks st' = ClientService.tasks st
  ∧ dom (ClientService.mongo_media st') = dom (ClientService.mongo_media st)
  ∧ (∀ k, k ≠ postId →
       ClientService.redis_posts st' !! k = ClientService.redis_posts st !! k
       ∧ ClientService.mongo_media st' !! k = ClientService.mongo_media st !! k)
  ∧ ClientService.log st `prefix_of` ClientService.log st'.

(** The debits of a log, in order. *)
Definition debitsOf (l : list ClientService.Event) : list ClientService.Event :=
  filter (λ e, ClientService.isDebit e = true) l.

(** [n] preview requests in a row by one creator, as far as credits go. *)
Definition previewRequests (cfg : ClientService.Config) (templateName : TemplateName)
  (creator : string) (totalUsage : option TemplateUsage) (defaultModel : option string)
  (n : nat) (st : ClientService.State) : ClientService.State :=
  Nat.iter n
    (ClientService.handlePreviewCredits cfg templateName creator totalUsage defaultModel) st.

End Spec.

(** ** Concrete inputs *)

Module Examples.

(** A tokenizer with one token per character, its code; it knows one model. *)
Definition charEncoding : Generation.Encoding :=
  {| Generation.encode := λ s,
       Ok ((λ c, Z.of_N (Ascii.N_of_ascii c)) <$> String.list_ascii_of_string s);
     Generation.decode := λ ts,
       Ok (String.string_of_list_ascii ((λ t, Ascii.ascii_of_N (Z.to_N t)) <$> ts)) |}.

Definition charEncodingForModel (model : string) : result Generation.Encoding :=
  if String.eqb model "gpt-4o" then Ok charEncoding else Throw "Unknown model".

(** A runtime without tokenizer settings. *)
Definition bareRuntime : Generation.IAgentRuntime :=
  {| Generation.getSetting := λ _, None |}.

(** A runtime configured for the tiktoken tokenizer of "gpt-4", and a
    js-tiktoken that knows no other model. *)
Definition tunedRuntime : Generation.IAgentRuntime :=
  {| Generation.getSetting := λ key,
       if String.eqb key "TOKENIZER_MODEL" then Some "gpt-4"
       else if String.eqb key "TOKENIZER_TYPE" then Some "tiktoken"
       else None |}.

Definition gpt4Only (model : string) : result Generation.Encoding :=
  if String.eqb model "gpt-4" then Ok charEncoding else Throw "Unknown model".

(** A provider whose first two answers are not JSON and whose third is. *)
Definition usage0 : Generation.LanguageModelUsage :=
  {| Generation.promptTokens := 12; Generation.completionTokens := 7;
     Generation.totalTokens := 19 |}.

Definition thirdTimeLucky (k : nat) : result (string * Generation.LanguageModelUsage) :=
  match k with
  | 0%nat => Ok ("I think the answer is", usage0)
  | 1%nat => Ok ("{ decisions: ", usage0)
  | _ => Ok ("{ decisions: [] }", usage0)
  end.

Definition decisionsObject : json := JObj [("decisions", JArr [])].

Definition parseDecisions (text : string) : result (option json) :=
  if String.eqb text "{ decisions: [] }" then Ok (Some decisionsObject) else Ok None.

Definition decisionRequest : Generation.ObjectRequest :=
  {| Generation.context := "# Decisions"; Generation.modelProvider := Some "openai";
     Generation.returnUsage := true; Generation.messages := None |}.

(** A provider answer with one image, and the surroundings of a call that
    receives it. *)
Definition oneImage : json := JObj [("images", JArr [JStr "iVBORw0KGgo"])].

Definition veniceEnv : Generation.ImageEnv :=
  {| Generation.getImageModelSettings := Some "fluently-xl";
     Generation.VENICE_API_KEY := Some "key";
     Generation.fetch_is_function := true;
     Generation.fetch := λ _ _, Generation.FetchResponds 200 (Ok oneImage) |}.

(** The provider answers the request made with the key "key" and rejects
    any other. *)
Definition keyedEnv (key : string) : Generation.ImageEnv :=
  {| Generation.getImageModelSettings := Some "fluently-xl";
     Generation.VENICE_API_KEY := Some key;
     Generation.fetch_is_function := true;
     Generation.fetch := λ apiKey _,
       if String.eqb apiKey "key" then Generation.FetchResponds 200 (Ok oneImage)
       else Generation.FetchRejects "401 Unauthorized" |}.

Definition heroRequest : Generation.ImageRequest :=
  {| Generation.prompt := "a brave hero"; Generation.width := 1024;
     Generation.height := 1024; Generation.modelId := Some "venice-sd35";
     Generation.stylePreset := None; Generation.inpaint := None |}.

(** A post without a token, two comments on it, and a run of the handler in
    which the image provider fails every time. *)
Definition heroPost : SmartMedia :=
  {| agentId := "a-1"; creator := "0xc0ffee"; template := "bonsai_garden";
     category := "bonsai_garden"; createdAt := 1000; updatedAt := 1000;
     templateData := Some (JObj [("personality", JStr "brave"); ("action", JStr "resting")]);
     postId := "post-1"; maxStaleTime := 3600; uri := "lens://post-1";
     token := None; versions := None; versionCount := Some 3; canvas := None;
     status := Some ACTIVE |}.

Definition commentA : BonsaiGarden.Post :=
  {| BonsaiGarden.id := "c1"; BonsaiGarden.author := "0xa";
     BonsaiGarden.content := "cunning | sneaking" |}.

Definition commentB : BonsaiGarden.Post :=
  {| BonsaiGarden.id := "c2"; BonsaiGarden.author := "0xz";
     BonsaiGarden.content := "kind | gardening" |}.

Definition failedImage : Generation.ImageResult :=
  {| Generation.success := false; Generation.data := None;
     Generation.error := Some "Invalid response format from Venice AI" |}.

Definition gardenEnv : BonsaiGarden.HandlerEnv :=
  {| BonsaiGarden.isMediaStale := λ _, true;
     BonsaiGarden.fetchAllCommentsFor := λ _, Ok [commentA; commentB];
     BonsaiGarden.getLatestComments := λ _ comments, comments;
     BonsaiGarden.uniqKey := λ c, Some (BonsaiGarden.author c);
     BonsaiGarden.fetchAllCollectorsFor := λ _, Ok ["0xa"; "0xb"; "0xc"];
     BonsaiGarden.fetchAllUpvotersFor := λ commentId,
       if String.eqb commentId "c1" then Ok ["0xb"; "0xb"; "0xz"] else Ok ["0xz"];
     BonsaiGarden.balanceOfBatched := λ _ voters _, Ok ((λ _, 5) <$> voters);
     BonsaiGarden.getVoteWeightFromBalance := λ b, if 0 <? b then 1 else 0;
     BonsaiGarden.resolveCurrentImage := λ _, Ok "https://storage/post-1.png";
     BonsaiGarden.generateText := λ _ _, Ok ("a cunning hero, sneaking", usage0);
     BonsaiGarden.generateImage := λ _ _, failedImage;
     BonsaiGarden.persistImage := λ _ _, Ok (Some "storj://post-1-version-3.json") |}.

(** A service with one registered template and one persisted post. *)
Definition cfg : ClientService.Config :=
  {| ClientService.DEFAULT_FREEZE_TIME := 259200;
     ClientService.FREE_GENERATIONS_PER_HOUR := 5;
     ClientService.PREMIUM_TEMPLATES := ["adventure_time_video"];
     ClientService.DEFAULT_MODEL_ID := "gpt-4o-mini" |}.

Definition gardenTemplate : ClientService.Template :=
  {| ClientService.name := "bonsai_garden"; ClientService.defaultModel := None |}.

Definition storeOf (doc : SmartMedia) : ClientService.State :=
  {| ClientService.redis_posts := ∅;
     ClientService.redis_counters := ∅;
     ClientService.mongo_media := {[ postId doc := doc ]};
     ClientService.tasks := ∅;
     ClientService.templates := {[ "bonsai_garden" := gardenTemplate ]};
     ClientService.log := [] |}.

Definition previewUsage : TemplateUsage :=
  {| promptTokens := 120; completionTokens := 30; totalTokens := 150;
     imagesCreated := Some 1; videosCreated := None; videoCostParams := None;
     audioCharacters := None; customTokens := None |}.

(** The post of above after a failed refresh, and after a freeze. *)
Definition failedPost : SmartMedia := ClientService.set_status (Some FAILED) heroPost.

(** A run of the handler on a post that is not stale: the no-op response. *)
Definition quietEnv : BonsaiGarden.HandlerEnv :=
  {| BonsaiGarden.isMediaStale := λ _, false;
     BonsaiGarden.fetchAllCommentsFor := λ _, Ok [];
     BonsaiGarden.getLatestComments := λ _ comments, comments;
     BonsaiGarden.uniqKey := λ c, Some (BonsaiGarden.author c);
     BonsaiGarden.fetchAllCollectorsFor := λ _, Ok [];
     BonsaiGarden.fetchAllUpvotersFor := λ _, Ok [];
     BonsaiGarden.balanceOfBatched := λ _ voters _, Ok ((λ _, 0) <$> voters);
     BonsaiGarden.getVoteWeightFromBalance := λ _, 0;
     BonsaiGarden.resolveCurrentImage := λ _, Ok "https://storage/post-1.png";
     BonsaiGarden.generateText := λ _ _, Ok ("a hero", usage0);
     BonsaiGarden.generateImage := λ _ _, failedImage;
     BonsaiGarden.persistImage := λ _ _, Ok None |}.

(** A run in which the image is generated at the first attempt; [versionUri]
    is what caching the previous version on storj gave ([None] when it
    failed). *)
Definition goodImage : Generation.ImageResult :=
  {| Generation.success := true;
     Generation.data := Some ["data:image/png;base64,iVBORw0KGgo"];
     Generation.error := None |}.

Definition growingEnv (versionUri : option string) : BonsaiGarden.HandlerEnv :=
  {| BonsaiGarden.isMediaStale := λ _, true;
     BonsaiGarden.fetchAllCommentsFor := λ _, Ok [commentA; commentB];
     BonsaiGarden.getLatestComments := λ _ comments, comments;
     BonsaiGarden.uniqKey := λ c, Some (BonsaiGarden.author c);
     BonsaiGarden.fetchAllCollectorsFor := λ _, Ok ["0xa"; "0xb"; "0xc"];
     BonsaiGarden.fetchAllUpvotersFor := λ _, Ok ["0xb"];
     BonsaiGarden.balanceOfBatched := λ _ voters _, Ok ((λ _, 5) <$> voters);
     BonsaiGarden.getVoteWeightFromBalance := λ b, if 0 <? b then 1 else 0;
     BonsaiGarden.resolveCurrentImage := λ _, Ok "https://storage/post-1.png";
     BonsaiGarden.generateText := λ _ _, Ok ("a cunning hero, sneaking", usage0);
     BonsaiGarden.generateImage := λ _ _, goodImage;
     BonsaiGarden.persistImage := λ _ _, Ok versionUri |}.

(** A run in which the image provider fails once and then answers. *)
Definition secondTryEnv : BonsaiGarden.HandlerEnv :=
  {| BonsaiGarden.isMediaStale := λ _, false;
     BonsaiGarden.fetchAllCommentsFor := λ _, Ok [commentA; commentB];
     BonsaiGarden.getLatestComments := λ _ comments, comments;
     BonsaiGarden.uniqKey := λ c, Some (BonsaiGarden.author c);
     BonsaiGarden.fetchAllCollectorsFor := λ _, Ok ["0xa"; "0xb"; "0xc"];
     BonsaiGarden.fetchAllUpvotersFor := λ _, Ok ["0xb"];
     BonsaiGarden.balanceOfBatched := λ _ voters _, Ok ((λ _, 5) <$> voters);
     BonsaiGarden.getVoteWeightFromBalance := λ b, if 0 <? b then 1 else 0;
     BonsaiGarden.resolveCurrentImage := λ _, Ok "https://storage/post-1.png";
     BonsaiGarden.generateText := λ _ _, Ok ("a cunning hero, sneaking", usage0);
     BonsaiGarden.generateImage := λ _ attempt,
       if attempt =? 0 then failedImage else goodImage;
     BonsaiGarden.persistImage := λ _ _, Ok None |}.

(** What a job of the service meets: the clock, the Lens client, the credit
    ledger, and the registered handler run in some surroundings. *)
Definition serviceEnv (clock : Z) (garden : BonsaiGarden.HandlerEnv) : ClientService.Env :=
  {| ClientService.now := clock;
     ClientService.nowAtCache := clock + 20;
     ClientService.isDeleted := λ _, false;
     ClientService.canUpdate := λ _ _, true;
     ClientService.runHandler := λ _ media forceUpdate,
       Ok (BonsaiGarden.handler garden 2 media forceUpdate).1;
     ClientService.refreshMetadataStatus := λ _, "FINISHED" |}.

(** The same, with a refresh job that reports [FAILED]. *)
Definition refreshFailingEnv (clock : Z) (garden : BonsaiGarden.HandlerEnv)
  : ClientService.Env :=
  {| ClientService.now := clock;
     ClientService.nowAtCache := clock + 20;
     ClientService.isDeleted := λ _, false;
     ClientService.canUpdate := λ _ _, true;
     ClientService.runHandler := λ _ media forceUpdate,
       Ok (BonsaiGarden.handler garden 2 media forceUpdate).1;
     ClientService.refreshMetadataStatus := λ _, "FAILED" |}.

(** A job that finds its post deleted on Lens; the creator is out of
    credits and the handler would throw. *)
Definition deletedEnv (clock : Z) : ClientService.Env :=
  {| ClientService.now := clock;
     ClientService.nowAtCache := clock + 20;
     ClientService.isDeleted := λ _, true;
     ClientService.canUpdate := λ _ _, false;
     ClientService.runHandler := λ _ _ _, Throw "handler called";
     ClientService.refreshMetadataStatus := λ _, "FINISHED" |}.

(** A second post, of another creator. *)
Definition otherPost : SmartMedia :=
  {| agentId := "a-2"; creator := "0xbeef"; template := "bonsai_garden";
     category := "bonsai_garden"; createdAt := 2000; updatedAt := 2000;
     templateData := Some (JObj [("personality", JStr "shy"); ("action", JStr "hiding")]);
     postId := "post-2"; maxStaleTime := 3600; uri := "lens://post-2";
     token := None; versions := None; versionCount := Some 1; canvas := None;
     status := None |}.

(** The routes that create a post, with the handler of bonsaiGarden
    registered; [formatSmartMedia] draws its agent id from the creator. *)
Definition previewEnv : ClientRoutes.RouteEnv :=
  {| ClientRoutes.canAfford := λ _ _, false;
     ClientRoutes.previewHandler := λ _ _,
       Ok (BonsaiGarden.handler gardenEnv 2 None false).1;
     ClientRoutes.formatSmartMedia := λ creator category templateName templateData
                                        postId uri token,
       {| agentId := "agent-" +:+ creator; creator := creator; template := templateName;
          category := match category with Some (JStr c) => c | _ => "" end;
          createdAt := 4000; updatedAt := 4000; templateData := templateData;
          postId := default "" postId; maxStaleTime := 3600; uri := default "" uri;
          token := token; versions := None; versionCount := Some 0; canvas := None;
          status := None |} |}.

Definition emptyService : ClientRoutes.Service :=
  {| ClientRoutes.store :=
       {| ClientService.redis_posts := ∅; ClientService.redis_counters := ∅;
          ClientService.mongo_media := ∅; ClientService.tasks := ∅;
          ClientService.templates := {[ "bonsai_garden" := gardenTemplate ]};
          ClientService.log := [] |};
     ClientRoutes.cache := ∅ |}.

Definition previewRequest : ClientRoutes.PreviewRequest :=
  {| ClientRoutes.pr_data :=
       Some (Ok (JObj [("templateData",
                        JObj [("personality", JStr "brave"); ("action", JStr "resting")]);
                       ("category", JStr "bonsai_garden");
                       ("templateName", JStr "bonsai_garden")]));
     ClientRoutes.pr_file := None |}.

Definition heroPreview : SmartMedia :=
  ClientRoutes.formatSmartMedia previewEnv "0xc0ffee" (Some (JStr "bonsai_garden"))
    "bonsai_garden"
    (Some (JObj [("personality", JStr "brave"); ("action", JStr "resting")]))
    None None None.

Definition createRequest : ClientRoutes.CreateRequest :=
  {| ClientRoutes.cr_agentId := Some "agent-0xc0ffee";
     ClientRoutes.cr_params := None;
     ClientRoutes.cr_postId := Some "post-9";
     ClientRoutes.cr_uri := Some "lens://post-9";
     ClientRoutes.cr_token := None |}.

(** An adventure with one page behind it, and a run of the rpgGame handler
    in which the model picks the second decision of the page. *)
Definition dungeon : json :=
  JObj [("context", JStr "A party enters a dungeon");
        ("writingStyle", JStr "Gritty");
        ("characterPersonalities", JStr "The wizard is sarcastic");
        ("chapterName", JStr "The Gate");
        ("decisions", JArr [JStr "Knock"; JStr "Climb"; JStr "Wait"; JStr "Leave"]);
        ("previousPages", JArr [JStr "The Road; Walk on"])].

Definition hallPage : json :=
  JObj [("chapterName", JStr "The Hall");
        ("content", JStr "Torches flare.");
        ("decisions", JArr [JStr "Fight"; JStr "Hide"; JStr "Talk"; JStr "Run"])].

Definition climbFirst : json :=
  JObj [("decisions",
         JArr [JObj [("content", JStr "Climb"); ("totalVotes", JNum 3)];
               JObj [("content", JStr "Knock"); ("totalVotes", JNum 1)]])].

Definition rpgEnv : RpgGame.HandlerEnv :=
  {| RpgGame.lens := gardenEnv;
     RpgGame.decide := λ _ _, Ok (climbFirst, usage0);
     RpgGame.nextPage := λ _, Ok (hallPage, usage0);
     RpgGame.publish := λ _ _, Ok (Some "storj://post-1-version-3.json");
     RpgGame.numberToString := pretty |}.

(** The same run with a model that returns no decision. *)
Definition undecidedEnv : RpgGame.HandlerEnv :=
  {| RpgGame.lens := gardenEnv;
     RpgGame.decide := λ _ _, Ok (JObj [("decisions", JArr [])], usage0);
     RpgGame.nextPage := λ _, Ok (hallPage, usage0);
     RpgGame.publish := λ _ _, Ok (Some "storj://post-1-version-3.json");
     RpgGame.numberToString := pretty |}.

(** A model whose page has a chapter name and a content, and no decisions. *)
Definition dullEnv : RpgGame.HandlerEnv :=
  {| RpgGame.lens := gardenEnv;
     RpgGame.decide := λ _ _, Ok (climbFirst, usage0);
     RpgGame.nextPage :=
       λ _, Ok (JObj [("chapterName", JStr "The Hall"); ("content", JStr "Torches flare.")],
                usage0);
     RpgGame.publish := λ _ _, Ok (Some "storj://post-1-version-3.json");
     RpgGame.numberToString := pretty |}.

Definition dungeonMedia : SmartMedia :=
  ClientService.set_templateData (Some dungeon) heroPost.

(** A post with twelve versions behind it that failed after it was cached:
    the document says [FAILED], the cached copy has neither status nor
    versions. *)
Definition twelveVersions : list string :=
  ["v1"; "v2"; "v3"; "v4"; "v5"; "v6"; "v7"; "v8"; "v9"; "v10"; "v11"; "v12"].

Definition cachedHero : SmartMedia :=
  ClientService.set_status None (ClientService.set_updatedAt 5020 heroPost).

Definition staleCacheStore : ClientService.State :=
  ClientService.cachePost cachedHero
    (storeOf (ClientService.set_versions (Some twelveVersions) failedPost)).

(** A model that first answers with something the parsers make nothing of,
    then fails, then answers "RESPOND"; a verdict parser that reads the first
    answer as an empty verdict, and an actions parser. *)
Definition verdictModel (k : nat) : result string :=
  match k with
  | 0%nat => Ok "hmm"
  | 1%nat => Throw "rate limited"
  | _ => Ok "RESPOND"
  end.

Definition parseVerdict (s : string) : result (option string) :=
  if String.eqb s "RESPOND" then Ok (Some "RESPOND")
  else if String.eqb s "hmm" then Ok (Some "")
  else Ok None.

Definition parseActions (s : string) : result (option json) :=
  if String.eqb s "RESPOND" then Ok (Some (JObj [("like", JBool true)]))
  else Ok None.

(** A model that answers a yes/no question with chatter, then again, then
    with "no". *)
Definition hesitantModel (k : nat) : result string :=
  match k with
  | 0%nat => Ok "Let me think about it"
  | 1%nat => Throw "rate limited"
  | _ => Ok " no "
  end.

Definition trimSpaces (s : string) : string :=
  if String.eqb s " no " then "no" else s.

Definition parseYesNo (s : string) : result (option bool) :=
  if String.eqb s "yes" then Ok (Some true)
  else if String.eqb s "no" then Ok (Some false)
  else Ok None.

(** A model whose answers are never JSON, and one that is never reached. *)
Definition chattyModel (context : string) (k : nat)
  : result (string * Generation.LanguageModelUsage) :=
  Ok ("Sure, here is my answer", usage0).

Definition downModel (context : string) (k : nat)
  : result (string * Generation.LanguageModelUsage) :=
  Throw "ECONNREFUSED".

End Examples.

(** * Properties *)

(** ** JavaScript helpers *)

Section JsFacts.

Lemma truthy_string_true (s : string) : truthy_string s = true ↔ s ≠ "".
Proof.
  unfold truthy_string. destruct (String.eqb_spec s ""); simpl; split; congruence.
Qed.

Lemma truthy_string_false (s : string) : truthy_string s = false ↔ s = "".
Proof.
  unfold truthy_string. destruct (String.eqb_spec s ""); simpl; split; congruence.
Qed.

(** Slicing from a negative index keeps a suffix of the requested length,
    or everything when the receiver is shorter. *)
Lemma array_slice_suffix {A} (k : Z) (l : list A) :
  0 < k →
  ∃ dropped, l = (dropped ++ array_slice (- k) l)
             ∧ Z.of_nat (length (array_slice (- k) l)) = Z.min k (Z.of_nat (length l)).
Proof.
  intros Hk. unfold array_slice, slice_start.
  destruct (Z.ltb_spec (- k) 0) as [_ | ?]; [| lia].
  set (n := Z.to_nat (Z.max (Z.of_nat (length l) + - k) 0)).
  exists (take n l). split.
  - symmetry. apply take_drop.
  - rewrite length_drop. subst n. lia.
Qed.

Lemma string_drop_suffix (n : nat) (s : string) :
  ∃ dropped, s = dropped +:+ string_drop n s
             ∧ String.length (string_drop n s) = (String.length s - n)%nat.
Proof.
  revert s. induction n as [| n IH]; intros s.
  - exists "". simpl. split; [done | lia].
  - destruct s as [| c s]; simpl.
    + exists "". done.
    + destruct (IH s) as (d & Hd & Hlen).
      exists (String c d). split; [exact (f_equal (String c) Hd) | done].
Qed.

Lemma string_slice_suffix (k : Z) (s : string) :
  0 < k →
  ∃ dropped, s = dropped +:+ string_slice (- k) s
             ∧ Z.of_nat (String.length (string_slice (- k) s))
               = Z.min k (Z.of_nat (String.length s)).
Proof.
  intros Hk. unfold string_slice, slice_start.
  destruct (Z.ltb_spec (- k) 0) as [_ | ?]; [| lia].
  destruct (string_drop_suffix
              (Z.to_nat (Z.max (Z.of_nat (String.length s) + - k) 0)) s)
    as (d & Hd & Hlen).
  exists d. split; [done |]. rewrite Hlen. lia.
Qed.

End JsFacts.

(** ** Context trimming *)

Section TrimFacts.

Import Generation.

Variable encodingForModel : string → result Encoding.
Variable TikToken : string.

Lemma trimTokens_empty (maxTokens : Z) (runtime : IAgentRuntime) :
  trimTokens encodingForModel TikToken "" maxTokens runtime = Ok "".
Proof. reflexivity. Qed.

(** A limit that is not positive is refused before any tokenization. *)
Lemma trimTokens_nonpositive (context : string) (maxTokens : Z) (runtime : IAgentRuntime) :
  context ≠ "" → maxTokens <= 0 →
  trimTokens encodingForModel TikToken context maxTokens runtime
  = Throw "maxTokens must be positive".
Proof.
  intros Hc Hm. unfold trimTokens.
  apply truthy_string_true in Hc. rewrite Hc. simpl.
  destruct (Z.leb_spec maxTokens 0); [done | lia].
Qed.

Lemma trimTokens_positive (context : string) (maxTokens : Z) (runtime : IAgentRuntime) :
  context ≠ "" → 0 < maxTokens →
  trimTokens encodingForModel TikToken context maxTokens runtime
  = Ok (truncateTiktoken encodingForModel (tokenizerFor TikToken runtime) context maxTokens).
Proof.
  intros Hc Hm. unfold trimTokens.
  apply truthy_string_true in Hc. rewrite Hc. simpl.
  destruct (Z.leb_spec maxTokens 0); [lia | done].
Qed.

End TrimFacts.

(** C9, as stated, fails for a limit that is not positive: "hello" has
    five tokens, more than the limit 0, and [trimTokens] throws where the
    claim has it return the decoding of the last 0 tokens. *)
Lemma trimTokens_rejects_zero_limit :
  Generation.encode Examples.charEncoding "hello" = Ok [104; 101; 108; 108; 111]
  ∧ Generation.trimTokens Examples.charEncodingForModel "tiktoken" "hello" 0
      Examples.bareRuntime
    = Throw "maxTokens must be positive".
Proof. split; reflexivity. Qed.

(** C9, amended. [trimTokens] returns an empty context as it is and refuses
    a limit that is not positive for any other context. With a positive limit
    it works under the tokenizer model of the runtime settings
    ([TOKENIZER_MODEL] when it is set and [TOKENIZER_TYPE] is the tiktoken
    type, "gpt-4o" otherwise): a context with more tokens than the limit
    comes back as the decoding of its last [maxTokens] tokens, the leading
    ones dropped; a context within the limit comes back unchanged; and when
    tokenization throws (no encoding for the model, or encoding or decoding
    fails), the result is the last [maxTokens * 4] characters of the context
    (all of it when it is shorter). *)
Theorem trimTokens_keeps_recent_tokens
  (encodingForModel : string → result Generation.Encoding) (TikToken : string)
  (runtime : Generation.IAgentRuntime) (context : string) (maxTokens : Z) :
  let trimmed := Generation.trimTokens encodingForModel TikToken context maxTokens runtime in
  let tokenizerModel := Generation.getSetting runtime "TOKENIZER_MODEL" in
  let tokenizerType := Generation.getSetting runtime "TOKENIZER_TYPE" in
  (context = "" → trimmed = Ok "")
  ∧ (context ≠ "" → maxTokens <= 0 → trimmed = Throw "maxTokens must be positive")
  ∧ (context ≠ "" → 0 < maxTokens →
     ∀ model,
       (tokenizerModel = Some model ∧ model ≠ ""
        ∧ tokenizerType = Some TikToken ∧ TikToken ≠ "")
       ∨ (model = "gpt-4o"
          ∧ (tokenizerModel = None ∨ tokenizerModel = Some ""
             ∨ tokenizerType = None ∨ tokenizerType = Some ""
             ∨ tokenizerType ≠ Some TikToken)) →
       (∀ enc tokens,
          encodingForModel model = Ok enc →
          Generation.encode enc context = Ok tokens →
          (maxTokens < Z.of_nat (length tokens) →
           ∃ dropped kept,
             tokens = dropped ++ kept ∧ Z.of_nat (length kept) = maxTokens ∧
             ∀ text, Generation.decode enc kept = Ok text → trimmed = Ok text)
          ∧ (Z.of_nat (length tokens) <= maxTokens → trimmed = Ok context))
       ∧ ((∃ e, encodingForModel model = Throw e)
          ∨ (∃ enc e, encodingForModel model = Ok enc
                      ∧ Generation.encode enc context = Throw e)
          ∨ (∃ enc tokens e,
               encodingForModel model = Ok enc ∧ Generation.encode enc context = Ok tokens
               ∧ maxTokens < Z.of_nat (length tokens)
               ∧ Generation.decode enc (array_slice (- maxTokens) tokens) = Throw e) →
          ∃ dropped text,
            trimmed = Ok text ∧ context = dropped +:+ text ∧
            Z.of_nat (String.length text)
            = Z.min (maxTokens * 4) (Z.of_nat (String.length context)))).
Proof.
  cbv zeta. split; [intros ->; apply trimTokens_empty |].
  split; [apply trimTokens_nonpositive |].
  intros Hne Hpos model Hmodel.
  rewrite trimTokens_positive by done.
  assert (Generation.tokenizerFor TikToken runtime = model) as ->.
  { unfold Generation.tokenizerFor.
    destruct Hmodel as [(-> & Hm & -> & Ht) | (-> & Hdefault)].
    - apply truthy_string_true in Hm, Ht. simpl. rewrite Hm, Ht. simpl.
      by rewrite bool_decide_eq_true_2.
    - destruct (Generation.getSetting runtime "TOKENIZER_MODEL") as [m |] eqn:Hm;
        [| done].
      destruct (Generation.getSetting runtime "TOKENIZER_TYPE") as [t |] eqn:Ht;
        [| simpl; by rewrite orb_true_r].
      simpl. destruct (truthy_string m) eqn:Htm; [| done].
      destruct (truthy_string t) eqn:Htt; [| done]. simpl.
      apply truthy_string_true in Htm, Htt.
      destruct Hdefault as [? | [[= ?] | [? | [[= ?] | Hother]]]]; try done.
      by rewrite bool_decide_eq_false_2. }
  unfold Generation.truncateTiktoken. split.
  - intros enc tokens Henc Htok. rewrite Henc. simpl. rewrite Htok. simpl.
    split.
    + intros Hlong.
      destruct (Z.leb_spec (Z.of_nat (length tokens)) maxTokens) as [? | _]; [lia |].
      destruct (array_slice_suffix maxTokens tokens Hpos) as (dropped & Hsplit & Hlen).
      exists dropped, (array_slice (- maxTokens) tokens).
      split; [done |]. split; [lia |].
      intros text Hdec. by rewrite Hdec.
    + intros Hshort.
      destruct (Z.leb_spec (Z.of_nat (length tokens)) maxTokens) as [_ | ?]; [done | lia].
  - intros Hthrow.
    assert (0 < maxTokens * 4) as Hpos4 by lia.
    destruct (string_slice_suffix (maxTokens * 4) context Hpos4) as (dropped & Hsplit & Hlen).
    replace (- (maxTokens * 4)) with (- maxTokens * 4) in * by lia.
    exists dropped, (string_slice (- maxTokens * 4) context).
    split; [| done].
    destruct Hthrow as [[e He] | [(enc & e & Henc & He)
                                 | (enc & tokens & e & Henc & Htok & Hlong & He)]].
    + by rewrite He.
    + rewrite Henc. simpl. by rewrite He.
    + rewrite Henc. simpl. rewrite Htok. simpl.
      destruct (Z.leb_spec (Z.of_nat (length tokens)) maxTokens) as [? | _]; [lia |].
      by rewrite He.
Qed.

(** Under the configured tokenizer, the only one this js-tiktoken knows, the
    last two of the five tokens of "hello" decode to "lo"; without settings
    the model is "gpt-4o", for which there is no encoding, and the last eight
    characters are kept: all five. *)
Lemma trimTokens_keeps_recent_tokens_witness :
  Generation.trimTokens Examples.gpt4Only "tiktoken" "hello" 2 Examples.tunedRuntime
  = Ok "lo"
  ∧ Generation.trimTokens Examples.gpt4Only "tiktoken" "hello" 2 Examples.bareRuntime
    = Ok "hello".
Proof.
  split.
  - destruct (trimTokens_keeps_recent_tokens Examples.gpt4Only "tiktoken"
                Examples.tunedRuntime "hello" 2) as (_ & _ & Hpositive).
    destruct (Hpositive ltac:(discriminate) ltac:(lia) "gpt-4") as [Htok _].
    { left. split_and!; [reflexivity | discriminate | reflexivity | discriminate]. }
    destruct (Htok Examples.charEncoding [104; 101; 108; 108; 111] eq_refl eq_refl)
      as [Hlong _].
    destruct (Hlong ltac:(simpl; lia)) as (dropped & kept & Hsplit & Hlen & Hdecode).
    apply Hdecode.
    assert (length dropped = 3%nat) as Hd.
    { apply (f_equal length) in Hsplit. rewrite length_app in Hsplit. simpl in Hsplit. lia. }
    destruct dropped as [| ? [| ? [| ? [| ? ?]]]]; try discriminate Hd.
    simpl in Hsplit. injection Hsplit as _ _ _ <-. reflexivity.
  - reflexivity.
Defined.

(** ** Structured generation: retry with doubling delay *)

Section RetryFacts.

Import Generation.

Variable generateText : nat → result (string * LanguageModelUsage).
Variable parseJSONObjectFromText : string → result (option json).
Variable VENICE : string.
Variable stripThink : string → string.

#[local] Abbreviation attempt := (attempt generateText parseJSONObjectFromText VENICE stripThink).
#[local] Abbreviation attemptFails := (attemptFails generateText parseJSONObjectFromText VENICE stripThink).
#[local] Abbreviation retryLoop := (retryLoop generateText parseJSONObjectFromText VENICE stripThink).

(** The two kinds of failure the loop retries on. *)
Lemma provider_error_fails (req : ObjectRequest) (k : nat) (e : string) :
  generateText k = Throw e → attemptFails req k.
Proof.
  intros H. unfold Generation.attemptFails, Generation.attempt. by rewrite H.
Qed.

Lemma failed_parse_fails (req : ObjectRequest) (k : nat) (text : string)
  (u : LanguageModelUsage) :
  generateText k = Ok (text, u) →
  parseJSONObjectFromText
    (if bool_decide (modelProvider req = Some VENICE) then stripThink text else text)
  = Ok None →
  attemptFails req k.
Proof.
  intros H Hparse. unfold Generation.attemptFails, Generation.attempt.
  rewrite H. simpl. by rewrite Hparse.
Qed.

Lemma backoffDelays_S (d : Z) (n : nat) :
  Spec.backoffDelays d (S n) = d :: Spec.backoffDelays (d * 2) n.
Proof.
  unfold Spec.backoffDelays. simpl. f_equal; [lia |].
  rewrite <- fmap_S_seq, <- list_fmap_compose.
  apply list_fmap_ext. intros _ i _. simpl.
  rewrite Nat2Z.inj_succ, Z.pow_succ_r by lia. lia.
Qed.

Lemma total_backoffDelays (d : Z) (n : nat) :
  Spec.total (Spec.backoffDelays d n) = d * (2 ^ Z.of_nat n - 1).
Proof.
  revert d. induction n as [| n IH]; intros d.
  - simpl. lia.
  - rewrite backoffDelays_S. unfold Spec.total in *. simpl. rewrite IH.
    rewrite Nat2Z.inj_succ, Z.pow_succ_r by lia. lia.
Qed.

(** As long as attempts fail the loop goes on, waiting the current delay and
    doubling it. *)
Lemma retryLoop_pending (req : ObjectRequest) (n k : nat) (d : Z) (waits : list Z) :
  (∀ j, (k ≤ j < k + n)%nat → attemptFails req j) →
  retryLoop req n k d waits
  = Pending (k + n) (d * 2 ^ Z.of_nat n) (waits ++ Spec.backoffDelays d n).
Proof.
  revert k d waits. induction n as [| n IH]; intros k d waits Hfail.
  - simpl. rewrite Nat.add_0_r, Z.mul_1_r, app_nil_r. done.
  - simpl. rewrite (Hfail k) by lia.
    rewrite IH by (intros j Hj; apply Hfail; lia).
    rewrite backoffDelays_S, <- app_assoc. simpl.
    f_equal; [lia |].
    rewrite Nat2Z.inj_succ, Z.pow_succ_r by lia. lia.
Qed.

(** The first attempt that passes the parse check ends the loop, whatever
    fuel is left. *)
Lemma retryLoop_finished (req : ObjectRequest) (n fuel k : nat) (d : Z) (waits : list Z)
  (g : Generated) :
  (∀ j, (k ≤ j < k + n)%nat → attemptFails req j) →
  attempt req (k + n) = Ok (Some g) →
  (n < fuel)%nat →
  retryLoop req fuel k d waits = Finished g (waits ++ Spec.backoffDelays d n).
Proof.
  revert fuel k d waits. induction n as [| n IH]; intros fuel k d waits Hfail Hok Hfuel.
  - destruct fuel as [| fuel]; [lia |]. simpl.
    rewrite Nat.add_0_r in Hok. rewrite Hok. simpl. by rewrite app_nil_r.
  - destruct fuel as [| fuel]; [lia |]. simpl.
    rewrite (Hfail k) by lia.
    rewrite (IH fuel (S k) (d * 2) (waits ++ [d])).
    + by rewrite backoffDelays_S, <- app_assoc.
    + intros j Hj. apply Hfail. lia.
    + by replace (S k + n)%nat with (k + S n)%nat by lia.
    + lia.
Qed.

End RetryFacts.

(** C6. In [generateObjectDeprecated], once past the entry guard, every
    failed attempt (provider error, or a response in which no JSON object is
    found) is followed by a wait of [retryDelay] milliseconds, 1000 at first
    and doubled after each failure. No number of failures ends the loop:
    after [n] of them it has waited [n] times and is still running. The first
    attempt that parses returns the parsed object. After two failures the
    waits are 1000 and 2000 milliseconds. *)
Theorem generateObjectDeprecated_retry_backoff
  (generateText : nat → result (string * Generation.LanguageModelUsage))
  (parseJSONObjectFromText : string → result (option json))
  (VENICE : string) (stripThink : string → string)
  (req : Generation.ObjectRequest) (n : nat) :
  Generation.emptyRequest req = Ok false →
  (∀ k, (k < n)%nat →
     Generation.attemptFails generateText parseJSONObjectFromText VENICE stripThink req k) →
  let run := Generation.generateObjectDeprecated
               generateText parseJSONObjectFromText VENICE stripThink in
  let waits := Spec.backoffDelays 1000 n in
  run n req = Ok (Generation.Pending n (1000 * 2 ^ Z.of_nat n) waits)
  ∧ (∀ g fuel,
       Generation.attempt generateText parseJSONObjectFromText VENICE stripThink req n
       = Ok (Some g) →
       (n < fuel)%nat →
       run fuel req = Ok (Generation.Finished (Some g) waits))
  ∧ Spec.total waits = 1000 * (2 ^ Z.of_nat n - 1)
  ∧ (n = 2%nat → waits = [1000; 2000] ∧ 1000 + 2000 <= Spec.total waits).
Proof.
  intros Hguard Hfail run waits. subst run waits.
  unfold Generation.generateObjectDeprecated. rewrite Hguard. simpl.
  split; [| split; [| split]].
  - rewrite retryLoop_pending by (intros j Hj; apply Hfail; lia). done.
  - intros g fuel Hok Hfuel.
    rewrite (retryLoop_finished _ _ _ _ req n fuel 0 1000 [] g); try done.
    intros j Hj. apply Hfail. lia.
  - apply total_backoffDelays.
  - intros ->. split; [reflexivity |]. rewrite total_backoffDelays. simpl. lia.
Qed.

(** Two answers that are not JSON, then one that is: the third attempt
    returns the object, after waits of 1000 and 2000 milliseconds. *)
Lemma generateObjectDeprecated_retry_backoff_witness :
  Generation.generateObjectDeprecated Examples.thirdTimeLucky Examples.parseDecisions
    "venice" id 3 Examples.decisionRequest
  = Ok (Generation.Finished
          (Some {| Generation.response := Examples.decisionsObject;
                   Generation.usage := Some Examples.usage0 |})
          [1000; 2000]).
Proof.
  destruct (generateObjectDeprecated_retry_backoff
              Examples.thirdTimeLucky Examples.parseDecisions "venice" id
              Examples.decisionRequest 2 eq_refl) as (_ & Hdone & _ & _).
  - intros k Hk. destruct k as [| [| k]]; [reflexivity | reflexivity | lia].
  - apply (Hdone _ 3%nat); [reflexivity | lia].
Defined.

(** ** Image generation *)

Section ImageFacts.

Import Generation.

Variable toDisplayString : json → string.

#[local] Abbreviation toDataUri := (toDataUri toDisplayString).
#[local] Abbreviation generateImage := (generateImage toDisplayString).

#[local] Abbreviation isDataUri := Spec.isDataUri.

Lemma mapM_toDataUri_ok (items : list json) (uris : list string) :
  mapM toDataUri items = Ok uris →
  Forall isDataUri uris ∧ length uris = length items ∧ Forall (λ v, truthy v = true) items.
Proof.
  revert uris. induction items as [| v items IH]; intros uris H.
  - injection H as <-. repeat split; constructor.
  - change (mapM toDataUri (v :: items))
      with (y ← toDataUri v; k ← mapM toDataUri items; Ok (y :: k)) in H.
    destruct (toDataUri v) as [y |] eqn:Hy; simpl in H; [| discriminate].
    destruct (mapM toDataUri items) as [rest |] eqn:Hrest; simpl in H; [| discriminate].
    injection H as <-. destruct (IH rest eq_refl) as (Huris & Hlen & Hitems).
    unfold Generation.toDataUri in Hy.
    destruct (truthy v) eqn:Hv; simpl in Hy; [| discriminate]. injection Hy as <-.
    repeat split.
    + constructor; [by eexists | done].
    + simpl. by rewrite Hlen.
    + by constructor.
Qed.

Lemma mapM_toDataUri_empty_string (items : list json) :
  Exists (λ v, truthy v = false) items →
  mapM toDataUri items = Throw "Empty base64 string in Venice AI response".
Proof.
  induction 1 as [v items Hv | v items _ IH].
  - change (mapM toDataUri (v :: items))
      with (y ← toDataUri v; k ← mapM toDataUri items; Ok (y :: k)).
    replace (toDataUri v) with (@Throw string "Empty base64 string in Venice AI response")
      by (unfold Generation.toDataUri; by rewrite Hv).
    done.
  - change (mapM toDataUri (v :: items))
      with (y ← toDataUri v; k ← mapM toDataUri items; Ok (y :: k)).
    destruct (toDataUri v) as [y | e] eqn:Hy; simpl.
    + by rewrite IH.
    + unfold Generation.toDataUri in Hy. destruct (negb (truthy v)); [| done].
      by injection Hy as <-.
Qed.

Lemma mapM_toDataUri_all (items : list json) :
  Forall (λ v, truthy v = true) items →
  mapM toDataUri items
  = Ok ((λ v, "data:image/png;base64," +:+ template_string toDisplayString v) <$> items).
Proof.
  induction 1 as [| v items Hv _ IH]; [done |].
  change (mapM toDataUri (v :: items))
    with (y ← toDataUri v; k ← mapM toDataUri items; Ok (y :: k)).
  rewrite IH. unfold Generation.toDataUri. rewrite Hv. reflexivity.
Qed.

(** Every path through [generateImage] ends in a returned object. *)
Lemma generateImage_returns (env : ImageEnv) (data : ImageRequest) :
  ∃ r, generateImage env data = Ok r.
Proof.
  unfold Generation.generateImage.
  destruct (getImageModelSettings env); [| by eexists].
  destruct (VENICE_API_KEY env) as [apiKey |]; [| by eexists].
  destruct (negb (truthy_string apiKey)); [by eexists |].
  destruct (negb (fetch_is_function env)); [by eexists |].
  unfold try_catch.
  match goal with |- ∃ r, match ?b with _ => _ end = _ => destruct b end; by eexists.
Qed.

(** The object says [success: true] only on the path that built the list of
    data URIs; everywhere else it is [failure e]. *)
Lemma generateImage_shape (env : ImageEnv) (data : ImageRequest) (r : ImageResult) :
  generateImage env data = Ok r →
  (∃ e, r = failure e)
  ∨ (∃ uris, r = {| success := true; data := Some uris; error := None |}
             ∧ Forall isDataUri uris).
Proof.
  unfold Generation.generateImage.
  destruct (getImageModelSettings env); [| intros [= <-]; left; by eexists].
  destruct (VENICE_API_KEY env) as [apiKey |]; [| intros [= <-]; left; by eexists].
  destruct (negb (truthy_string apiKey)); [intros [= <-]; left; by eexists |].
  destruct (negb (fetch_is_function env)); [intros [= <-]; left; by eexists |].
  destruct (fetch env apiKey _) as [e | status [result | e]]; simpl.
  - intros [= <-]; left; by eexists.
  - destruct (get_prop result "images") as [images | e]; simpl;
      [| intros [= <-]; left; by eexists].
    destruct images as [[| | | | items |] |]; simpl;
      try (intros [= <-]; left; by eexists).
    destruct (mapM toDataUri items) as [uris |] eqn:Huris; simpl.
    + intros [= <-]. right. exists uris. split; [done |].
      by destruct (mapM_toDataUri_ok items uris Huris).
    + intros [= <-]; left; by eexists.
  - intros [= <-]; left; by eexists.
Qed.

End ImageFacts.


(** The success path is taken: one image in the answer, one data URI out. *)
Example generateImage_one_image :
  Generation.generateImage (λ _, "") Examples.veniceEnv Examples.heroRequest
  = Ok {| Generation.success := true;
          Generation.data := Some ["data:image/png;base64,iVBORw0KGgo"];
          Generation.error := None |}.
Proof. reflexivity. Qed.

(** The request is sent with the configured key: with the wrong one it is
    rejected and the rejection is the error, although the provider would
    answer another key. *)
Example generateImage_rejected_fetch :
  Generation.generateImage (λ _, "") (Examples.keyedEnv "stale") Examples.heroRequest
  = Ok (Generation.failure "401 Unauthorized")
  ∧ Generation.generateImage (λ _, "") (Examples.keyedEnv "key") Examples.heroRequest
    = Ok {| Generation.success := true;
            Generation.data := Some ["data:image/png;base64,iVBORw0KGgo"];
            Generation.error := None |}.
Proof. split; reflexivity. Qed.

(** ** The bonsaiGarden handler: vote weighting *)

Section VoteFacts.

Import BonsaiGarden.

Lemma elem_of_uniq_from (seen l : list string) (x : string) :
  x ∈ uniq_from seen l ↔ x ∈ l ∧ x ∉ seen.
Proof.
  revert seen. induction l as [| y l IH]; intros seen; simpl.
  - split; [by intros ?%elem_of_nil | by intros [?%elem_of_nil _]].
  - case_bool_decide as Hy.
    + rewrite IH, elem_of_cons. split; [naive_solver |].
      intros [[-> | ?] ?]; [done | by split].
    + rewrite !elem_of_cons, IH, elem_of_cons. split.
      * intros [-> | [? ?]]; [by split; [left |] | split; [by right | naive_solver]].
      * intros [[-> | ?] ?]; [by left |].
        destruct (decide (x = y)) as [-> | ?]; [by left | right; naive_solver].
Qed.

Lemma NoDup_uniq_from (seen l : list string) : NoDup (uniq_from seen l).
Proof.
  revert seen. induction l as [| y l IH]; intros seen; simpl.
  - constructor.
  - case_bool_decide; [done |].
    constructor; [| done].
    rewrite elem_of_uniq_from, elem_of_cons. naive_solver.
Qed.

Lemma includes_true (l : list string) (x : string) : includes l x = true ↔ x ∈ l.
Proof. unfold includes. by rewrite bool_decide_eq_true. Qed.

(** The qualifying voters: each once; the author or an up-voter; a collector. *)
Lemma qualifyingVoters_spec (allCollectors upvoters : list string) (comment : Post) :
  NoDup (qualifyingVoters allCollectors upvoters comment)
  ∧ ∀ a, a ∈ qualifyingVoters allCollectors upvoters comment
         ↔ (a = author comment ∨ a ∈ upvoters) ∧ a ∈ allCollectors.
Proof.
  unfold qualifyingVoters, uniq. split.
  - apply NoDup_filter, NoDup_uniq_from.
  - intros a. rewrite list_elem_of_filter, includes_true, elem_of_uniq_from.
    rewrite elem_of_app, list_elem_of_singleton.
    split; [naive_solver |].
    intros [[-> | ?] ?]; (split; [done |]); (split; [auto | by intros ?%elem_of_nil]).
Qed.

Lemma fold_left_weights (w : Z → Z) (balances : list Z) (acc : Z) :
  fold_left (λ a b, a + w b) balances acc = acc + Spec.total (w <$> balances).
Proof.
  revert acc. induction balances as [| b balances IH]; intros acc.
  - unfold Spec.total. rewrite fmap_nil. simpl. lia.
  - rewrite fmap_cons. simpl. rewrite IH. unfold Spec.total. simpl. lia.
Qed.

Lemma insert_desc_head (x : WeightedComment) (l : list WeightedComment) :
  match l with
  | [] => insert_desc x l = [x]
  | y :: rest =>
    (votes y <= votes x ∧ insert_desc x l = x :: l)
    ∨ (votes x < votes y ∧ insert_desc x l = y :: insert_desc x rest)
  end.
Proof.
  destruct l as [| y rest]; simpl; [done |].
  destruct (Z.leb_spec (votes y) (votes x)); [left | right]; done.
Qed.

Lemma insert_desc_Permutation (x : WeightedComment) (l : list WeightedComment) :
  insert_desc x l ≡ₚ x :: l.
Proof.
  induction l as [| y l IH]; simpl; [done |].
  destruct (votes y <=? votes x); [done |].
  rewrite IH. apply Permutation_swap.
Qed.

(** Ordering keeps the comments: it only rearranges them. *)
Lemma orderBy_votes_desc_Permutation (l : list WeightedComment) :
  orderBy_votes_desc l ≡ₚ l.
Proof.
  induction l as [| x l IH]; [done |].
  unfold orderBy_votes_desc in *. simpl.
  by rewrite insert_desc_Permutation, IH.
Qed.

Lemma orderBy_votes_desc_nil (l : list WeightedComment) :
  orderBy_votes_desc l = [] → l = [].
Proof.
  destruct l as [| x l]; [done |]. unfold orderBy_votes_desc. simpl.
  pose proof (insert_desc_head x (foldr insert_desc [] l)) as H.
  destruct (foldr insert_desc [] l); [by rewrite H |].
  destruct H as [[_ ->] | [_ ->]]; done.
Qed.

(** The head of the ordered list is a comment of the greatest weight, and
    among those the earliest. *)
Lemma orderBy_votes_desc_head (l : list WeightedComment) (top : WeightedComment)
  (rest : list WeightedComment) :
  orderBy_votes_desc l = top :: rest →
  ∃ before after,
    l = before ++ top :: after
    ∧ Forall (λ c, votes c < votes top) before
    ∧ Forall (λ c, votes c <= votes top) after.
Proof.
  revert top rest. induction l as [| x l IH]; intros top rest H; [done |].
  unfold orderBy_votes_desc in H. simpl in H.
  fold (orderBy_votes_desc l) in H.
  pose proof (insert_desc_head x (orderBy_votes_desc l)) as Hhead.
  destruct (orderBy_votes_desc l) as [| y sorted] eqn:Hsorted.
  - rewrite Hhead in H. injection H as <- <-.
    apply orderBy_votes_desc_nil in Hsorted as ->.
    exists [], []. repeat split; constructor.
  - destruct (IH y sorted eq_refl) as (before & after & -> & Hbefore & Hafter).
    destruct Hhead as [[Hle Heq] | [Hlt Heq]]; rewrite Heq in H; injection H as <- <-.
    + exists [], (before ++ y :: after). repeat split; [constructor |].
      apply Forall_app. split; [| constructor].
      * eapply Forall_impl; [exact Hbefore |]. simpl. lia.
      * done.
      * eapply Forall_impl; [exact Hafter |]. simpl. lia.
    + exists (x :: before), after. repeat split; [| done].
      by constructor.
Qed.

(** A non-empty list has a pick: the content of its first comment of the
    greatest weight. *)
Lemma topComment_picks (l : list WeightedComment) :
  l ≠ [] →
  ∃ before c after,
    l = before ++ c :: after
    ∧ topComment l = Ok (wc_content c)
    ∧ Forall (λ c', votes c' < votes c) before
    ∧ Forall (λ c', votes c' <= votes c) after.
Proof.
  intros Hne. unfold topComment.
  destruct (orderBy_votes_desc l) as [| c rest] eqn:Hsorted.
  - by apply orderBy_votes_desc_nil in Hsorted.
  - destruct (orderBy_votes_desc_head l c rest Hsorted) as (before & after & -> & Hb & Ha).
    by exists before, c, after.
Qed.

(** [Promise.all(comments.map(f))]: every comment weighed, in order. *)
Lemma mapM_weighed {A B} (f : A → result B) (l : list A) (k : list B) :
  mapM f l = Ok k ↔ Forall2 (λ a b, f a = Ok b) l k.
Proof.
  revert k. induction l as [| a l IH]; intros k.
  - split; [intros [= <-]; constructor | by inversion 1].
  - change (mapM f (a :: l)) with (y ← f a; r ← mapM f l; Ok (y :: r)). split.
    + destruct (f a) as [y |] eqn:Hy; simpl; [| done].
      destruct (mapM f l) as [r |] eqn:Hr; simpl; [| done].
      intros [= <-]. constructor; [done |]. by apply IH.
    + inversion 1 as [| ? b ? r Hb Hrest]; subst. rewrite Hb. simpl.
      apply IH in Hrest. by rewrite Hrest.
Qed.

End VoteFacts.

Section FirstCallFacts.

Import BonsaiGarden.

Variable env : HandlerEnv.
Variable top : string.

(** The image loop only adds to the trace. *)
Lemma imageLoop_trace_prefix (fuel : nat) (st : LoopState) :
  trace st `prefix_of`
    trace (match imageLoop env top fuel st with
           | Left_ st' | Thrown _ st' | StillRunning st' => st'
           end).
Proof.
  revert st. induction fuel as [| fuel IH]; intros st; simpl.
  - by destruct (attempts st <? MAX_ATTEMPTS).
  - destruct (attempts st <? MAX_ATTEMPTS); [| done].
    destruct (generateText env top (attempts st)) as [[imagePrompt u] | e].
    + destruct (Generation.success (generateImage env imagePrompt (attempts st))).
      * simpl. rewrite <- app_assoc. by apply prefix_app_r.
      * etransitivity; [| apply IH]. simpl. rewrite <- app_assoc. by apply prefix_app_r.
    + simpl. by apply prefix_app_r.
Qed.

(** The first thing the loop does is to ask for an image prompt for [top]. *)
Lemma imageLoop_first_call (fuel : nat) :
  trace (match imageLoop env top (S fuel) initialLoopState with
         | Left_ st' | Thrown _ st' | StillRunning st' => st'
         end) !! 0%nat
  = Some (EvGenerateText top 0).
Proof.
  simpl.
  destruct (generateText env top 0) as [[imagePrompt u] | e]; [| done].
  destruct (Generation.success (generateImage env imagePrompt 0)); [done |].
  match goal with
  | |- context [imageLoop env top fuel ?s] =>
    destruct (imageLoop_trace_prefix fuel s) as [more ->]
  end.
  done.
Qed.

End FirstCallFacts.

(** C8. The voters that count for a comment are its author and its
    up-voters, each once, collectors only. Without a token the comment
    weighs the number of those voters, zero when there is none (no error);
    with a token it weighs the sum of [getVoteWeightFromBalance] over the
    balances fetched for those voters. The handler weighs every comment it
    evaluates in this way, orders them by weight, largest first, and takes
    the head: whenever there is a comment it picks one, the first of the
    greatest weight, and its first generation call is made for the content
    of that comment. *)
Theorem weighComment_qualifying_voters
  (env : BonsaiGarden.HandlerEnv) (media : SmartMedia)
  (allCollectors upvoters : list string) (comment : BonsaiGarden.Post) :
  BonsaiGarden.fetchAllUpvotersFor env (BonsaiGarden.id comment) = Ok upvoters →
  let voters := BonsaiGarden.qualifyingVoters allCollectors upvoters comment in
  let weighed := BonsaiGarden.weighComment env media allCollectors comment in
  (NoDup voters
   ∧ ∀ a, a ∈ voters ↔ (a = BonsaiGarden.author comment ∨ a ∈ upvoters) ∧ a ∈ allCollectors)
  ∧ (BonsaiGarden.noToken media = true →
     weighed = Ok {| BonsaiGarden.wc_content := BonsaiGarden.content comment;
                     BonsaiGarden.votes := Z.of_nat (length voters) |}
     ∧ (voters = [] →
        weighed = Ok {| BonsaiGarden.wc_content := BonsaiGarden.content comment;
                        BonsaiGarden.votes := 0 |}))
  ∧ (∀ tok balances,
       token media = Some tok → address tok ≠ "" →
       BonsaiGarden.balanceOfBatched env (chain tok) voters (address tok) = Ok balances →
       weighed = Ok {| BonsaiGarden.wc_content := BonsaiGarden.content comment;
                       BonsaiGarden.votes :=
                         Spec.total (BonsaiGarden.getVoteWeightFromBalance env <$> balances) |})
  ∧ (∀ commentsWeighted, commentsWeighted ≠ [] →
       ∃ before c after,
         commentsWeighted = before ++ c :: after
         ∧ BonsaiGarden.topComment commentsWeighted = Ok (BonsaiGarden.wc_content c)
         ∧ Forall (λ c', BonsaiGarden.votes c' < BonsaiGarden.votes c) before
         ∧ Forall (λ c', BonsaiGarden.votes c' <= BonsaiGarden.votes c) after)
  ∧ (∀ td forceUpdate comments commentsWeighted url,
       BonsaiGarden.commentsToEvaluate env media td forceUpdate = Ok (Some comments) →
       comments ≠ [] →
       BonsaiGarden.fetchAllCollectorsFor env (postId media) = Ok allCollectors →
       Forall2 (λ c w, BonsaiGarden.weighComment env media allCollectors c = Ok w)
         comments commentsWeighted →
       BonsaiGarden.resolveCurrentImage env media = Ok url →
       ∃ top,
         BonsaiGarden.topComment commentsWeighted = Ok top
         ∧ BonsaiGarden.chooseComment env media td forceUpdate = Ok (Some top)
         ∧ (templateData media = Some td → truthy td = true →
            ∀ fuel,
              (BonsaiGarden.handler env (S fuel) (Some media) forceUpdate).2 !! 0%nat
              = Some (BonsaiGarden.EvGenerateText top 0))).
Proof.
  intros Hup voters weighed. subst voters weighed.
  split; [apply qualifyingVoters_spec |].
  split; [| split; [| split; [apply topComment_picks |]]].
  - unfold BonsaiGarden.weighComment, BonsaiGarden.noToken. rewrite Hup. simpl.
    intros Hno. destruct (token media) as [tok |].
    + destruct (truthy_string (address tok)); [done |].
      split; [done | by intros ->].
    + split; [done | by intros ->].
  - unfold BonsaiGarden.weighComment, BonsaiGarden.noToken. rewrite Hup. simpl.
    intros tok balances -> Haddr Hbal.
    apply truthy_string_true in Haddr. rewrite Haddr.
    replace (if bool_decide (chain tok = BASE) then BASE else LENS) with (chain tok)
      by (by destruct (chain tok)).
    rewrite Hbal. simpl. by rewrite fold_left_weights.
  - intros td forceUpdate comments commentsWeighted url Hgate Hsome Hcollectors Hweighed
      Himage.
    assert (commentsWeighted ≠ []) as Hne.
    { intros ->. inversion Hweighed. by subst. }
    destruct (topComment_picks commentsWeighted Hne) as (before & c & after & _ & Htop & _).
    exists (BonsaiGarden.wc_content c). split; [done |].
    assert (BonsaiGarden.chooseComment env media td forceUpdate
            = Ok (Some (BonsaiGarden.wc_content c))) as Hchoice.
    { unfold BonsaiGarden.chooseComment. rewrite Hgate. simpl. rewrite Hcollectors. simpl.
      apply mapM_weighed in Hweighed. rewrite Hweighed. simpl. rewrite Himage. simpl.
      by rewrite Htop. }
    split; [done |]. intros Htd Htruthy fuel.
    unfold BonsaiGarden.handler. rewrite Htd, Htruthy, Hchoice.
    cbn -[BonsaiGarden.imageLoop].
    pose proof (imageLoop_first_call env (BonsaiGarden.wc_content c) fuel) as Hfirst.
    destruct (BonsaiGarden.imageLoop env (BonsaiGarden.wc_content c) (S fuel)
                BonsaiGarden.initialLoopState) as [st | e st | st]; try done.
    destruct (BonsaiGarden.imageResponse st) as [r |]; [| done].
    destruct (negb (Generation.success r)); [done |].
    by destruct (BonsaiGarden.persistImage env media r).
Qed.

(** The author and one up-voter of the first comment are collectors; the
    up-voter voted twice and a third account is no collector: two votes. The
    second comment has no vote that counts, so the handler asks for an image
    prompt for the first. Of three comments weighing 1, 3 and 3, the second
    is picked. *)
Lemma weighComment_qualifying_voters_witness :
  BonsaiGarden.weighComment Examples.gardenEnv Examples.heroPost ["0xa"; "0xb"; "0xc"]
    Examples.commentA
  = Ok {| BonsaiGarden.wc_content := "cunning | sneaking"; BonsaiGarden.votes := 2 |}
  ∧ (BonsaiGarden.handler Examples.gardenEnv 1 (Some Examples.heroPost) false).2 !! 0%nat
    = Some (BonsaiGarden.EvGenerateText "cunning | sneaking" 0)
  ∧ BonsaiGarden.topComment
      [ {| BonsaiGarden.wc_content := "walk"; BonsaiGarden.votes := 1 |};
        {| BonsaiGarden.wc_content := "fly"; BonsaiGarden.votes := 3 |};
        {| BonsaiGarden.wc_content := "swim"; BonsaiGarden.votes := 3 |} ]
    = Ok "fly".
Proof.
  destruct (weighComment_qualifying_voters Examples.gardenEnv Examples.heroPost
              ["0xa"; "0xb"; "0xc"] ["0xb"; "0xb"; "0xz"] Examples.commentA eq_refl)
    as (_ & Hcount & _ & Hpick & Hhandler).
  split; [by destruct (Hcount eq_refl) |]. split.
  - destruct (Hhandler (JObj [("personality", JStr "brave"); ("action", JStr "resting")])
                false [Examples.commentA; Examples.commentB]
                [ {| BonsaiGarden.wc_content := "cunning | sneaking";
                     BonsaiGarden.votes := 2 |};
                  {| BonsaiGarden.wc_content := "kind | gardening";
                     BonsaiGarden.votes := 0 |} ]
                "https://storage/post-1.png" eq_refl ltac:(discriminate) eq_refl
                ltac:(repeat constructor) eq_refl)
      as (top & Htop & _ & Hfirst).
    injection Htop as <-. exact (Hfirst eq_refl eq_refl 0%nat).
  - match goal with
    | |- BonsaiGarden.topComment ?l = _ =>
      destruct (Hpick l ltac:(discriminate)) as (before & c & after & Hl & -> & Hb & Ha)
    end.
    destruct before as [| b1 [| b2 [| b3 before]]]; simplify_eq/=.
    + apply Forall_cons in Ha as [Ha _]. simpl in Ha. lia.
    + done.
    + apply Forall_cons in Hb as [_ Hb]. apply Forall_cons in Hb as [Hb _].
      simpl in Hb. lia.
    + by destruct before.
Defined.

(** ** The bonsaiGarden handler: the image loop *)

Section ImageLoopFacts.

Import BonsaiGarden.

Variable env : HandlerEnv.
Variable top : string.

Lemma imageCalls_app (tr1 tr2 : list Event) :
  imageCalls (tr1 ++ tr2) = (imageCalls tr1 + imageCalls tr2)%nat.
Proof. unfold imageCalls. by rewrite filter_app, length_app. Qed.

(** Unrolling the loop further than the iterations left changes nothing. *)
Lemma imageLoop_fuel (fuel1 fuel2 : nat) (st : LoopState) :
  (iterationsLeft st ≤ fuel1)%nat → (iterationsLeft st ≤ fuel2)%nat →
  imageLoop env top fuel1 st = imageLoop env top fuel2 st.
Proof.
  revert fuel2 st. induction fuel1 as [| fuel1 IH]; intros fuel2 st H1 H2;
    unfold iterationsLeft, MAX_ATTEMPTS in *.
  - destruct fuel2; simpl; unfold MAX_ATTEMPTS;
      destruct (Z.ltb_spec (attempts st) 2); (done || lia).
  - destruct fuel2 as [| fuel2]; simpl; unfold MAX_ATTEMPTS;
      destruct (Z.ltb_spec (attempts st) 2); try (done || lia).
    destruct (generateText env top (attempts st)) as [[imagePrompt u] | e]; [| done].
    destruct (Generation.success _); [done |].
    apply IH; unfold iterationsLeft, MAX_ATTEMPTS; simpl; lia.
Qed.

(** With enough fuel the loop is left or thrown out of, after no more image
    calls than iterations were left; a successful [imageResponse] at the
    exit is the answer to the last call recorded. *)
Lemma imageLoop_exit (fuel : nat) (st : LoopState) :
  (iterationsLeft st ≤ fuel)%nat →
  (∀ r, imageResponse st = Some r → Generation.success r = false) →
  ∃ st',
    (imageLoop env top fuel st = Left_ st' ∨ ∃ e, imageLoop env top fuel st = Thrown e st')
    ∧ (imageCalls (trace st') ≤ imageCalls (trace st) + iterationsLeft st)%nat
    ∧ ∀ r, imageResponse st' = Some r → Generation.success r = true →
           ∃ p, EvGenerateImage p (attempts st') ∈ trace st'
                ∧ r = generateImage env p (attempts st').
Proof.
  revert st. induction fuel as [| fuel IH]; intros st Hfuel Hfailed;
    unfold iterationsLeft, MAX_ATTEMPTS in *.
  - exists st. simpl. unfold MAX_ATTEMPTS.
    destruct (Z.ltb_spec (attempts st) 2); [lia |].
    split; [by left |]. split; [lia |].
    intros r Hr Hs. rewrite (Hfailed r Hr) in Hs. discriminate.
  - simpl. unfold MAX_ATTEMPTS. destruct (Z.ltb_spec (attempts st) 2) as [Hlt | Hge].
    2:{ exists st. split; [by left |]. split; [lia |].
        intros r Hr Hs. rewrite (Hfailed r Hr) in Hs. discriminate. }
    destruct (generateText env top (attempts st)) as [[imagePrompt u] | e].
    + destruct (Generation.success (generateImage env imagePrompt (attempts st))) eqn:Hs.
      * eexists. split; [by left |]. simpl. split.
        -- rewrite !imageCalls_app. unfold imageCalls at 2 3. simpl. lia.
        -- intros r [= <-] _. exists imagePrompt. split; [| done].
           rewrite elem_of_app. right. apply list_elem_of_singleton. done.
      * match goal with
        | |- context [imageLoop env top fuel ?s] => destruct (IH s) as (st' & Hexit & Hcalls & Hlast)
        end.
        -- unfold iterationsLeft, MAX_ATTEMPTS. simpl. lia.
        -- simpl. by intros r [= <-].
        -- exists st'. split; [done |]. split; [| done].
           revert Hcalls. unfold iterationsLeft, MAX_ATTEMPTS. simpl.
           rewrite !imageCalls_app. unfold imageCalls at 3 4. simpl. lia.
    + eexists. split; [right; by eexists |]. simpl. split.
      * rewrite imageCalls_app. unfold imageCalls at 2. simpl. lia.
      * intros r Hr Hs. rewrite (Hfailed r Hr) in Hs. discriminate.
Qed.

End ImageLoopFacts.

(** C7. The image loop of the handler makes at most two generation attempts:
    unrolled twice it has ended, and further unrolling changes nothing, so a
    trace never holds more than two [generateImage] calls. When two calls
    were made and both came back with [success: false], the handler throws
    after the loop and returns no response. *)
Theorem handler_caps_image_attempts
  (env : BonsaiGarden.HandlerEnv) (fuel : nat)
  (media : option SmartMedia) (forceUpdate : bool) :
  (2 ≤ fuel)%nat →
  let run := BonsaiGarden.handler env fuel media forceUpdate in
  (∀ top st,
     BonsaiGarden.imageLoop env top fuel BonsaiGarden.initialLoopState
     ≠ BonsaiGarden.StillRunning st)
  ∧ run = BonsaiGarden.handler env 2 media forceUpdate
  ∧ (BonsaiGarden.imageCalls run.2 ≤ 2)%nat
  ∧ (BonsaiGarden.imageCalls run.2 = 2%nat →
     (∀ p k, BonsaiGarden.EvGenerateImage p k ∈ run.2 →
             Generation.success (BonsaiGarden.generateImage env p k) = false) →
     run.1 = None).
Proof.
  intros Hfuel run. subst run.
  assert (∀ r, BonsaiGarden.imageResponse BonsaiGarden.initialLoopState = Some r →
               Generation.success r = false) as Hinit by done.
  assert (BonsaiGarden.iterationsLeft BonsaiGarden.initialLoopState ≤ fuel)%nat as Hleft
    by (unfold BonsaiGarden.iterationsLeft, BonsaiGarden.MAX_ATTEMPTS; simpl; lia).
  split.
  { intros top st Hrun.
    destruct (imageLoop_exit env top fuel _ Hleft Hinit) as (st' & [H | [e H]] & _);
      congruence. }
  split.
  { unfold BonsaiGarden.handler.
    destruct media as [m |]; [| done].
    destruct (templateData m) as [td |]; [| done].
    destruct (negb (truthy td)); [done |].
    destruct (BonsaiGarden.chooseComment env m td forceUpdate) as [[top |] | e]; try done.
    rewrite (imageLoop_fuel env top fuel 2); [done | done |].
    unfold BonsaiGarden.iterationsLeft, BonsaiGarden.MAX_ATTEMPTS. simpl. lia. }
  unfold BonsaiGarden.handler.
  destruct media as [m |]; [| split; [cbv; lia | done]].
  destruct (templateData m) as [td |]; [| split; [cbv; lia | done]].
  destruct (negb (truthy td)); [split; [cbv; lia | done] |].
  destruct (BonsaiGarden.chooseComment env m td forceUpdate) as [[top |] | e];
    [| split; [cbv; lia | discriminate] | split; [cbv; lia | done]].
  destruct (imageLoop_exit env top fuel _ Hleft Hinit) as (st' & Hexit & Hcalls & Hlast).
  unfold BonsaiGarden.iterationsLeft, BonsaiGarden.MAX_ATTEMPTS in Hcalls.
  change (BonsaiGarden.imageCalls (BonsaiGarden.trace BonsaiGarden.initialLoopState))
    with 0%nat in Hcalls.
  simpl in Hcalls.
  destruct Hexit as [-> | [e ->]]; [| simpl; split; [lia | done]].
  destruct (BonsaiGarden.imageResponse st') as [r |]; [| simpl; split; [lia | done]].
  destruct (Generation.success r) eqn:Hs; simpl; [| split; [lia | done]].
  destruct (Hlast r eq_refl Hs) as (p & Hin & ->).
  destruct (BonsaiGarden.persistImage env m _); simpl; (split; [lia |]); [| done].
  intros _ Hall. rewrite (Hall p _ Hin) in Hs. discriminate.
Qed.

(** The provider fails both times: two text calls, two image calls, no
    response. *)
Lemma handler_caps_image_attempts_witness :
  (2 ≤ 5)%nat
  ∧ BonsaiGarden.handler Examples.gardenEnv 5 (Some Examples.heroPost) false
    = (None,
       [BonsaiGarden.EvGenerateText "cunning | sneaking" 0;
        BonsaiGarden.EvGenerateImage "a cunning hero, sneaking" 0;
        BonsaiGarden.EvGenerateText "cunning | sneaking" 1;
        BonsaiGarden.EvGenerateImage "a cunning hero, sneaking" 1]).
Proof.
  split; [lia |].
  destruct (handler_caps_image_attempts Examples.gardenEnv 5 (Some Examples.heroPost)
              false ltac:(lia)) as (_ & -> & _ & _).
  vm_compute. reflexivity.
Defined.

(** ** Preview credits *)

Section PreviewFacts.

Import ClientService.

Variable cfg : Config.
Variable templateName : TemplateName.
Variable creator : string.
Variable totalUsage : option TemplateUsage.
Variable defaultModel : option string.

#[local] Abbreviation preview := (handlePreviewCredits cfg templateName creator totalUsage defaultModel).
#[local] Abbreviation previews := (Spec.previewRequests cfg templateName creator totalUsage defaultModel).

Lemma debits_emit_debit (st : State) :
  debits (log (decrementCredits creator (modelOr cfg defaultModel) totalUsage st))
  = S (debits (log st)).
Proof.
  unfold decrementCredits, emit, debits. simpl.
  rewrite filter_app, length_app. simpl. lia.
Qed.

(** A counter below the cap takes the free unit: it grows by one, the hour
    is armed, and nothing is debited. *)
Lemma preview_free_unit (st : State) (c : Counter) :
  templateName ∉ PREMIUM_TEMPLATES cfg →
  redis_counters st !! previewKey creator = Some c →
  count c < FREE_GENERATIONS_PER_HOUR cfg →
  preview st
  = with_redis_counters
      (<[previewKey creator := {| count := count c + 1; ttl := Some 3600 |}]>) st.
Proof.
  intros Hfree Hc Hlt. unfold handlePreviewCredits.
  rewrite bool_decide_eq_false_2 by done. simpl. rewrite Hc.
  destruct (Z.ltb_spec (count c) (FREE_GENERATIONS_PER_HOUR cfg)); [done | lia].
Qed.

(** A counter at the cap, and a premium template, fall through to the debit. *)
Lemma preview_paid_at_cap (st : State) (c : Counter) :
  redis_counters st !! previewKey creator = Some c →
  FREE_GENERATIONS_PER_HOUR cfg <= count c →
  preview st = decrementCredits creator (modelOr cfg defaultModel) totalUsage st.
Proof.
  intros Hc Hge. unfold handlePreviewCredits.
  destruct (negb _); [| done]. rewrite Hc.
  destruct (Z.ltb_spec (count c) (FREE_GENERATIONS_PER_HOUR cfg)); [lia | done].
Qed.

(** Starting from a counter that exists, the requests up to the cap are
    free. *)
Lemma previews_free_from_counter (n : nat) (st : State) (c : Counter) :
  templateName ∉ PREMIUM_TEMPLATES cfg →
  redis_counters st !! previewKey creator = Some c →
  count c + Z.of_nat n <= FREE_GENERATIONS_PER_HOUR cfg →
  log (previews n st) = log st
  ∧ (n ≠ 0%nat →
     redis_counters (previews n st) !! previewKey creator
     = Some {| count := count c + Z.of_nat n; ttl := Some 3600 |})
  ∧ (n = 0%nat → previews n st = st).
Proof.
  intros Hfree. revert c. induction n as [| n IH]; intros c Hc Hle.
  - simpl. done.
  - unfold Spec.previewRequests in *. simpl.
    destruct (decide (n = 0%nat)) as [-> | Hn].
    + simpl. rewrite (preview_free_unit st c) by (done || lia).
      simpl. rewrite lookup_insert_eq.
      repeat split; try done; intros _; f_equal; f_equal; lia.
    + destruct (IH c Hc ltac:(lia)) as (Hlog & Hcount & _).
      specialize (Hcount Hn).
      rewrite (preview_free_unit _ _ Hfree Hcount) by (simpl; lia).
      simpl. rewrite lookup_insert_eq.
      repeat split; try done; intros _; f_equal; f_equal; lia.
Qed.

End PreviewFacts.

(** C1, on the code. A creator with no preview in the current hour has no
    counter in Redis: the key was never written or has expired. For that
    creator [handlePreviewCredits] debits credits on the first preview with a
    non-premium template and leaves the counter absent, so every later
    preview is debited as well: no free unit is ever consumed. *)
Theorem handlePreviewCredits_absent_counter_debits
  (cfg : ClientService.Config) (templateName : TemplateName) (creator : string)
  (totalUsage : option TemplateUsage) (defaultModel : option string)
  (st : ClientService.State) (n : nat) :
  templateName ∉ ClientService.PREMIUM_TEMPLATES cfg →
  ClientService.redis_counters st !! ClientService.previewKey creator = None →
  ClientService.handlePreviewCredits cfg templateName creator totalUsage defaultModel st
  = ClientService.decrementCredits creator (ClientService.modelOr cfg defaultModel)
      totalUsage st
  ∧ let st' := Spec.previewRequests cfg templateName creator totalUsage defaultModel n st in
    ClientService.redis_counters st' = ClientService.redis_counters st
    ∧ ClientService.debits (ClientService.log st')
      = (ClientService.debits (ClientService.log st) + n)%nat.
Proof.
  intros Hfree Hnone.
  assert (∀ s, ClientService.redis_counters s !! ClientService.previewKey creator = None →
               ClientService.handlePreviewCredits cfg templateName creator totalUsage
                 defaultModel s
               = ClientService.decrementCredits creator
                   (ClientService.modelOr cfg defaultModel) totalUsage s) as Hstep.
  { intros s Hs. unfold ClientService.handlePreviewCredits.
    rewrite bool_decide_eq_false_2 by done. simpl. by rewrite Hs. }
  split; [by apply Hstep |].
  induction n as [| n [IHc IHd]]; simpl; [split; [done | lia] |].
  unfold Spec.previewRequests in *. simpl.
  rewrite Hstep by (by rewrite IHc).
  rewrite debits_emit_debit, IHd. split; [done | lia].
Qed.

(** The first preview of a creator, with a cap of five: one debit, and still
    no counter. *)
Lemma handlePreviewCredits_absent_counter_debits_witness :
  let st' := ClientService.handlePreviewCredits Examples.cfg "bonsai_garden" "0xc0ffee"
               (Some Examples.previewUsage) None (Examples.storeOf Examples.heroPost) in
  ClientService.log st'
  = [ClientService.EvDecrementCredits "0xc0ffee" "gpt-4o-mini" 120 30 1 None None None]
  ∧ ClientService.redis_counters st' !! ClientService.previewKey "0xc0ffee" = None.
Proof.
  destruct (handlePreviewCredits_absent_counter_debits Examples.cfg "bonsai_garden"
              "0xc0ffee" (Some Examples.previewUsage) None
              (Examples.storeOf Examples.heroPost) 0) as [-> _].
  - set_solver.
  - done.
  - split; reflexivity.
Defined.

(** ** handlePostUpdate *)

Section UpdateFacts.

Import ClientService.

Variable cfg : Config.
Variable env : Env.

(** Past the lookups and the two gates the handler is invoked, and its
    result decides what happens. *)
Lemma handlePostUpdate_invokes_handler (postId : string) (forceUpdate : option bool)
  (st : State) (data : SmartMedia) (tpl : Template) :
  getPost st postId = Some data →
  templates st !! template data = Some tpl →
  isDeleted env postId = false →
  canUpdate env (creator data) (template data) = true →
  handlePostUpdate cfg env postId forceUpdate st
  = let st1 := emit (EvHandler (template data) (Some data) (flag forceUpdate)) st in
    match runHandler env (template data) (Some data) (flag forceUpdate) with
    | Throw e => (st1, Throw e)
    | Ok None => (freezeIfOverdue cfg env postId data st1, Ok ())
    | Ok (Some response) =>
      match noUpdates response with
      | Throw e => (st1, Throw e)
      | Ok true => (freezeIfOverdue cfg env postId data st1, Ok ())
      | Ok false => (applyResponse cfg env postId tpl data response st1, Ok ())
      end
    end.
Proof.
  intros Hdata Htpl Hdel Hcan. unfold handlePostUpdate.
  rewrite Hdata. simpl. rewrite Htpl, Hdel, Hcan. reflexivity.
Qed.

(** The freeze: past the threshold the document is marked [FAILED] and the
    post leaves the cache; at or below it nothing changes. *)
Lemma freezeIfOverdue_spec (postId : string) (data : SmartMedia) (st : State) :
  (DEFAULT_FREEZE_TIME cfg < now env - updatedAt data →
   freezeIfOverdue cfg env postId data st
   = removePostFromCache data (updateOne postId (set_status_doc FAILED) st))
  ∧ (now env - updatedAt data <= DEFAULT_FREEZE_TIME cfg →
     freezeIfOverdue cfg env postId data st = st).
Proof.
  unfold freezeIfOverdue.
  destruct (Z.ltb_spec (DEFAULT_FREEZE_TIME cfg) (now env - updatedAt data));
    split; intros; (done || lia).
Qed.

(** The [media] collection after the steps that follow a usable response. *)
Lemma applyResponse_mongo (postId : string) (tpl : Template) (data : SmartMedia)
  (response : TemplateHandlerResponse) (st : State) :
  mongo_media (applyResponse cfg env postId tpl data response st)
  = (if refreshFails env postId response
     then alter (apply_update (set_status_doc FAILED)) postId else id)
      ((if needsStatusUpdate data || hasNewVersion response
        then alter (apply_update (buildUpdate data response)) postId else id)
         (mongo_media st)).
Proof.
  unfold applyResponse, refreshFails.
  destruct (needsStatusUpdate data || hasNewVersion response);
    destruct (hasMetadata response || flag (refreshMetadata response));
    destruct (flag (refreshCache response));
    destruct (bool_decide (refreshMetadataStatus env postId = "FAILED"));
    reflexivity.
Qed.

Lemma applyResponse_handlerRuns (postId : string) (tpl : Template) (data : SmartMedia)
  (response : TemplateHandlerResponse) (st : State) :
  handlerRuns (log (applyResponse cfg env postId tpl data response st))
  = handlerRuns (log st).
Proof.
  unfold applyResponse.
  destruct (needsStatusUpdate data || hasNewVersion response);
    destruct (hasMetadata response || flag (refreshMetadata response));
    destruct (flag (refreshCache response));
    destruct (bool_decide (refreshMetadataStatus env postId = "FAILED"));
    simpl; unfold handlerRuns; rewrite ?filter_app; simpl; rewrite ?app_nil_r; done.
Qed.

Lemma freezeIfOverdue_log (postId : string) (data : SmartMedia) (st : State) :
  log (freezeIfOverdue cfg env postId data st) = log st.
Proof. unfold freezeIfOverdue. by destruct (_ <? _). Qed.

(** The claim of the freeze, for the results the code recognises as empty:
    no response, or a response for which [noUpdates] holds. *)
Lemma handlePostUpdate_freezes_on_empty_result (postId : string)
  (forceUpdate : option bool) (st : State) (data : SmartMedia) (tpl : Template) :
  getPost st postId = Some data →
  templates st !! template data = Some tpl →
  isDeleted env postId = false →
  canUpdate env (creator data) (template data) = true →
  (runHandler env (template data) (Some data) (flag forceUpdate) = Ok None
   ∨ ∃ response,
       runHandler env (template data) (Some data) (flag forceUpdate) = Ok (Some response)
       ∧ noUpdates response = Ok true) →
  let st' := (handlePostUpdate cfg env postId forceUpdate st).1 in
  (DEFAULT_FREEZE_TIME cfg < now env - updatedAt data →
   mongo_media st' = alter (set_status (Some FAILED)) postId (mongo_media st)
   ∧ redis_posts st' = delete (Types.postId data) (redis_posts st))
  ∧ (now env - updatedAt data <= DEFAULT_FREEZE_TIME cfg →
     mongo_media st' = mongo_media st ∧ redis_posts st' = redis_posts st).
Proof.
  intros Hdata Htpl Hdel Hcan Hempty. simpl.
  rewrite (handlePostUpdate_invokes_handler postId forceUpdate st data tpl) by done.
  simpl.
  assert (∀ st1, mongo_media st1 = mongo_media st → redis_posts st1 = redis_posts st →
    (DEFAULT_FREEZE_TIME cfg < now env - updatedAt data →
     mongo_media (freezeIfOverdue cfg env postId data st1)
     = alter (set_status (Some FAILED)) postId (mongo_media st)
     ∧ redis_posts (freezeIfOverdue cfg env postId data st1)
       = delete (Types.postId data) (redis_posts st))
    ∧ (now env - updatedAt data <= DEFAULT_FREEZE_TIME cfg →
       mongo_media (freezeIfOverdue cfg env postId data st1) = mongo_media st
       ∧ redis_posts (freezeIfOverdue cfg env postId data st1) = redis_posts st)) as Hfreeze.
  { intros st1 Hm Hr. destruct (freezeIfOverdue_spec postId data st1) as [Hover Hunder].
    split; intros H.
    - rewrite (Hover H). simpl. by rewrite Hm, Hr.
    - by rewrite (Hunder H). }
  destruct Hempty as [-> | (response & -> & ->)]; simpl; by apply Hfreeze.
Qed.

End UpdateFacts.

(** C2, on the code. The response with which the handlers report that
    there is nothing to do, [{ metadata: undefined, totalUsage }] with every
    counter at zero, carries no [videosCreated]; the test
    [totalUsage.videosCreated === 0] fails on it, so [handlePostUpdate] does
    not take the freeze branch. For a post that needs no status update the
    collection and the cache stay as they were, however long ago the post was
    last updated: its status is never set to [FAILED]. *)
Theorem handlePostUpdate_noop_response_never_freezes
  (cfg : ClientService.Config) (env : ClientService.Env) (postId : string)
  (forceUpdate : option bool) (st : ClientService.State) (data : SmartMedia)
  (tpl : ClientService.Template) :
  ClientService.getPost st postId = Some data →
  ClientService.templates st !! template data = Some tpl →
  ClientService.isDeleted env postId = false →
  ClientService.canUpdate env (creator data) (template data) = true →
  ClientService.runHandler env (template data) (Some data) (flag forceUpdate)
  = Ok (Some (BonsaiGarden.skipped BonsaiGarden.zeroUsage)) →
  ClientService.needsStatusUpdate data = false →
  let st' := (ClientService.handlePostUpdate cfg env postId forceUpdate st).1 in
  ClientService.mongo_media st' = ClientService.mongo_media st
  ∧ ClientService.redis_posts st' = ClientService.redis_posts st.
Proof.
  intros Hdata Htpl Hdel Hcan Hrun Hstatus. simpl.
  rewrite (handlePostUpdate_invokes_handler cfg env postId forceUpdate st data tpl) by done.
  cbv zeta. rewrite Hrun.
  change (ClientService.noUpdates (BonsaiGarden.skipped BonsaiGarden.zeroUsage))
    with (@Ok bool false).
  cbn -[ClientService.applyResponse].
  split.
  - rewrite applyResponse_mongo. rewrite Hstatus. reflexivity.
  - unfold ClientService.applyResponse. rewrite Hstatus. reflexivity.
Qed.

(** A post last updated at second 1000, looked at more than three days
    later by a handler that finds it not stale: still [ACTIVE]. *)
Lemma handlePostUpdate_noop_response_never_freezes_witness :
  let env := Examples.serviceEnv 300000 Examples.quietEnv in
  let st := Examples.storeOf Examples.heroPost in
  let st' := (ClientService.handlePostUpdate Examples.cfg env "post-1" None st).1 in
  ClientService.DEFAULT_FREEZE_TIME Examples.cfg
  < ClientService.now env - updatedAt Examples.heroPost
  ∧ status <$> ClientService.mongo_media st' !! "post-1" = Some (Some ACTIVE).
Proof.
  intros env st st'. split; [reflexivity |].
  destruct (handlePostUpdate_noop_response_never_freezes Examples.cfg env "post-1" None st
              (ClientService.project_last10 Examples.heroPost) Examples.gardenTemplate
              eq_refl eq_refl eq_refl eq_refl eq_refl eq_refl)
    as [Hmongo _].
  subst st'. rewrite Hmongo. reflexivity.
Defined.

(** C5, on the code. When the post read by the run is [FAILED] or
    [DISABLED] and the handler brings a new version, the second assignment to
    [update.$set] replaces the first: the version URI is appended to
    [versions], and [versionCount] stays what it was. *)
Theorem handlePostUpdate_reactivation_keeps_versionCount
  (cfg : ClientService.Config) (env : ClientService.Env) (postId : string)
  (forceUpdate : option bool) (st : ClientService.State) (data doc : SmartMedia)
  (tpl : ClientService.Template) (response : TemplateHandlerResponse) (versionUri : string) :
  ClientService.getPost st postId = Some data →
  ClientService.templates st !! template data = Some tpl →
  ClientService.isDeleted env postId = false →
  ClientService.canUpdate env (creator data) (template data) = true →
  ClientService.runHandler env (template data) (Some data) (flag forceUpdate)
  = Ok (Some response) →
  ClientService.noUpdates response = Ok false →
  persistVersionUri response = Some versionUri → versionUri ≠ "" →
  ClientService.needsStatusUpdate data = true →
  ClientService.mongo_media st !! postId = Some doc →
  let st' := (ClientService.handlePostUpdate cfg env postId forceUpdate st).1 in
  ∃ doc',
    ClientService.mongo_media st' !! postId = Some doc'
    ∧ versions doc' = Some (default [] (versions doc) ++ [versionUri])
    ∧ versionCount doc' = versionCount doc.
Proof.
  intros Hdata Htpl Hdel Hcan Hrun Hno Huri Hne Hstatus Hdoc. simpl.
  rewrite (handlePostUpdate_invokes_handler cfg env postId forceUpdate st data tpl) by done.
  cbv zeta. rewrite Hrun, Hno. cbn -[ClientService.applyResponse].
  rewrite applyResponse_mongo. rewrite Hstatus. simpl.
  unfold ClientService.buildUpdate, ClientService.hasNewVersion.
  rewrite Huri, Hstatus. simpl.
  apply truthy_string_true in Hne. rewrite Hne.
  destruct (ClientService.refreshFails env postId response); simpl;
    rewrite ?lookup_alter_eq, Hdoc; simpl; eexists; (split; [reflexivity |]); done.
Qed.

(** The same update on an [ACTIVE] post counts the version. *)
Lemma handlePostUpdate_active_counts_version
  (cfg : ClientService.Config) (env : ClientService.Env) (postId : string)
  (forceUpdate : option bool) (st : ClientService.State) (data doc : SmartMedia)
  (tpl : ClientService.Template) (response : TemplateHandlerResponse) (versionUri : string) :
  ClientService.getPost st postId = Some data →
  ClientService.templates st !! template data = Some tpl →
  ClientService.isDeleted env postId = false →
  ClientService.canUpdate env (creator data) (template data) = true →
  ClientService.runHandler env (template data) (Some data) (flag forceUpdate)
  = Ok (Some response) →
  ClientService.noUpdates response = Ok false →
  persistVersionUri response = Some versionUri → versionUri ≠ "" →
  ClientService.needsStatusUpdate data = false →
  ClientService.mongo_media st !! postId = Some doc →
  let st' := (ClientService.handlePostUpdate cfg env postId forceUpdate st).1 in
  ∃ doc',
    ClientService.mongo_media st' !! postId = Some doc'
    ∧ versions doc' = Some (default [] (versions doc) ++ [versionUri])
    ∧ versionCount doc' = Some (or_zero (versionCount data) + 1).
Proof.
  intros Hdata Htpl Hdel Hcan Hrun Hno Huri Hne Hstatus Hdoc. simpl.
  rewrite (handlePostUpdate_invokes_handler cfg env postId forceUpdate st data tpl) by done.
  cbv zeta. rewrite Hrun, Hno. cbn -[ClientService.applyResponse].
  rewrite applyResponse_mongo. rewrite Hstatus. simpl.
  unfold ClientService.buildUpdate, ClientService.hasNewVersion.
  rewrite Huri, Hstatus. simpl.
  apply truthy_string_true in Hne. rewrite Hne.
  destruct (ClientService.refreshFails env postId response); simpl;
    rewrite ?lookup_alter_eq, Hdoc; simpl; eexists; (split; [reflexivity |]); done.
Qed.

(** A [FAILED] post with three versions counted gets a fourth version and
    still counts three. *)
Lemma handlePostUpdate_reactivation_keeps_versionCount_witness :
  let env := Examples.serviceEnv 5000
               (Examples.growingEnv (Some "storj://post-1-version-3.json")) in
  let st := Examples.storeOf Examples.failedPost in
  let st' := (ClientService.handlePostUpdate Examples.cfg env "post-1" None st).1 in
  ∃ doc',
    ClientService.mongo_media st' !! "post-1" = Some doc'
    ∧ versions doc' = Some ["storj://post-1-version-3.json"]
    ∧ versionCount doc' = Some 3
    ∧ status doc' = Some ACTIVE.
Proof.
  intros env st st'.
  destruct (handlePostUpdate_reactivation_keeps_versionCount Examples.cfg env "post-1" None
              st (ClientService.project_last10 Examples.failedPost) Examples.failedPost
              Examples.gardenTemplate
              {| preview := None; metadata := None; refreshMetadata := Some true;
                 refreshCache := None;
                 persistVersionUri := Some "storj://post-1-version-3.json";
                 updatedTemplateData := None;
                 totalUsage := Some {| promptTokens := 12; completionTokens := 7;
                                       totalTokens := 19; imagesCreated := Some 1;
                                       videosCreated := None; videoCostParams := None;
                                       audioCharacters := None; customTokens := None |} |}
              "storj://post-1-version-3.json"
              eq_refl eq_refl eq_refl eq_refl eq_refl eq_refl eq_refl
              ltac:(discriminate) eq_refl eq_refl)
    as (doc' & Hdoc' & Hversions & Hcount).
  exists doc'. split; [exact Hdoc' |]. split; [exact Hversions |]. split; [exact Hcount |].
  subst st'. vm_compute in Hdoc'. injection Hdoc' as <-. reflexivity.
Defined.

(** The cached copy counts a version on every run that reaches [cachePost],
    also when the response brought no version URI: here the collection keeps
    count 3 and no version is pushed, and the cache says 4. *)
Example cachePost_counts_without_version :
  let env := Examples.serviceEnv 5000 (Examples.growingEnv None) in
  let st := Examples.storeOf Examples.heroPost in
  let st' := (ClientService.handlePostUpdate Examples.cfg env "post-1" None st).1 in
  versionCount <$> ClientService.mongo_media st' !! "post-1" = Some (Some 3)
  ∧ versions <$> ClientService.mongo_media st' !! "post-1" = Some None
  ∧ versionCount <$> ClientService.redis_posts st' !! "post-1" = Some (Some 4)
  ∧ versionCount <$> ClientService.getPost st' "post-1" = Some (Some 4).
Proof. vm_compute. repeat split; reflexivity. Qed.

(** C4, as stated, fails: a [FAILED] post is back to [ACTIVE] after a run
    whose response brings no version URI (caching the previous version
    failed), with [versions] and [versionCount] as before. *)
Lemma reactivation_without_version_push :
  let env := Examples.serviceEnv 5000 (Examples.growingEnv None) in
  let st := Examples.storeOf Examples.failedPost in
  let st' := (ClientService.handlePostUpdate Examples.cfg env "post-1" None st).1 in
  (persistVersionUri <$> (BonsaiGarden.handler (Examples.growingEnv None) 2
                            (ClientService.getPost st "post-1") false).1) = Some None
  ∧ status <$> ClientService.mongo_media st !! "post-1" = Some (Some FAILED)
  ∧ status <$> ClientService.mongo_media st' !! "post-1" = Some (Some ACTIVE)
  ∧ versions <$> ClientService.mongo_media st' !! "post-1"
    = versions <$> ClientService.mongo_media st !! "post-1"
  ∧ versionCount <$> ClientService.mongo_media st' !! "post-1"
    = versionCount <$> ClientService.mongo_media st !! "post-1".
Proof. vm_compute. repeat split; reflexivity. Qed.

(** C4, amended. A run that gets a usable response for a post it read as
    [FAILED] or [DISABLED] writes [ACTIVE], whether or not the response
    brings a version; when it does, the URI is appended in the same write.
    The status stays [ACTIVE] unless the metadata refresh of that run
    fails. *)
Theorem handlePostUpdate_reactivates_on_usable_response
  (cfg : ClientService.Config) (env : ClientService.Env) (postId : string)
  (forceUpdate : option bool) (st : ClientService.State) (data doc : SmartMedia)
  (tpl : ClientService.Template) (response : TemplateHandlerResponse) :
  ClientService.getPost st postId = Some data →
  ClientService.templates st !! template data = Some tpl →
  ClientService.isDeleted env postId = false →
  ClientService.canUpdate env (creator data) (template data) = true →
  ClientService.runHandler env (template data) (Some data) (flag forceUpdate)
  = Ok (Some response) →
  ClientService.noUpdates response = Ok false →
  ClientService.needsStatusUpdate data = true →
  ClientService.mongo_media st !! postId = Some doc →
  ClientService.refreshFails env postId response = false →
  let st' := (ClientService.handlePostUpdate cfg env postId forceUpdate st).1 in
  ∃ doc',
    ClientService.mongo_media st' !! postId = Some doc'
    ∧ status doc' = Some ACTIVE
    ∧ versions doc'
      = (if ClientService.hasNewVersion response
         then Some (default [] (versions doc) ++ [default "" (persistVersionUri response)])
         else versions doc).
Proof.
  intros Hdata Htpl Hdel Hcan Hrun Hno Hstatus Hdoc Hrefresh. simpl.
  rewrite (handlePostUpdate_invokes_handler cfg env postId forceUpdate st data tpl) by done.
  cbv zeta. rewrite Hrun, Hno. cbn -[ClientService.applyResponse].
  rewrite applyResponse_mongo. rewrite Hstatus, Hrefresh. simpl.
  rewrite lookup_alter_eq, Hdoc. simpl. eexists. split; [reflexivity |].
  unfold ClientService.buildUpdate. rewrite Hstatus.
  destruct (ClientService.hasNewVersion response) eqn:Hnew; simpl; [| done].
  split; [done |].
  unfold ClientService.hasNewVersion in Hnew.
  destruct (persistVersionUri response); [done | discriminate].
Qed.

(** The [FAILED] post of above, reactivated by a response without version. *)
Lemma handlePostUpdate_reactivates_on_usable_response_witness :
  let env := Examples.serviceEnv 5000 (Examples.growingEnv None) in
  let st := Examples.storeOf Examples.failedPost in
  let st' := (ClientService.handlePostUpdate Examples.cfg env "post-1" None st).1 in
  ∃ doc',
    ClientService.mongo_media st' !! "post-1" = Some doc'
    ∧ status doc' = Some ACTIVE
    ∧ versions doc' = None.
Proof.
  intros env st st'.
  exact (handlePostUpdate_reactivates_on_usable_response Examples.cfg env "post-1" None st
           (ClientService.project_last10 Examples.failedPost) Examples.failedPost
           Examples.gardenTemplate
           {| preview := None; metadata := None; refreshMetadata := Some true;
              refreshCache := None; persistVersionUri := None;
              updatedTemplateData := None;
              totalUsage := Some {| promptTokens := 12; completionTokens := 7;
                                    totalTokens := 19; imagesCreated := Some 1;
                                    videosCreated := None; videoCostParams := None;
                                    audioCharacters := None; customTokens := None |} |}
           eq_refl eq_refl eq_refl eq_refl eq_refl eq_refl eq_refl eq_refl eq_refl).
Defined.

(** ** The update route *)

Section RouteFacts.

Import ClientService.

Variable cfg : Config.
Variable env : Env.

(** The handler invocations after a job of [handlePostUpdate] that gets past
    the gates: one more. *)
Lemma handlePostUpdate_handlerRuns (postId : string) (forceUpdate : option bool)
  (st : State) (data : SmartMedia) (tpl : Template) :
  getPost st postId = Some data →
  templates st !! template data = Some tpl →
  isDeleted env postId = false →
  canUpdate env (creator data) (template data) = true →
  handlerRuns (log (handlePostUpdate cfg env postId forceUpdate st).1)
  = handlerRuns (log st) ++ [EvHandler (template data) (Some data) (flag forceUpdate)].
Proof.
  intros Hdata Htpl Hdel Hcan.
  rewrite (handlePostUpdate_invokes_handler cfg env postId forceUpdate st data tpl) by done.
  cbv zeta.
  set (st1 := emit _ st).
  assert (handlerRuns (log st1)
          = handlerRuns (log st) ++ [EvHandler (template data) (Some data) (flag forceUpdate)])
    as Hst1.
  { subst st1. unfold handlerRuns, emit. simpl. by rewrite filter_app. }
  destruct (runHandler env (template data) (Some data) (flag forceUpdate))
    as [[response |] | e]; cbn -[applyResponse freezeIfOverdue]; try done.
  - destruct (noUpdates response) as [[|] | e]; cbn -[applyResponse freezeIfOverdue];
      try done.
    + by rewrite freezeIfOverdue_log.
    + by rewrite applyResponse_handlerRuns.
  - by rewrite freezeIfOverdue_log.
Qed.

End RouteFacts.




(** * Further properties of the code *)

(** ** Strings: take, drop, substring *)

Section StringFacts.

Lemma append_cons (c : Ascii.ascii) (s t : string) : String c s +:+ t = String c (s +:+ t).
Proof. reflexivity. Qed.

Lemma append_empty_r (s : string) : s +:+ "" = s.
Proof. induction s as [| c s IH]; [done |]. by rewrite append_cons, IH. Qed.

Lemma append_assoc (s t u : string) : (s +:+ t) +:+ u = s +:+ t +:+ u.
Proof. induction s as [| c s IH]; [done |]. by rewrite !append_cons, IH. Qed.

Lemma length_append (s t : string) :
  String.length (s +:+ t) = (String.length s + String.length t)%nat.
Proof. induction s as [| c s IH]; [done |]. rewrite append_cons. simpl. by rewrite IH. Qed.

Lemma string_take_drop (n : nat) (s : string) : string_take n s +:+ string_drop n s = s.
Proof.
  revert s. induction n as [| n IH]; intros [| c s]; try done.
  simpl. by rewrite append_cons, IH.
Qed.

Lemma length_string_take (n : nat) (s : string) :
  String.length (string_take n s) = Nat.min n (String.length s).
Proof.
  revert s. induction n as [| n IH]; intros [| c s]; try done. simpl. by rewrite IH.
Qed.

Lemma length_string_drop (n : nat) (s : string) :
  String.length (string_drop n s) = (String.length s - n)%nat.
Proof. by destruct (string_drop_suffix n s) as (_ & _ & ?). Qed.

Lemma string_drop_all (n : nat) (s : string) :
  (String.length s ≤ n)%nat → string_drop n s = "".
Proof.
  revert s. induction n as [| n IH]; intros [| c s] H; simpl in *; try done; [lia |].
  apply IH. lia.
Qed.

Lemma string_drop_drop (n m : nat) (s : string) :
  string_drop n (string_drop m s) = string_drop (m + n) s.
Proof.
  revert s. induction m as [| m IH]; intros s; [done |].
  destruct s as [| c s]; simpl; [by destruct n | apply IH].
Qed.

Lemma string_drop_take (n m : nat) (s : string) :
  string_drop n (string_take m s) = string_take (m - n) (string_drop n s).
Proof.
  revert m s. induction n as [| n IH]; intros m s; simpl.
  - by rewrite Nat.sub_0_r.
  - destruct m as [| m]; destruct s as [| c s]; simpl; try done.
    by destruct (m - n)%nat.
Qed.

(** Within the string, [substring] is a take after a drop. *)
Lemma substring_in_range (a b : Z) (s : string) :
  0 <= a <= b → b <= Z.of_nat (String.length s) →
  substring a b s = string_take (Z.to_nat (b - a)) (string_drop (Z.to_nat a) s).
Proof.
  intros Hab Hb. unfold substring.
  replace (Z.max 0 (Z.min a (Z.of_nat (String.length s)))) with a by lia.
  replace (Z.max 0 (Z.min b (Z.of_nat (String.length s)))) with b by lia.
  by replace (Z.min a b) with a by lia; replace (Z.max a b) with b by lia.
Qed.

Lemma length_substring (a b : Z) (s : string) :
  0 <= a <= b → b <= Z.of_nat (String.length s) →
  Z.of_nat (String.length (substring a b s)) = b - a.
Proof.
  intros Hab Hb. rewrite substring_in_range by done.
  rewrite length_string_take, length_string_drop. lia.
Qed.

Lemma substring_occurs (a b : Z) (s : string) :
  0 <= a <= b → b <= Z.of_nat (String.length s) → Spec.occursIn (substring a b s) s.
Proof.
  intros Hab Hb. rewrite substring_in_range by done.
  exists (string_take (Z.to_nat a) s),
         (string_drop (Z.to_nat (b - a)) (string_drop (Z.to_nat a) s)).
  by rewrite string_take_drop, string_take_drop.
Qed.

(** Whatever its arguments, [substring] gives a piece of the string. *)
Lemma substring_always_occurs (a b : Z) (s : string) : Spec.occursIn (substring a b s) s.
Proof.
  unfold substring.
  set (from := Z.to_nat _). set (n := Z.to_nat _).
  exists (string_take n s), (string_drop from (string_drop n s)).
  by rewrite !string_take_drop.
Qed.

(** A piece and what follows it make up the rest of the string. *)
Lemma substring_then_rest (p e : Z) (s : string) :
  0 <= p <= e → e <= Z.of_nat (String.length s) →
  substring p e s +:+ string_drop (Z.to_nat e) s = string_drop (Z.to_nat p) s.
Proof.
  intros Hpe He. rewrite substring_in_range by done.
  replace (Z.to_nat e) with (Z.to_nat p + Z.to_nat (e - p))%nat by lia.
  rewrite <- string_drop_drop. apply string_take_drop.
Qed.

(** Dropping [n] code units off a piece. *)
Lemma string_drop_substring (n : nat) (a e : Z) (s : string) :
  0 <= a <= e → e <= Z.of_nat (String.length s) →
  string_drop n (substring a e s) = substring (Z.min (a + Z.of_nat n) e) e s.
Proof.
  intros Hae He. rewrite !substring_in_range by lia.
  rewrite string_drop_take, string_drop_drop.
  destruct (Z.le_gt_cases (a + Z.of_nat n) e) as [Hle | Hgt].
  - replace (Z.min (a + Z.of_nat n) e) with (a + Z.of_nat n) by lia.
    f_equal; [lia | f_equal; lia].
  - replace (Z.min (a + Z.of_nat n) e) with e by lia.
    replace (Z.to_nat (e - a) - n)%nat with 0%nat by lia.
    by replace (Z.to_nat (e - e)) with 0%nat by lia.
Qed.

End StringFacts.

(** ** Splitting a text into chunks

    First the loop on integers. *)

Section SplitFacts.

Import Generation.

Variable content : string.
Variables chunkSize bleed : Z.

#[local] Abbreviation len := (Z.of_nat (String.length content)).
#[local] Abbreviation loop := (λ fuel, Spec.splitLoopZ fuel content chunkSize bleed).
#[local] Abbreviation endOf := (λ start : Z, Z.min (start + chunkSize) len).
#[local] Abbreviation next := (λ start : Z, Z.max (endOf start - bleed) (start + 1)).
#[local] Abbreviation piece :=
  (λ start : Z, if start <? endOf start then [substring start (endOf start) content] else []).

Lemma splitLoopZ_accumulates (fuel : nat) (start : Z) (acc : list string) :
  loop fuel start acc = (acc ++.) <$> loop fuel start [].
Proof.
  revert start acc. induction fuel as [| fuel IH]; intros start acc; simpl.
  - destruct (start <? len); simpl; [done | by rewrite app_nil_r].
  - destruct (start <? len); simpl; [| by rewrite app_nil_r].
    rewrite IH. rewrite (IH _ (if _ <? _ then _ else _)).
    destruct (start <? endOf start); simpl;
      destruct (Spec.splitLoopZ fuel content chunkSize bleed _ []); simpl; try done.
    by rewrite <- app_assoc.
Qed.

Lemma splitLoopZ_step (fuel : nat) (start : Z) :
  start < len →
  loop (S fuel) start [] = (piece start ++.) <$> loop fuel (next start) [].
Proof.
  intros Hlt. simpl. destruct (Z.ltb_spec start len); [| lia].
  rewrite splitLoopZ_accumulates. by destruct (start <? endOf start).
Qed.

Lemma splitLoopZ_done (fuel : nat) (start : Z) (acc : list string) :
  len <= start → loop fuel start acc = Some acc.
Proof. intros Hge. destruct fuel; simpl; by destruct (Z.ltb_spec start len); [lia |]. Qed.

(** Each iteration moves [start] forward, so the loop ends. *)
Lemma splitLoopZ_terminates (fuel : nat) (start : Z) :
  (Z.to_nat (len - start) ≤ fuel)%nat → is_Some (loop fuel start []).
Proof.
  revert start. induction fuel as [| fuel IH]; intros start Hfuel.
  - rewrite splitLoopZ_done by lia. by eexists.
  - destruct (Z.lt_ge_cases start len) as [Hlt | Hge].
    + rewrite splitLoopZ_step by done.
      destruct (IH (next start)) as [rest ->]; [lia |]. by eexists.
    + rewrite splitLoopZ_done by lia. by eexists.
Qed.

Lemma splitLoopZ_fuel (fuel1 fuel2 : nat) (start : Z) (chunks : list string) :
  loop fuel1 start [] = Some chunks → (fuel1 ≤ fuel2)%nat →
  loop fuel2 start [] = Some chunks.
Proof.
  revert fuel2 start chunks. induction fuel1 as [| fuel1 IH]; intros fuel2 start chunks H Hle.
  - simpl in H. destruct (Z.ltb_spec start len); [done |].
    injection H as <-. by apply splitLoopZ_done.
  - destruct (Z.lt_ge_cases start len) as [Hlt | Hge].
    + destruct fuel2 as [| fuel2]; [lia |].
      rewrite splitLoopZ_step in * by done.
      destruct (loop fuel1 (next start) []) as [rest |] eqn:Hrest; [| done].
      by rewrite (IH fuel2 _ rest Hrest) by lia.
    + rewrite splitLoopZ_done in * by done. done.
Qed.

(** What the loop pushes: pieces of the content, not empty and not longer
    than the chunk size. *)
Lemma splitLoopZ_chunks (fuel : nat) (start : Z) (chunks : list string) :
  0 <= start →
  loop fuel start [] = Some chunks →
  Forall (λ chunk, (0 < String.length chunk)%nat
                   ∧ Z.of_nat (String.length chunk) <= chunkSize
                   ∧ Spec.occursIn chunk content) chunks.
Proof.
  revert start chunks. induction fuel as [| fuel IH]; intros start chunks Hstart H.
  - simpl in H. destruct (start <? len); [done |]. injection H as <-. constructor.
  - destruct (Z.lt_ge_cases start len) as [Hlt | Hge].
    2:{ rewrite splitLoopZ_done in H by done. injection H as <-. constructor. }
    rewrite splitLoopZ_step in H by done.
    destruct (loop fuel (next start) []) as [rest |] eqn:Hrest; [| done].
    injection H as <-. apply Forall_app. split; [| apply (IH (next start)); [lia | done]].
    destruct (Z.ltb_spec start (endOf start)) as [Hpush | _]; [| constructor].
    constructor; [| constructor].
    pose proof (length_substring start (endOf start) content ltac:(lia) ltac:(lia)).
    split; [lia |]. split; [lia |].
    apply substring_occurs; lia.
Qed.

(** With an overlap smaller than the chunk size, the chunks from [start] on,
    each without its first [bleed] code units, make up the content from
    [bleed] after [start] on. *)
Lemma splitLoopZ_cover (fuel : nat) (start : Z) (chunks : list string) :
  0 <= bleed < chunkSize → 0 <= start →
  loop fuel start [] = Some chunks →
  Spec.joined (string_drop (Z.to_nat bleed) <$> chunks)
  = string_drop (Z.to_nat (Z.min (start + bleed) len)) content.
Proof.
  intros Hbleed. revert start chunks.
  induction fuel as [| fuel IH]; intros start chunks Hstart H.
  - simpl in H. destruct (Z.ltb_spec start len); [done |]. injection H as <-.
    simpl. symmetry. apply string_drop_all. lia.
  - destruct (Z.lt_ge_cases start len) as [Hlt | Hge].
    2:{ rewrite splitLoopZ_done in H by done. injection H as <-.
        simpl. symmetry. apply string_drop_all. lia. }
    rewrite splitLoopZ_step in H by done.
    destruct (loop fuel (next start) []) as [rest |] eqn:Hrest; [| done].
    injection H as <-.
    destruct (Z.ltb_spec start (endOf start)) as [_ | ?]; [| lia].
    rewrite fmap_app, fmap_cons, fmap_nil. simpl.
    rewrite (IH (next start) rest) by (done || lia).
    rewrite string_drop_substring by lia.
    rewrite Z2Nat.id by lia.
    replace (Z.min (next start + bleed) len) with (endOf start) by lia.
    replace (Z.min (start + bleed) (endOf start)) with (Z.min (start + bleed) len) by lia.
    apply substring_then_rest; lia.
Qed.

End SplitFacts.

(** The loop of [splitText] ends within one iteration per code unit, and
    its chunks are pieces of the content. *)
Lemma splitTextZ_run (content : string) (chunkSize bleed : Z) :
  Spec.splitLoopZ (String.length content) content chunkSize bleed 0 []
  = Some (Spec.splitTextZ content chunkSize bleed)
  ∧ Forall (λ chunk, (0 < String.length chunk)%nat
                     ∧ Z.of_nat (String.length chunk) <= chunkSize
                     ∧ Spec.occursIn chunk content)
      (Spec.splitTextZ content chunkSize bleed).
Proof.
  unfold Spec.splitTextZ.
  destruct (splitLoopZ_terminates content chunkSize bleed (String.length content) 0)
    as [chunks Hchunks]; [lia |].
  rewrite Hchunks. simpl. split; [done |].
  by apply (splitLoopZ_chunks content chunkSize bleed (String.length content) 0 chunks
              ltac:(lia)).
Qed.

(** The chunks cover the content when the overlap is below the chunk size. *)
Lemma splitTextZ_cover (content : string) (chunkSize bleed : Z) :
  0 <= bleed < chunkSize →
  Spec.joined (Spec.withoutOverlap bleed (Spec.splitTextZ content chunkSize bleed))
  = content.
Proof.
  intros Hbleed. unfold Spec.splitTextZ.
  destruct (String.length content) as [| n] eqn:Hlen.
  - destruct content; [done | discriminate].
  - rewrite splitLoopZ_step by (rewrite Hlen; lia).
    destruct (splitLoopZ_terminates content chunkSize bleed n
                (Z.max (Z.min (0 + chunkSize) (Z.of_nat (String.length content)) - bleed)
                       (0 + 1))) as [rest Hrest]; [lia |].
    rewrite Hlen in *. rewrite Hrest. simpl.
    set (e := Z.min (0 + chunkSize) (Z.of_nat (S n))) in *.
    set (start1 := Z.max (e - bleed) (0 + 1)) in *.
    pose proof (splitLoopZ_cover content chunkSize bleed n start1 rest Hbleed
                  ltac:(unfold start1; lia)) as Hc.
    rewrite Hlen in Hc. specialize (Hc Hrest).
    destruct (Z.ltb_spec 0 e) as [_ | ?]; [| unfold e in *; lia].
    simpl. rewrite Hc.
    replace (Z.min (start1 + bleed) (Z.of_nat (S n))) with e
      by (unfold start1, e; lia).
    rewrite substring_then_rest by (rewrite ?Hlen; unfold e; lia). done.
Qed.

(** Then the loop on numbers. *)

Section NumberFacts.

Import QArith_base Qround.
#[local] Open Scope Z_scope.

Lemma num_le_Fin (x y : Q) : num_le (Fin x) (Fin y) = true ↔ (x <= y)%Q.
Proof. apply Qle_bool_iff. Qed.

Lemma num_le_Fin_false (x y : Q) : num_le (Fin x) (Fin y) = false ↔ (y < x)%Q.
Proof.
  simpl. destruct (Qle_bool x y) eqn:H.
  - apply Qle_bool_iff in H. split; [done |]. intros ?%Qlt_not_le. done.
  - split; [| done]. intros _. apply Qnot_le_lt. intros ?%Qle_bool_iff. congruence.
Qed.

Lemma num_lt_Fin (x y : Q) : num_lt (Fin x) (Fin y) = true ↔ (x < y)%Q.
Proof.
  unfold num_lt. rewrite negb_true_iff. apply num_le_Fin_false.
Qed.

Lemma num_lt_Fin_false (x y : Q) : num_lt (Fin x) (Fin y) = false ↔ (y <= x)%Q.
Proof. unfold num_lt. rewrite negb_false_iff. apply num_le_Fin. Qed.

Lemma integral_of_Z (z : Z) : Spec.integral (num_of_Z z) z.
Proof. by exists (inject_Z z). Qed.

Lemma integral_le (a b : number) (s t : Z) :
  Spec.integral a s → Spec.integral b t → num_le a b = (s <=? t).
Proof.
  intros (x & -> & Hx) (y & -> & Hy).
  destruct (Z.leb_spec s t) as [Hle | Hgt].
  - apply num_le_Fin. rewrite Hx, Hy. by rewrite <- Zle_Qle.
  - apply num_le_Fin_false. rewrite Hx, Hy. by rewrite <- Zlt_Qlt.
Qed.

Lemma integral_lt (a b : number) (s t : Z) :
  Spec.integral a s → Spec.integral b t → num_lt a b = (s <? t).
Proof.
  intros Ha Hb. pose proof (integral_le b a t s Hb Ha) as Hle.
  destruct Ha as (x & -> & Hx), Hb as (y & -> & Hy).
  unfold num_lt. rewrite Hle. destruct (Z.leb_spec t s), (Z.ltb_spec s t); (done || lia).
Qed.

Lemma integral_add (a b : number) (s t : Z) :
  Spec.integral a s → Spec.integral b t → Spec.integral (num_add a b) (s + t).
Proof.
  intros (x & -> & Hx) (y & -> & Hy). eexists. split; [done |].
  by rewrite Hx, Hy, inject_Z_plus.
Qed.

Lemma integral_sub (a b : number) (s t : Z) :
  Spec.integral a s → Spec.integral b t → Spec.integral (num_sub a b) (s - t).
Proof.
  intros (x & -> & Hx) (y & -> & Hy). eexists. split; [done |].
  rewrite Hx, Hy. unfold Z.sub. by rewrite inject_Z_plus, inject_Z_opp.
Qed.

Lemma integral_min (a b : number) (s t : Z) :
  Spec.integral a s → Spec.integral b t → Spec.integral (num_min a b) (Z.min s t).
Proof.
  intros Ha Hb. pose proof (integral_le a b s t Ha Hb) as Hle.
  destruct Ha as (x & -> & Hx), Hb as (y & -> & Hy).
  unfold num_min. rewrite Hle.
  destruct (Z.leb_spec s t); eexists; (split; [done |]).
  - by replace (Z.min s t) with s by lia.
  - by replace (Z.min s t) with t by lia.
Qed.

Lemma integral_max (a b : number) (s t : Z) :
  Spec.integral a s → Spec.integral b t → Spec.integral (num_max a b) (Z.max s t).
Proof.
  intros Ha Hb. pose proof (integral_le a b s t Ha Hb) as Hle.
  destruct Ha as (x & -> & Hx), Hb as (y & -> & Hy).
  unfold num_max. rewrite Hle.
  destruct (Z.leb_spec s t); eexists; (split; [done |]).
  - by replace (Z.max s t) with t by lia.
  - by replace (Z.max s t) with s by lia.
Qed.

Lemma to_index_integral (len : nat) (a : number) (s : Z) :
  Spec.integral a s → to_index len a = s.
Proof.
  intros (x & -> & Hx). simpl.
  destruct (Qle_bool 0 x); rewrite Hx; [apply Qfloor_Z | apply Qceiling_Z].
Qed.

Lemma substring_num_integral (a b : number) (s t : Z) (content : string) :
  Spec.integral a s → Spec.integral b t →
  substring_num a b content = substring s t content.
Proof.
  intros Ha Hb. unfold substring_num.
  by rewrite (to_index_integral _ a s), (to_index_integral _ b t).
Qed.

Lemma Qfloor_succ (x y : Q) : (x + 1 <= y)%Q → Qfloor x + 1 <= Qfloor y.
Proof.
  intros Hxy.
  rewrite <- (Qfloor_Z (Qfloor x + 1)). apply Qfloor_resp_le.
  rewrite inject_Z_plus. pose proof (Qfloor_le x) as Hfloor.
  change (inject_Z 1) with 1%Q.
  eapply Qle_trans; [| exact Hxy]. by apply Qplus_le_compat; [| apply Qle_refl].
Qed.

Lemma Qfloor_below (x : Q) (n : Z) : (x < inject_Z n)%Q → Qfloor x < n.
Proof.
  intros Hx. rewrite Zlt_Qlt. eapply Qle_lt_trans; [apply Qfloor_le | done].
Qed.

End NumberFacts.

Section SplitNumberFacts.

Import QArith_base Qround Generation.
#[local] Open Scope Z_scope.

Variable content : string.
Variables chunkSize bleed : number.

#[local] Abbreviation len := (num_of_Z (Z.of_nat (String.length content))).
#[local] Abbreviation loop := (λ fuel, splitLoop fuel content chunkSize bleed).
#[local] Abbreviation endOf := (λ start, num_min (num_add start chunkSize) len).
#[local] Abbreviation next :=
  (λ start, num_max (num_sub (endOf start) bleed) (num_add start (num_of_Z 1))).

(** The next [start] is at least one code unit further, or the loop is
    about to end. *)
Lemma withinReach_next (fuel : nat) (start : number) :
  Spec.withinReach content (S fuel) start → num_lt start len = true →
  Spec.withinReach content fuel (next start).
Proof.
  destruct start as [q | | |]; try done. intros Hreach Hlt.
  unfold Spec.withinReach in *.
  assert (∀ y, (q + 1 <= y)%Q →
            Z.of_nat (String.length content) - Qfloor y <= Z.of_nat fuel) as Hstep.
  { intros y Hy. pose proof (Qfloor_succ q y Hy). lia. }
  destruct (num_sub (endOf (Fin q)) bleed) as [y | | |];
    cbn [num_max num_add num_le num_of_Z].
  - change (inject_Z 1) with 1%Q.
    destruct (Qle_bool y (q + 1)) eqn:Hle.
    + apply Hstep. apply Qle_refl.
    + apply Hstep. apply Qlt_le_weak.
      by apply (num_le_Fin_false y (q + 1)%Q).
  - done.
  - apply Hstep. apply Qle_refl.
  - done.
Qed.

(** Each iteration moves [start] forward, so the loop ends, whatever the
    chunk size and the bleed. *)
Lemma splitLoop_ends (fuel : nat) (start : number) (acc : list string) :
  Spec.withinReach content fuel start → is_Some (loop fuel start acc).
Proof.
  revert start acc. induction fuel as [| fuel IH]; intros start acc Hreach; simpl.
  - destruct (num_lt start len) eqn:Hlt; [| by eexists].
    destruct start as [q | | |]; try done. exfalso.
    apply num_lt_Fin, Qfloor_below in Hlt. simpl in Hreach. lia.
  - destruct (num_lt start len) eqn:Hlt; [| by eexists].
    apply IH. by apply withinReach_next.
Qed.

Lemma splitLoop_more_fuel (fuel1 fuel2 : nat) (start : number) (acc chunks : list string) :
  loop fuel1 start acc = Some chunks → (fuel1 ≤ fuel2)%nat →
  loop fuel2 start acc = Some chunks.
Proof.
  revert fuel2 start acc. induction fuel1 as [| fuel1 IH]; intros fuel2 start acc H Hle.
  - simpl in H. destruct (num_lt start len) eqn:Hlt; [done |].
    destruct fuel2; simpl; by rewrite Hlt.
  - destruct fuel2 as [| fuel2]; [lia |]. simpl in *.
    destruct (num_lt start len); [| done]. apply IH; [done | lia].
Qed.

(** What the loop pushes are pieces of the content, at most one for each
    iteration. *)
Lemma splitLoop_pieces (fuel : nat) (start : number) (acc chunks : list string) :
  loop fuel start acc = Some chunks →
  (Forall (λ chunk, Spec.occursIn chunk content) acc →
   Forall (λ chunk, Spec.occursIn chunk content) chunks)
  ∧ (length chunks ≤ length acc + fuel)%nat.
Proof.
  revert start acc. induction fuel as [| fuel IH]; intros start acc H; simpl in H.
  - destruct (num_lt start len); [done |]. injection H as <-. split; [done | lia].
  - destruct (num_lt start len); [| injection H as <-; split; [done | lia]].
    destruct (IH _ _ H) as [Hocc Hcount]. split.
    + intros Hacc. apply Hocc. destruct (num_lt start (endOf start)); [| done].
      apply Forall_app. split; [done |]. constructor; [| constructor].
      apply substring_always_occurs.
    + destruct (num_lt start (endOf start)); [| lia].
      rewrite length_app in Hcount. simpl in Hcount. lia.
Qed.

(** A chunk size that is not above zero ([NaN] included) pushes nothing. *)
Lemma splitLoop_nothing (fuel : nat) (start : number) (acc chunks : list string) :
  num_lt (num_of_Z 0) chunkSize = false →
  loop fuel start acc = Some chunks → chunks = acc.
Proof.
  intros Hsize. revert start acc.
  induction fuel as [| fuel IH]; intros start acc H; simpl in H.
  - destruct (num_lt start len); [done |]. by injection H as <-.
  - destruct (num_lt start len) eqn:Hlt; [| by injection H as <-].
    assert (num_lt start (endOf start) = false) as Hnone.
    { destruct start as [q | | |], chunkSize as [c | | |]; try done.
      - apply num_lt_Fin in Hlt. apply num_lt_Fin_false in Hsize.
        change (inject_Z 0) with 0%Q in Hsize.
        unfold num_add, num_min.
        destruct (num_le (Fin (q + c)%Q) len) eqn:Hle.
        + apply num_lt_Fin_false. Lqa.lra.
        + apply num_le_Fin_false in Hle. exfalso. Lqa.lra. }
    rewrite Hnone in H. by apply (IH _ _ H).
Qed.

End SplitNumberFacts.

(** On integers the loop on numbers is the loop on integers. *)
Lemma splitLoop_integers (content : string) (chunkSize bleed : Z) (fuel : nat)
  (a : number) (start : Z) (acc : list string) :
  Spec.integral a start →
  Generation.splitLoop fuel content (num_of_Z chunkSize) (num_of_Z bleed) a acc
  = Spec.splitLoopZ fuel content chunkSize bleed start acc.
Proof.
  revert a start acc. induction fuel as [| fuel IH]; intros a start acc Ha; simpl.
  - by rewrite (integral_lt a _ start _ Ha (integral_of_Z _)).
  - rewrite (integral_lt a _ start _ Ha (integral_of_Z _)).
    destruct (start <? Z.of_nat (String.length content)); [| done].
    pose proof (integral_min _ _ _ _
                  (integral_add _ _ _ _ Ha (integral_of_Z chunkSize))
                  (integral_of_Z (Z.of_nat (String.length content)))) as Hend.
    rewrite (integral_lt _ _ _ _ Ha Hend).
    rewrite (substring_num_integral _ _ _ _ content Ha Hend).
    apply IH. apply integral_max.
    + by apply integral_sub; [| apply integral_of_Z].
    + by apply integral_add; [| apply integral_of_Z].
Qed.

Lemma splitText_integers (content : string) (chunkSize bleed : Z) :
  Generation.splitText content (num_of_Z chunkSize) (num_of_Z bleed)
  = Spec.splitTextZ content chunkSize bleed.
Proof.
  unfold Generation.splitText, Spec.splitTextZ.
  by rewrite (splitLoop_integers _ _ _ _ _ 0 [] (integral_of_Z 0)).
Qed.

(** What holds of [splitText] for every chunk size and bleed. *)
Lemma splitText_any_numbers (content : string) (chunkSize bleed : number) :
  let chunks := Generation.splitText content chunkSize bleed in
  (∀ fuel, (String.length content ≤ fuel)%nat →
           Generation.splitLoop fuel content chunkSize bleed (num_of_Z 0) [] = Some chunks)
  ∧ Forall (λ chunk, Spec.occursIn chunk content) chunks
  ∧ (length chunks ≤ String.length content)%nat
  ∧ (num_lt (num_of_Z 0) chunkSize = false → chunks = []).
Proof.
  intros chunks. subst chunks. unfold Generation.splitText.
  destruct (splitLoop_ends content chunkSize bleed (String.length content) (num_of_Z 0) [])
    as [chunks Hchunks].
  { unfold Spec.withinReach, num_of_Z. rewrite Qround.Qfloor_Z. lia. }
  rewrite Hchunks. simpl. split; [| split; [| split]].
  - intros fuel Hfuel. by eapply splitLoop_more_fuel.
  - by apply (splitLoop_pieces _ _ _ _ _ _ _ Hchunks).
  - by apply (splitLoop_pieces _ _ _ _ _ _ _ Hchunks).
  - intros Hsize. by apply (splitLoop_nothing _ _ _ _ _ _ _ Hsize Hchunks).
Qed.

(** A quarter of an integer, rounded down, is the integer quotient. *)
Lemma quarter_of_Z (size : Z) :
  num_floor (num_div (num_of_Z size) 4) = num_of_Z (size / 4).
Proof. unfold num_floor, num_div, num_of_Z. by rewrite Qround.Zdiv_Qdiv. Qed.

(** The sizes [splitChunks] settles on, for integers. *)
Lemma effective_integers (chunkSize bleed : Z) :
  let size := if chunkSize <=? 0 then 1500 else chunkSize in
  0 < size
  ∧ Generation.effectiveChunkSize (num_of_Z chunkSize) = num_of_Z size
  ∧ Generation.effectiveBleed (num_of_Z chunkSize) (num_of_Z bleed)
    = num_of_Z (if size <=? bleed then size / 4 else if bleed <? 0 then 100 else bleed).
Proof.
  intros size.
  assert (0 < size) as Hpos by (subst size; destruct (Z.leb_spec chunkSize 0); lia).
  assert (Generation.effectiveChunkSize (num_of_Z chunkSize) = num_of_Z size) as Hsize.
  { unfold Generation.effectiveChunkSize.
    rewrite (integral_le _ _ chunkSize 0) by apply integral_of_Z. subst size.
    by destruct (chunkSize <=? 0). }
  split; [done |]. split; [done |]. unfold Generation.effectiveBleed. rewrite Hsize.
  rewrite (integral_le _ _ size bleed) by apply integral_of_Z.
  destruct (Z.leb_spec size bleed).
  - rewrite quarter_of_Z.
    rewrite (integral_lt _ _ (size / 4) 0) by apply integral_of_Z.
    pose proof (Z.div_pos size 4 ltac:(lia) ltac:(lia)).
    by destruct (Z.ltb_spec (size / 4) 0); [lia |].
  - rewrite (integral_lt _ _ bleed 0) by apply integral_of_Z.
    by destruct (bleed <? 0).
Qed.

(** [splitText] leaves its loop within one iteration per code unit of the
    content, for any chunk size and bleed, numbers that are not integers,
    the infinities and [NaN] included, and more fuel changes nothing. Every
    chunk is a piece of the content, and there are at most as many chunks as
    code units. A chunk size that is not above zero gives no chunk, and so
    does an empty content. When the chunk size and the bleed are integers
    every chunk is non-empty and has at most [chunkSize] code units. *)
Theorem splitText_chunks_bounded (content : string) (chunkSize bleed : number) :
  let chunks := Generation.splitText content chunkSize bleed in
  (∀ fuel, (String.length content ≤ fuel)%nat →
           Generation.splitLoop fuel content chunkSize bleed (num_of_Z 0) [] = Some chunks)
  ∧ Forall (λ chunk, Spec.occursIn chunk content) chunks
  ∧ (length chunks ≤ String.length content)%nat
  ∧ (num_lt (num_of_Z 0) chunkSize = false → chunks = [])
  ∧ (content = "" → chunks = [])
  ∧ (∀ size overlap : Z,
       chunkSize = num_of_Z size → bleed = num_of_Z overlap →
       Forall (λ chunk, (0 < String.length chunk)%nat
                        ∧ Z.of_nat (String.length chunk) <= size) chunks).
Proof.
  intros chunks.
  destruct (splitText_any_numbers content chunkSize bleed)
    as (Hrun & Hpieces & Hcount & Hnone).
  fold chunks in Hrun, Hpieces, Hcount, Hnone.
  split_and!; try done.
  - intros ->. by destruct chunks; [| simpl in Hcount; lia].
  - intros size overlap -> ->. subst chunks. rewrite splitText_integers.
    destruct (splitTextZ_run content size overlap) as [_ Hall].
    eapply Forall_impl; [exact Hall |]. by intros chunk (? & ? & _).
Qed.

(** Chunks of half a code unit are empty, and a chunk size of one and a
    half gives a chunk of two code units. *)
Example splitText_half_a_unit :
  Generation.splitText "abc" (Fin (QArith_base.Qmake 1 2)) (num_of_Z 0) = [""; ""; ""]
  ∧ Generation.splitText "abc" (Fin (QArith_base.Qmake 3 2)) (num_of_Z 0) = ["a"; "bc"]
  ∧ Generation.splitText "abc" NaN (num_of_Z 0) = []
  ∧ Generation.splitText "abc" PosInf NaN = ["abc"].
Proof. by vm_compute. Qed.

(** With integers [0 <= bleed < chunkSize] the chunks of [splitText] cover
    the content: consecutive chunks overlap, and the first chunk followed by
    the others without their first [bleed] code units is the content again.
    With no overlap the chunks put end to end are the content. *)
Theorem splitText_covers_content (content : string) (chunkSize bleed : Z) :
  0 <= bleed < chunkSize →
  let chunks := Generation.splitText content (num_of_Z chunkSize) (num_of_Z bleed) in
  Spec.joined (Spec.withoutOverlap bleed chunks) = content
  ∧ (bleed = 0 → Spec.joined chunks = content).
Proof.
  intros Hbleed chunks.
  pose proof (splitTextZ_cover content chunkSize bleed Hbleed) as Hcover.
  rewrite <- splitText_integers in Hcover.
  fold chunks in Hcover. split; [done |].
  intros ->. etransitivity; [| exact Hcover]. clear Hcover. clearbody chunks.
  unfold Spec.withoutOverlap.
  destruct chunks as [| first rest]; [done |]. simpl. do 2 f_equal.
  induction rest as [| c rest IH]; [done |]. rewrite fmap_cons. simpl. by rewrite <- IH.
Qed.

(** Ten code units in chunks of four that overlap by two. Once the end of
    the content is reached the loop goes on one code unit at a time, so the
    last chunks are tails of the content. *)
Example splitText_ten_by_four :
  Generation.splitText "abcdefghij" (num_of_Z 4) (num_of_Z 2)
  = ["abcd"; "cdef"; "efgh"; "ghij"; "ij"; "j"].
Proof. by vm_compute. Qed.

Lemma splitText_covers_content_witness :
  0 <= 2 < 4
  ∧ Spec.joined (Spec.withoutOverlap 2
                   (Generation.splitText "abcdefghij" (num_of_Z 4) (num_of_Z 2)))
    = "abcdefghij".
Proof.
  split; [lia |].
  apply (splitText_covers_content "abcdefghij" 4 2). lia.
Defined.

(** [splitChunks] never hands [splitText] a chunk size that is zero or
    below, nor a negative bleed, whatever numbers it is given. For integers,
    absent ones standing for 1500 and 100: a chunk size that is not positive
    is replaced by 1500; then a bleed that is not below the chunk size is
    replaced by a quarter of the chunk size, rounded down, a negative bleed
    by 100, and any other bleed is kept. The chunks are then non-empty
    pieces of the content no longer than the chunk size, and when the bleed
    asked for is not negative they cover the content. *)
Theorem splitChunks_normalises (content : string) :
  (∀ chunkSize bleed : number,
     num_le (Generation.effectiveChunkSize chunkSize) (num_of_Z 0) = false
     ∧ num_lt (Generation.effectiveBleed chunkSize bleed) (num_of_Z 0) = false)
  ∧ ∀ chunkSize bleed : option Z,
      let asked := default 1500 chunkSize in
      let size := if asked <=? 0 then 1500 else asked in
      let overlap := if size <=? default 100 bleed then size / 4
                     else if default 100 bleed <? 0 then 100
                     else default 100 bleed in
      let chunks :=
        Generation.splitChunks content (num_of_Z <$> chunkSize) (num_of_Z <$> bleed) in
      chunks = Generation.splitText content (num_of_Z size) (num_of_Z overlap)
      ∧ 0 < size ∧ 0 <= overlap
      ∧ Forall (λ chunk, (0 < String.length chunk)%nat
                         ∧ Z.of_nat (String.length chunk) <= size
                         ∧ Spec.occursIn chunk content) chunks
      ∧ (0 <= default 100 bleed →
         overlap < size ∧ Spec.joined (Spec.withoutOverlap overlap chunks) = content).
Proof.
  split.
  - intros chunkSize bleed. split.
    + unfold Generation.effectiveChunkSize.
      by destruct (num_le chunkSize (num_of_Z 0)) eqn:Hle.
    + unfold Generation.effectiveBleed.
      match goal with |- num_lt (if num_lt ?b _ then _ else _) _ = _ =>
        by destruct (num_lt b (num_of_Z 0)) eqn:Hlt end.
  - intros chunkSize bleed asked size overlap chunks.
    destruct (effective_integers asked (default 100 bleed)) as (Hpos & Hsize & Hbleed).
    fold size in Hpos, Hsize, Hbleed. fold overlap in Hbleed.
    assert (chunks = Generation.splitText content (num_of_Z size) (num_of_Z overlap))
      as Hchunks.
    { subst chunks. unfold Generation.splitChunks.
      replace (default (num_of_Z 1500) (num_of_Z <$> chunkSize)) with (num_of_Z asked)
        by by destruct chunkSize.
      replace (default (num_of_Z 100) (num_of_Z <$> bleed))
        with (num_of_Z (default 100 bleed)) by by destruct bleed.
      by rewrite Hsize, Hbleed. }
    assert (0 <= default 100 bleed → 0 <= overlap < size) as Hok.
    { intros Hb. subst overlap.
      destruct (Z.leb_spec size (default 100 bleed)).
      - pose proof (Z.div_pos size 4 ltac:(lia) ltac:(lia)).
        pose proof (Z.div_lt_upper_bound size 4 size ltac:(lia) ltac:(lia)). lia.
      - destruct (Z.ltb_spec (default 100 bleed) 0); lia. }
    assert (0 <= overlap) as Hoverlap.
    { destruct (Z.le_gt_cases 0 (default 100 bleed)) as [Hb | Hb]; [apply Hok in Hb; lia |].
      subst overlap. destruct (Z.leb_spec size (default 100 bleed)); [lia |].
      destruct (Z.ltb_spec (default 100 bleed) 0); lia. }
    split; [done |]. split; [done |]. split; [done |].
    rewrite Hchunks, splitText_integers. split.
    + apply (splitTextZ_run content size overlap).
    + intros Hb. split; [apply Hok in Hb; lia |].
      apply (splitTextZ_cover content size overlap). by apply Hok.
Qed.

(** A negative bleed with a chunk size of at most 100 leaves a bleed above
    the chunk size: the chunks then start one code unit apart. A chunk size
    that is not a number is handed on as it is, and gives no chunk. *)
Example splitChunks_negative_bleed :
  Generation.splitChunks "abcdef" (Some (num_of_Z 3)) (Some (num_of_Z (-1)))
  = ["abc"; "bcd"; "cde"; "def"; "ef"; "f"]
  ∧ Generation.splitChunks "abcdef" (Some (num_of_Z 0)) (Some (num_of_Z 7))
    = Generation.splitText "abcdef" (num_of_Z 1500) (num_of_Z 7)
  ∧ Generation.splitChunks "abcdef" (Some (num_of_Z 4)) (Some (num_of_Z 7))
    = Generation.splitText "abcdef" (num_of_Z 4) (num_of_Z 1)
  ∧ Generation.splitChunks "abcdef" (Some NaN) None = [].
Proof. by vm_compute. Qed.


(** ** The text parsers and their retry loop *)

Section BackoffFacts.

Import Generation.

Context {A : Type}.
Variable attempt : nat → result (option A).

Lemma backoffLoop_pending (n k : nat) (d : Z) (waits : list Z) :
  (∀ j, (k ≤ j < k + n)%nat → noAnswer attempt j) →
  backoffLoop attempt n k d waits
  = Pending (k + n) (d * 2 ^ Z.of_nat n) (waits ++ Spec.backoffDelays d n).
Proof.
  revert k d waits. induction n as [| n IH]; intros k d waits Hfail.
  - simpl. rewrite Nat.add_0_r, Z.mul_1_r, app_nil_r. done.
  - simpl. rewrite (Hfail k) by lia.
    rewrite IH by (intros j Hj; apply Hfail; lia).
    rewrite backoffDelays_S, <- app_assoc. simpl.
    f_equal; [lia |].
    rewrite Nat2Z.inj_succ, Z.pow_succ_r by lia. lia.
Qed.

Lemma backoffLoop_finished (n fuel k : nat) (d : Z) (waits : list Z) (a : A) :
  (∀ j, (k ≤ j < k + n)%nat → noAnswer attempt j) →
  attempt (k + n) = Ok (Some a) →
  (n < fuel)%nat →
  backoffLoop attempt fuel k d waits = Finished a (waits ++ Spec.backoffDelays d n).
Proof.
  revert fuel k d waits. induction n as [| n IH]; intros fuel k d waits Hfail Hok Hfuel.
  - destruct fuel as [| fuel]; [lia |]. simpl.
    rewrite Nat.add_0_r in Hok. rewrite Hok. simpl. by rewrite app_nil_r.
  - destruct fuel as [| fuel]; [lia |]. simpl.
    rewrite (Hfail k) by lia.
    rewrite (IH fuel (S k) (d * 2) (waits ++ [d])).
    + by rewrite backoffDelays_S, <- app_assoc.
    + intros j Hj. apply Hfail. lia.
    + by replace (S k + n)%nat with (k + S n)%nat by lia.
    + lia.
Qed.

End BackoffFacts.

(** [generateTrueOrFalse] returns the first boolean its parser recognises,
    [false] as well as [true]: only an answer the parser does not recognise,
    or an error, is retried, after waits of 1000, 2000, ... milliseconds.
    Without model settings it throws before any call. *)
Theorem generateTrueOrFalse_first_boolean
  (generateTextOnly : nat → result string) (trim : string → string)
  (parseBooleanFromText : string → result (option bool))
  (stop : list string) (n : nat) (text : string) (answer : bool) :
  (∀ k, (k < n)%nat →
     Generation.noAnswer (Generation.trueOrFalseAttempt generateTextOnly trim parseBooleanFromText) k) →
  generateTextOnly n = Ok text →
  parseBooleanFromText (trim text) = Ok (Some answer) →
  (∀ fuel, (n < fuel)%nat →
     Generation.generateTrueOrFalse generateTextOnly trim parseBooleanFromText
       (Some stop) fuel
     = Ok (Generation.Finished answer (Spec.backoffDelays 1000 n)))
  ∧ Generation.generateTrueOrFalse generateTextOnly trim parseBooleanFromText (Some stop) n
    = Ok (Generation.Pending n (1000 * 2 ^ Z.of_nat n) (Spec.backoffDelays 1000 n))
  ∧ ∃ e, ∀ fuel, Generation.generateTrueOrFalse generateTextOnly trim parseBooleanFromText
                   None fuel = Throw e.
Proof.
  intros Hfail Htext Hparse. split; [| split].
  - intros fuel Hfuel. unfold Generation.generateTrueOrFalse. f_equal.
    rewrite (backoffLoop_finished _ n fuel 0 1000 [] answer); try done.
    + intros j Hj. apply Hfail. lia.
    + unfold Generation.trueOrFalseAttempt. simpl. rewrite Htext. simpl. done.
  - unfold Generation.generateTrueOrFalse. f_equal.
    rewrite backoffLoop_pending by (intros j Hj; apply Hfail; lia). done.
  - by eexists.
Qed.

(** Chatter, an error, then "no": [false] after waits of 1000 and 2000. *)
Lemma generateTrueOrFalse_first_boolean_witness :
  Generation.generateTrueOrFalse Examples.hesitantModel Examples.trimSpaces
    Examples.parseYesNo (Some []) 3
  = Ok (Generation.Finished false [1000; 2000]).
Proof.
  destruct (generateTrueOrFalse_first_boolean Examples.hesitantModel Examples.trimSpaces
              Examples.parseYesNo [] 2 " no " false) as (Hdone & _ & _).
  - intros k Hk. destruct k as [| [| k]]; [reflexivity | reflexivity | lia].
  - reflexivity.
  - reflexivity.
  - apply (Hdone 3%nat). lia.
Defined.

(** [generateTextArray] and [generateObjectArray] answer an empty context
    with an empty array at once, whatever the model would say; otherwise they
    return the first array their parser finds, the empty one included, after
    waits of 1000, 2000, ... milliseconds. *)
Theorem generateTextArray_first_array
  (generateTextOnly : nat → result string)
  (parseJsonArrayFromText : string → result (option (list json)))
  (context : string) (n : nat) (text : string) (items : list json) :
  (∀ k, (k < n)%nat →
     Generation.noAnswer (Generation.arrayAttempt generateTextOnly parseJsonArrayFromText) k) →
  generateTextOnly n = Ok text →
  parseJsonArrayFromText text = Ok (Some items) →
  let textArray := Generation.generateTextArray generateTextOnly parseJsonArrayFromText in
  let objectArray := Generation.generateObjectArray generateTextOnly parseJsonArrayFromText in
  (∀ fuel, textArray "" fuel = Generation.Finished [] []
           ∧ objectArray "" fuel = Generation.Finished [] [])
  ∧ (context ≠ "" →
     ∀ fuel, (n < fuel)%nat →
       textArray context fuel = Generation.Finished items (Spec.backoffDelays 1000 n)
       ∧ objectArray context fuel = Generation.Finished items (Spec.backoffDelays 1000 n)).
Proof.
  intros Hfail Htext Hparse textArray objectArray. split; [done |].
  intros Hcontext fuel Hfuel. subst textArray objectArray.
  unfold Generation.generateTextArray, Generation.generateObjectArray.
  apply truthy_string_true in Hcontext. rewrite Hcontext. simpl.
  rewrite (backoffLoop_finished _ n fuel 0 1000 [] items); try done.
  - intros j Hj. apply Hfail. lia.
  - unfold Generation.arrayAttempt. simpl. rewrite Htext. simpl. done.
Qed.

(** A first answer that is an empty array is returned, with no wait. *)
Lemma generateTextArray_first_array_witness :
  Generation.generateTextArray (λ _, Ok "[]")
    (λ text, if String.eqb text "[]" then Ok (Some []) else Ok None) "list them" 1
  = Generation.Finished [] [].
Proof.
  destruct (generateTextArray_first_array (λ _, Ok "[]")
              (λ text, if String.eqb text "[]" then Ok (Some []) else Ok None)
              "list them" 0 "[]" [] ltac:(intros k Hk; lia) eq_refl eq_refl)
    as [_ Hdone].
  destruct (Hdone ltac:(discriminate) 1%nat ltac:(lia)) as [H _]. exact H.
Defined.

(** ** Message responses *)

Section MessageFacts.

Import Generation.

Variable encodingForModel : string → result Encoding.
Variable TikToken : string.
Variable generateTextFor : string → nat → result (string * LanguageModelUsage).
Variable parseJSONObjectFromText : string → result (option json).

#[local] Abbreviation loop := (messageLoop generateTextFor parseJSONObjectFromText).

Lemma messageLoop_exhausted (context : string) (returnUsage : bool) (fuel : nat)
  (st : MessageState) :
  maxAttempts <= m_attempts st →
  loop context returnUsage fuel st
  = MessageThrew "Failed to generate message response after 3 attempts" st.
Proof.
  intros H. destruct fuel; simpl; by destruct (Z.ltb_spec (m_attempts st) maxAttempts); [lia |].
Qed.

Lemma messageLoop_unparsed (context : string) (returnUsage : bool) (fuel : nat) :
  (∀ k, (k < 3)%nat →
        messageAttempt generateTextFor parseJSONObjectFromText context returnUsage k
        = Ok None) →
  loop context returnUsage (S (S (S fuel))) initialMessageState
  = MessageThrew "Failed to generate message response after 3 attempts"
      {| m_attempts := 3; m_retryLength := 1000; m_waits := []; m_calls := 3 |}.
Proof.
  intros H. simpl. rewrite (H 0%nat), (H 1%nat), (H 2%nat) by lia. simpl.
  by apply messageLoop_exhausted.
Qed.

Lemma messageLoop_errors (context : string) (returnUsage : bool) (fuel : nat) :
  (∀ k, (k < 3)%nat →
        ∃ e, messageAttempt generateTextFor parseJSONObjectFromText context returnUsage k
             = Throw e) →
  loop context returnUsage (S (S (S fuel))) initialMessageState
  = MessageThrew "Failed to generate message response after 3 attempts"
      {| m_attempts := 3; m_retryLength := 4000; m_waits := [2000; 4000]; m_calls := 3 |}.
Proof.
  intros H.
  destruct (H 0%nat ltac:(lia)) as [e0 H0].
  destruct (H 1%nat ltac:(lia)) as [e1 H1].
  destruct (H 2%nat ltac:(lia)) as [e2 H2].
  simpl. rewrite H0. simpl. rewrite H1. simpl. rewrite H2. simpl.
  by apply messageLoop_exhausted.
Qed.

(** The loop from its initial state, by the outcomes of the three calls. *)
Ltac message_cases :=
  simpl;
  repeat match goal with
         | |- context [match messageAttempt ?g ?p ?c ?r ?k with _ => _ end] =>
           destruct (messageAttempt g p c r k) as [[? |] | ?]; simpl
         end;
  rewrite ?messageLoop_exhausted by (simpl; unfold maxAttempts; lia).

Lemma messageLoop_bounded (context : string) (returnUsage : bool) (fuel : nat) :
  let exit := loop context returnUsage (S (S (S fuel))) initialMessageState in
  exit = loop context returnUsage 3 initialMessageState
  ∧ (∀ st', exit ≠ MessageRunning st')
  ∧ (m_calls (messageState exit) ≤ 3)%nat
  ∧ m_waits (messageState exit) `prefix_of` [2000; 4000].
Proof.
  intros exit. subst exit. split_and!.
  - message_cases; reflexivity.
  - message_cases; intros st'; discriminate.
  - message_cases; simpl; lia.
  - message_cases; simpl; by eexists.
Qed.

End MessageFacts.

(** [generateMessageResponse] calls the model at most three times and then
    gives up with an error. An answer in which no JSON object is found is
    retried at once; only after an error of the first or second call does it
    wait, 2000 and then 4000 milliseconds (the delay is doubled before the
    wait), never after the third. When the context cannot be trimmed the
    error is passed on before any call. *)
Theorem generateMessageResponse_three_attempts
  (encodingForModel : string → result Generation.Encoding) (TikToken : string)
  (generateTextFor : string → nat → result (string * Generation.LanguageModelUsage))
  (parseJSONObjectFromText : string → result (option json))
  (maxInputTokens : Z) (runtime : Generation.IAgentRuntime)
  (context : string) (returnUsage : bool) (fuel : nat) :
  (3 ≤ fuel)%nat →
  let run := Generation.generateMessageResponse encodingForModel TikToken generateTextFor
               parseJSONObjectFromText maxInputTokens runtime context returnUsage in
  let attempt := Generation.messageAttempt generateTextFor parseJSONObjectFromText in
  let st := Generation.messageState (run fuel) in
  run fuel = run 3%nat
  ∧ (∀ st', run fuel ≠ Generation.MessageRunning st')
  ∧ (Generation.m_calls st ≤ 3)%nat
  ∧ Generation.m_waits st `prefix_of` [2000; 4000]
  ∧ (∀ e, Generation.trimTokens encodingForModel TikToken context maxInputTokens runtime
          = Throw e →
          run fuel = Generation.MessageThrew e Generation.initialMessageState)
  ∧ (∀ trimmed,
       Generation.trimTokens encodingForModel TikToken context maxInputTokens runtime
       = Ok trimmed →
       ((∀ k, (k < 3)%nat → attempt trimmed returnUsage k = Ok None) →
        run fuel
        = Generation.MessageThrew "Failed to generate message response after 3 attempts"
            {| Generation.m_attempts := 3; Generation.m_retryLength := 1000;
               Generation.m_waits := []; Generation.m_calls := 3 |})
       ∧ ((∀ k, (k < 3)%nat → ∃ e, attempt trimmed returnUsage k = Throw e) →
          run fuel
          = Generation.MessageThrew "Failed to generate message response after 3 attempts"
              {| Generation.m_attempts := 3; Generation.m_retryLength := 4000;
                 Generation.m_waits := [2000; 4000]; Generation.m_calls := 3 |})).
Proof.
  intros Hfuel run attempt st. subst run attempt st.
  unfold Generation.generateMessageResponse.
  destruct (Generation.trimTokens encodingForModel TikToken context maxInputTokens runtime)
    as [trimmed | e].
  2:{ split_and!; try done; simpl; try lia; [by eexists | by intros ? [= <-]]. }
  destruct fuel as [| [| [| fuel]]]; try lia.
  destruct (messageLoop_bounded generateTextFor parseJSONObjectFromText trimmed
              returnUsage fuel) as (Hfuel3 & Hrun & Hcalls & Hwaits).
  split_and!; try done.
  intros ? [= <-]. split.
  - apply messageLoop_unparsed.
  - apply messageLoop_errors.
Qed.

(** A model that never answers with JSON is asked three times in a row,
    without a wait; a model that is down is asked three times, with waits of
    2000 and 4000 milliseconds. *)
Lemma generateMessageResponse_three_attempts_witness :
  Generation.generateMessageResponse Examples.charEncodingForModel "tiktoken"
    Examples.chattyModel Examples.parseDecisions 100 Examples.bareRuntime "hello" false 5
  = Generation.MessageThrew "Failed to generate message response after 3 attempts"
      {| Generation.m_attempts := 3; Generation.m_retryLength := 1000;
         Generation.m_waits := []; Generation.m_calls := 3 |}
  ∧ Generation.generateMessageResponse Examples.charEncodingForModel "tiktoken"
      Examples.downModel Examples.parseDecisions 100 Examples.bareRuntime "hello" false 5
    = Generation.MessageThrew "Failed to generate message response after 3 attempts"
        {| Generation.m_attempts := 3; Generation.m_retryLength := 4000;
           Generation.m_waits := [2000; 4000]; Generation.m_calls := 3 |}.
Proof.
  split.
  - destruct (generateMessageResponse_three_attempts Examples.charEncodingForModel
                "tiktoken" Examples.chattyModel Examples.parseDecisions 100
                Examples.bareRuntime "hello" false 5 ltac:(lia))
      as (_ & _ & _ & _ & _ & Hall).
    destruct (Hall "hello" eq_refl) as [Hnull _]. apply Hnull.
    intros k Hk. reflexivity.
  - destruct (generateMessageResponse_three_attempts Examples.charEncodingForModel
                "tiktoken" Examples.downModel Examples.parseDecisions 100
                Examples.bareRuntime "hello" false 5 ltac:(lia))
      as (_ & _ & _ & _ & _ & Hall).
    destruct (Hall "hello" eq_refl) as [_ Herr]. apply Herr.
    intros k Hk. by eexists.
Defined.

(** ** The bonsaiGarden handler: gate and usage *)



Section UsageFacts.

Import BonsaiGarden.

Variable env : HandlerEnv.
Variable top : string.

Lemma total_fmap_snoc {A} (f : A → Z) (l : list A) (x : A) :
  Spec.total (f <$> (l ++ [x])) = Spec.total (f <$> l) + f x.
Proof.
  unfold Spec.total. induction l as [| y l IH]; [simpl; lia |].
  rewrite <- app_comm_cons, !fmap_cons. simpl. rewrite IH. lia.
Qed.

Lemma textUsages_snoc_text_ok (tr : list Event) (k : Z) (p : string)
  (u : Generation.LanguageModelUsage) :
  generateText env top k = Ok (p, u) →
  Spec.textUsages env (tr ++ [EvGenerateText top k]) = Spec.textUsages env tr ++ [u].
Proof. intros H. unfold Spec.textUsages. rewrite omap_app. simpl. by rewrite H. Qed.

Lemma textUsages_snoc_text_throw (tr : list Event) (k : Z) (e : string) :
  generateText env top k = Throw e →
  Spec.textUsages env (tr ++ [EvGenerateText top k]) = Spec.textUsages env tr.
Proof.
  intros H. unfold Spec.textUsages. rewrite omap_app. simpl. rewrite H.
  by rewrite app_nil_r.
Qed.

Lemma textUsages_snoc_image (tr : list Event) (k : Z) (p : string) :
  Spec.textUsages env (tr ++ [EvGenerateImage p k]) = Spec.textUsages env tr.
Proof. unfold Spec.textUsages. rewrite omap_app. simpl. by rewrite app_nil_r. Qed.

Lemma imageCalls_snoc_image (tr : list Event) (p : string) (k : Z) :
  imageCalls (tr ++ [EvGenerateImage p k]) = S (imageCalls tr).
Proof. rewrite imageCalls_app. unfold imageCalls at 2. simpl. lia. Qed.

Lemma imageCalls_snoc_text (tr : list Event) (t : string) (k : Z) :
  imageCalls (tr ++ [EvGenerateText t k]) = imageCalls tr.
Proof. rewrite imageCalls_app. unfold imageCalls at 2. simpl. lia. Qed.

Lemma usageMatchesTrace_attempt (st : LoopState) (imagePrompt : string)
  (u : Generation.LanguageModelUsage) (a : Z) (r : Generation.ImageResult) :
  generateText env top (attempts st) = Ok (imagePrompt, u) →
  Spec.usageMatchesTrace env st →
  Spec.usageMatchesTrace env
    {| attempts := a; imageResponse := Some r;
       loopUsage := addImage (addUsage (loopUsage st) u);
       trace := (trace st ++ [EvGenerateText top (attempts st)])
                ++ [EvGenerateImage imagePrompt (attempts st)] |}.
Proof.
  intros Htext (Himg & Hsome & Hp & Hc & Ht). unfold Spec.usageMatchesTrace. simpl.
  rewrite textUsages_snoc_image, (textUsages_snoc_text_ok _ _ _ _ Htext).
  rewrite !total_fmap_snoc, imageCalls_snoc_image, imageCalls_snoc_text.
  rewrite Himg, Hp, Hc, Ht. simpl.
  split_and!; try done; [f_equal; lia | lia].
Qed.

(** The state a loop exit carries. *)
Lemma imageLoop_usage (fuel : nat) (st : LoopState) :
  Spec.usageMatchesTrace env st →
  Spec.usageMatchesTrace env
    (match imageLoop env top fuel st with
     | Left_ st' | Thrown _ st' | StillRunning st' => st'
     end).
Proof.
  revert st. induction fuel as [| fuel IH]; intros st Hst; simpl.
  - by destruct (attempts st <? MAX_ATTEMPTS).
  - destruct (attempts st <? MAX_ATTEMPTS); [| done].
    destruct (generateText env top (attempts st)) as [[imagePrompt u] | e] eqn:Htext.
    + destruct (Generation.success (generateImage env imagePrompt (attempts st))).
      * by apply usageMatchesTrace_attempt.
      * apply IH. by apply usageMatchesTrace_attempt.
    + destruct Hst as (Himg & Hsome & Hp & Hc & Ht). unfold Spec.usageMatchesTrace. simpl.
      rewrite (textUsages_snoc_text_throw _ _ _ Htext), imageCalls_snoc_text. done.
Qed.

End UsageFacts.

(** A response of the handler that brings a new image bills every attempt:
    [imagesCreated] is the number of [generateImage] calls made, at least
    one, failed ones included, and the token counts are the sums over the
    text calls that returned. *)
Theorem handler_usage_counts_attempts
  (env : BonsaiGarden.HandlerEnv) (fuel : nat) (media : option SmartMedia)
  (forceUpdate : bool) (response : TemplateHandlerResponse)
  (tr : list BonsaiGarden.Event) :
  BonsaiGarden.handler env fuel media forceUpdate = (Some response, tr) →
  response ≠ BonsaiGarden.skipped BonsaiGarden.zeroUsage →
  ∃ u,
    totalUsage response = Some u
    ∧ imagesCreated u = Some (Z.of_nat (BonsaiGarden.imageCalls tr))
    ∧ (1 ≤ BonsaiGarden.imageCalls tr)%nat
    ∧ promptTokens u = Spec.total (Generation.promptTokens <$> Spec.textUsages env tr)
    ∧ completionTokens u
      = Spec.total (Generation.completionTokens <$> Spec.textUsages env tr)
    ∧ totalTokens u = Spec.total (Generation.totalTokens <$> Spec.textUsages env tr)
    ∧ refreshMetadata response = Some true.
Proof.
  unfold BonsaiGarden.handler. intros H Hnot.
  destruct media as [m |]; [| done].
  destruct (templateData m) as [td |]; [| done].
  destruct (negb (truthy td)); [done |].
  destruct (BonsaiGarden.chooseComment env m td forceUpdate) as [[top |] | e];
    [| by injection H as <- <- | done].
  pose proof (imageLoop_usage env top fuel BonsaiGarden.initialLoopState) as Husage.
  destruct (BonsaiGarden.imageLoop env top fuel BonsaiGarden.initialLoopState)
    as [st | e st | st]; try done.
  destruct (BonsaiGarden.imageResponse st) as [r |] eqn:Hr; [| done].
  destruct (Generation.success r); simpl in H; [| done].
  destruct (BonsaiGarden.persistImage env m r); [| done].
  injection H as <- <-. simpl.
  destruct Husage as (Himg & Hsome & Hp & Hc & Ht).
  { split_and!; try done. by intros [? [=]]. }
  exists (BonsaiGarden.loopUsage st). split_and!; try done.
  apply Hsome. by rewrite Hr.
Qed.

(** The first image fails, the second succeeds: two images billed. *)
Lemma handler_usage_counts_attempts_witness :
  ∃ response tr,
    BonsaiGarden.handler Examples.secondTryEnv 2 (Some Examples.heroPost) true
    = (Some response, tr)
    ∧ (imagesCreated <$> totalUsage response) = Some (Some 2)
    ∧ (promptTokens <$> totalUsage response)
      = Some (2 * Generation.promptTokens Examples.usage0).
Proof.
  eexists _, _. split; [vm_compute; reflexivity |].
  destruct (handler_usage_counts_attempts Examples.secondTryEnv 2 (Some Examples.heroPost)
              true _ _ eq_refl ltac:(discriminate))
    as (u & [= <-] & Himg & _ & Hp & _).
  split; [exact (f_equal Some Himg) | exact (f_equal Some Hp)].
Defined.

(** ** handlePostUpdate: what a job writes *)

Section ServiceFacts.

Import ClientService.

Variable cfg : Config.
Variable env : Env.

Lemma touchesOnly_refl (postId : string) (st : State) : Spec.touchesOnly postId st st.
Proof. by unfold Spec.touchesOnly. Qed.

Lemma touchesOnly_trans (postId : string) (st1 st2 st3 : State) :
  Spec.touchesOnly postId st1 st2 → Spec.touchesOnly postId st2 st3 →
  Spec.touchesOnly postId st1 st3.
Proof.
  intros (Ht & Hc & Hk & Hd & Hl & Hp) (Ht' & Hc' & Hk' & Hd' & Hl' & Hp').
  unfold Spec.touchesOnly. split_and!; try congruence.
  - intros k Hne. destruct (Hl k Hne), (Hl' k Hne). split; congruence.
  - by etransitivity.
Qed.

Lemma touchesOnly_updateOne (postId : string) (u : UpdateDoc) (st : State) :
  Spec.touchesOnly postId st (updateOne postId u st).
Proof.
  unfold Spec.touchesOnly, updateOne. simpl. split_and!; try done.
  - apply dom_alter_L.
  - intros k Hne. split; [done |]. by apply lookup_alter_ne.
Qed.

Lemma touchesOnly_removePostFromCache (data : SmartMedia) (st : State) :
  Spec.touchesOnly (postId data) st (removePostFromCache data st).
Proof.
  unfold Spec.touchesOnly, removePostFromCache. simpl. split_and!; try done.
  intros k Hne. split; [| done]. by apply lookup_delete_ne.
Qed.

Lemma touchesOnly_cachePost (data : SmartMedia) (st : State) :
  Spec.touchesOnly (postId data) st (cachePost data st).
Proof.
  unfold Spec.touchesOnly, cachePost. simpl. split_and!; try done.
  intros k Hne. split; [| done]. by apply lookup_insert_ne.
Qed.

Lemma touchesOnly_emit (postId : string) (e : Event) (st : State) :
  Spec.touchesOnly postId st (emit e st).
Proof.
  unfold Spec.touchesOnly, emit. simpl. split_and!; try done. by apply prefix_app_r.
Qed.

Lemma postId_apply_update (u : UpdateDoc) (doc : SmartMedia) :
  postId (apply_update u doc) = postId doc.
Proof.
  unfold apply_update, apply_set.
  destruct (upd_push u), (upd_set u) as [[[?|] [?|]] |]; reflexivity.
Qed.

Lemma wellKeyed_updateOne (postId : string) (u : UpdateDoc) (st : State) :
  Spec.wellKeyed st → Spec.wellKeyed (updateOne postId u st).
Proof.
  intros [Hr Hm]. split; [done |]. simpl. intros k d.
  destruct (decide (k = postId)) as [-> | Hne].
  - rewrite lookup_alter_eq. destruct (mongo_media st !! postId) as [d0 |] eqn:Hd0; [| done].
    intros [= <-]. rewrite postId_apply_update. by apply Hm.
  - rewrite lookup_alter_ne by done. apply Hm.
Qed.

Lemma wellKeyed_removePostFromCache (data : SmartMedia) (st : State) :
  Spec.wellKeyed st → Spec.wellKeyed (removePostFromCache data st).
Proof.
  intros [Hr Hm]. split; [| done]. simpl. intros k d.
  rewrite lookup_delete_Some. intros [_ H]. by apply Hr.
Qed.

Lemma wellKeyed_cachePost (data : SmartMedia) (st : State) :
  Spec.wellKeyed st → Spec.wellKeyed (cachePost data st).
Proof.
  intros [Hr Hm]. split; [| done]. simpl. intros k d.
  rewrite lookup_insert_Some. intros [[<- <-] | [_ H]]; [done | by apply Hr].
Qed.

Lemma wellKeyed_emit (e : Event) (st : State) :
  Spec.wellKeyed st → Spec.wellKeyed (emit e st).
Proof. done. Qed.

(** What [getPost] returns carries the key it was asked for. *)
Lemma getPost_postId (st : State) (postId : string) (data : SmartMedia) :
  Spec.wellKeyed st → getPost st postId = Some data → Types.postId data = postId.
Proof.
  intros [Hr Hm]. unfold getPost.
  destruct (redis_posts st !! postId) as [c |] eqn:Hc.
  - intros [= <-]. by apply Hr.
  - destruct (mongo_media st !! postId) as [d |] eqn:Hd; [| done].
    simpl. intros [= <-]. simpl. by apply Hm.
Qed.

Lemma freezeIfOverdue_touchesOnly (data : SmartMedia) (st : State) :
  Spec.touchesOnly (postId data) st (freezeIfOverdue cfg env (postId data) data st).
Proof.
  unfold freezeIfOverdue. destruct (_ <? _); [| apply touchesOnly_refl].
  eapply touchesOnly_trans;
    [apply touchesOnly_updateOne | apply touchesOnly_removePostFromCache].
Qed.

Lemma freezeIfOverdue_wellKeyed (postId : string) (data : SmartMedia) (st : State) :
  Spec.wellKeyed st → Spec.wellKeyed (freezeIfOverdue cfg env postId data st).
Proof.
  intros H. unfold freezeIfOverdue. destruct (_ <? _); [| done].
  by apply wellKeyed_removePostFromCache, wellKeyed_updateOne.
Qed.

Lemma applyResponse_touchesOnly (tpl : Template) (data : SmartMedia)
  (response : TemplateHandlerResponse) (st : State) :
  Spec.touchesOnly (postId data) st (applyResponse cfg env (postId data) tpl data response st).
Proof.
  unfold applyResponse, decrementCredits.
  set (st1 := if needsStatusUpdate data || hasNewVersion response then _ else st).
  assert (Spec.touchesOnly (postId data) st st1) as H1.
  { subst st1. destruct (_ || _); [apply touchesOnly_updateOne | apply touchesOnly_refl]. }
  set (st2 := emit _ st1).
  assert (Spec.touchesOnly (postId data) st st2) as H2.
  { eapply touchesOnly_trans; [exact H1 | apply touchesOnly_emit]. }
  clearbody st2. clear H1 st1.
  destruct (negb _ && negb _); [done |].
  set (st3 := if hasMetadata response || flag (refreshMetadata response) then _ else st2).
  assert (Spec.touchesOnly (postId data) st st3) as H3.
  { subst st3. destruct (_ || _); [| done].
    eapply touchesOnly_trans; [exact H2 | apply touchesOnly_emit]. }
  clearbody st3.
  destruct (_ && _).
  - eapply touchesOnly_trans; [exact H3 | apply touchesOnly_updateOne].
  - eapply touchesOnly_trans; [exact H3 |].
    match goal with |- context [cachePost ?d _] =>
      change (postId data) with (postId d) at 1; apply touchesOnly_cachePost end.
Qed.

Lemma applyResponse_wellKeyed (postId : string) (tpl : Template) (data : SmartMedia)
  (response : TemplateHandlerResponse) (st : State) :
  Types.postId data = postId →
  Spec.wellKeyed st → Spec.wellKeyed (applyResponse cfg env postId tpl data response st).
Proof.
  intros Hid H. unfold applyResponse, decrementCredits.
  set (st1 := if needsStatusUpdate data || hasNewVersion response then _ else st).
  assert (Spec.wellKeyed st1) as H1.
  { subst st1. destruct (_ || _); [by apply wellKeyed_updateOne | done]. }
  clearbody st1.
  destruct (negb _ && negb _); [done |].
  set (st3 := if hasMetadata response || flag (refreshMetadata response) then _ else _).
  assert (Spec.wellKeyed st3) as H3 by (subst st3; by destruct (_ || _)).
  clearbody st3.
  destruct (_ && _); [by apply wellKeyed_updateOne | by apply wellKeyed_cachePost].
Qed.

Lemma debitsOf_emit (e : Event) (st : State) :
  Spec.debitsOf (log (emit e st))
  = Spec.debitsOf (log st) ++ (if isDebit e then [e] else []).
Proof.
  unfold Spec.debitsOf, emit. simpl. rewrite filter_app. f_equal.
  by destruct e.
Qed.

Lemma freezeIfOverdue_debitsOf (postId : string) (data : SmartMedia) (st : State) :
  Spec.debitsOf (log (freezeIfOverdue cfg env postId data st)) = Spec.debitsOf (log st).
Proof. by rewrite freezeIfOverdue_log. Qed.

(** The one debit among the steps that follow a usable response. *)
Lemma applyResponse_debitsOf (postId : string) (tpl : Template) (data : SmartMedia)
  (response : TemplateHandlerResponse) (st : State) :
  Spec.debitsOf (log (applyResponse cfg env postId tpl data response st))
  = Spec.debitsOf (log st)
    ++ [EvDecrementCredits (creator data) (modelOr cfg (defaultModel tpl))
          (default 0 (promptTokens <$> totalUsage response))
          (default 0 (completionTokens <$> totalUsage response))
          (or_zero (totalUsage response ≫= imagesCreated))
          (totalUsage response ≫= videoCostParams)
          (totalUsage response ≫= audioCharacters)
          (totalUsage response ≫= customTokens)].
Proof.
  unfold applyResponse, decrementCredits.
  set (st1 := if needsStatusUpdate data || hasNewVersion response then _ else st).
  assert (log st1 = log st) as H1 by (subst st1; by destruct (_ || _)).
  clearbody st1.
  destruct (negb _ && negb _); [by rewrite debitsOf_emit, H1 |].
  destruct (hasMetadata response || flag (refreshMetadata response)); simpl.
  - destruct (bool_decide _); simpl;
      change (log (emit ?e ?s)) with (log s ++ [e]);
      unfold Spec.debitsOf; rewrite !filter_app, H1; simpl; by rewrite app_nil_r.
  - unfold Spec.debitsOf. by rewrite filter_app, H1.
Qed.

(** The calls made by the steps that follow a usable response, in order:
    the debit, then the refresh if one is asked for. *)
Lemma applyResponse_log (postId : string) (tpl : Template) (data : SmartMedia)
  (response : TemplateHandlerResponse) (st : State) :
  log (applyResponse cfg env postId tpl data response st)
  = log st
    ++ [EvDecrementCredits (creator data) (modelOr cfg (defaultModel tpl))
          (default 0 (promptTokens <$> totalUsage response))
          (default 0 (completionTokens <$> totalUsage response))
          (or_zero (totalUsage response ≫= imagesCreated))
          (totalUsage response ≫= videoCostParams)
          (totalUsage response ≫= audioCharacters)
          (totalUsage response ≫= customTokens)]
    ++ (if hasMetadata response || flag (refreshMetadata response)
        then [EvRefreshMetadata postId] else []).
Proof.
  unfold applyResponse, decrementCredits.
  set (st1 := if needsStatusUpdate data || hasNewVersion response then _ else st).
  assert (log st1 = log st) as H1 by (subst st1; by destruct (_ || _)).
  clearbody st1.
  destruct (hasMetadata response || flag (refreshMetadata response)); simpl.
  - destruct (bool_decide _); simpl; by rewrite H1, <- app_assoc.
  - destruct (negb (flag (refreshCache response))); simpl; by rewrite H1.
Qed.

End ServiceFacts.

Lemma wellKeyed_storeOf (doc : SmartMedia) : Spec.wellKeyed (Examples.storeOf doc).
Proof.
  split; simpl; intros k d.
  - by rewrite lookup_empty.
  - rewrite lookup_singleton_Some. by intros [<- <-].
Qed.

(** A job of [handlePostUpdate] for one post leaves every other post alone,
    in the cache and in the collection; it creates and removes no document,
    touches neither the preview counters nor the registered templates, only
    adds to the log, and leaves the stores keyed by post id. *)
Theorem handlePostUpdate_touches_one_post
  (cfg : ClientService.Config) (env : ClientService.Env) (postId : string)
  (forceUpdate : option bool) (st : ClientService.State) :
  Spec.wellKeyed st →
  let st' := (ClientService.handlePostUpdate cfg env postId forceUpdate st).1 in
  Spec.touchesOnly postId st st' ∧ Spec.wellKeyed st'.
Proof.
  intros Hkeyed. simpl. unfold ClientService.handlePostUpdate.
  destruct (ClientService.getPost st postId) as [data |] eqn:Hdata;
    [| split; [apply touchesOnly_refl | done]].
  pose proof (getPost_postId st postId data Hkeyed Hdata) as <-.
  destruct (ClientService.templates st !! template data) as [tpl |];
    [| split; [apply touchesOnly_refl | done]].
  destruct (ClientService.isDeleted env (Types.postId data)).
  { simpl. split.
    - eapply touchesOnly_trans;
        [apply touchesOnly_updateOne | apply touchesOnly_removePostFromCache].
    - by apply wellKeyed_removePostFromCache, wellKeyed_updateOne. }
  destruct (ClientService.canUpdate env (creator data) (template data)); simpl;
    [| split; [apply touchesOnly_refl | done]].
  set (st1 := ClientService.emit _ st).
  assert (Spec.touchesOnly (Types.postId data) st st1) as H1 by apply touchesOnly_emit.
  assert (Spec.wellKeyed st1) as Hk1 by done.
  clearbody st1.
  assert (Spec.touchesOnly (Types.postId data) st
            (ClientService.freezeIfOverdue cfg env (Types.postId data) data st1)
          ∧ Spec.wellKeyed
              (ClientService.freezeIfOverdue cfg env (Types.postId data) data st1))
    as Hfreeze.
  { split; [| by apply freezeIfOverdue_wellKeyed].
    eapply touchesOnly_trans; [exact H1 | apply freezeIfOverdue_touchesOnly]. }
  destruct (ClientService.runHandler env (template data) (Some data) (flag forceUpdate))
    as [[response |] | e]; [| done | done].
  destruct (ClientService.noUpdates response) as [[|] | e]; [done | | done].
  cbn -[ClientService.applyResponse]. split.
  - eapply touchesOnly_trans; [exact H1 | apply applyResponse_touchesOnly].
  - by apply applyResponse_wellKeyed.
Qed.

(** A successful update of post-1 in a service that also holds post-2. *)
Lemma handlePostUpdate_touches_one_post_witness :
  let env := Examples.serviceEnv 5000 (Examples.growingEnv (Some "storj://v3.json")) in
  let st := ClientService.cachePost Examples.otherPost (Examples.storeOf Examples.heroPost) in
  let st' := (ClientService.handlePostUpdate Examples.cfg env "post-1" None st).1 in
  ClientService.getPost st' "post-2" = Some Examples.otherPost
  ∧ ClientService.redis_counters st' = ClientService.redis_counters st.
Proof.
  intros env st st'.
  destruct (handlePostUpdate_touches_one_post Examples.cfg env "post-1" None st
              (wellKeyed_cachePost Examples.otherPost _
                 (wellKeyed_storeOf Examples.heroPost)))
    as [(_ & Hcounters & _ & _ & Helse & _) _].
  split; [| exact Hcounters].
  unfold ClientService.getPost.
  destruct (Helse "post-2" ltac:(discriminate)) as [Hcache _].
  fold st' in Hcache. rewrite Hcache. reflexivity.
Defined.

(** A job debits the creator exactly when the handler returned a response
    that is not recognised as empty, and then once, for the usage the
    response reports and the template's model. The calls of such a job are,
    in order: the handler, the debit, and then the metadata refresh when the
    response asks for one; so the debit is made before the refresh and stays
    when the refresh fails. Every other job debits nothing. *)
Theorem handlePostUpdate_debits_usable_response
  (cfg : ClientService.Config) (env : ClientService.Env) (postId : string)
  (forceUpdate : option bool) (st : ClientService.State) :
  let st' := (ClientService.handlePostUpdate cfg env postId forceUpdate st).1 in
  let usable data tpl response :=
    ClientService.getPost st postId = Some data
    ∧ ClientService.templates st !! template data = Some tpl
    ∧ ClientService.isDeleted env postId = false
    ∧ ClientService.canUpdate env (creator data) (template data) = true
    ∧ ClientService.runHandler env (template data) (Some data) (flag forceUpdate)
      = Ok (Some response)
    ∧ ClientService.noUpdates response = Ok false in
  (∀ data tpl response, usable data tpl response →
     let debit :=
       ClientService.EvDecrementCredits (creator data)
         (ClientService.modelOr cfg (ClientService.defaultModel tpl))
         (default 0 (promptTokens <$> totalUsage response))
         (default 0 (completionTokens <$> totalUsage response))
         (or_zero (totalUsage response ≫= imagesCreated))
         (totalUsage response ≫= videoCostParams)
         (totalUsage response ≫= audioCharacters)
         (totalUsage response ≫= customTokens) in
     ClientService.log st'
     = ClientService.log st
       ++ [ClientService.EvHandler (template data) (Some data) (flag forceUpdate); debit]
       ++ (if ClientService.hasMetadata response || flag (refreshMetadata response)
           then [ClientService.EvRefreshMetadata postId] else [])
     ∧ Spec.debitsOf (ClientService.log st')
       = Spec.debitsOf (ClientService.log st) ++ [debit])
  ∧ ((∀ data tpl response, ¬ usable data tpl response) →
     Spec.debitsOf (ClientService.log st') = Spec.debitsOf (ClientService.log st)).
Proof.
  cbv zeta. split.
  - intros data tpl response (Hdata & Htpl & Hdel & Hcan & Hrun & Hno).
    rewrite (handlePostUpdate_invokes_handler cfg env postId forceUpdate st data tpl)
      by done.
    cbv zeta. rewrite Hrun, Hno. cbn -[ClientService.applyResponse]. split.
    + rewrite applyResponse_log. simpl. by rewrite <- !app_assoc.
    + rewrite applyResponse_debitsOf, debitsOf_emit. simpl. by rewrite app_nil_r.
  - intros Hnone. unfold ClientService.handlePostUpdate.
    destruct (ClientService.getPost st postId) as [data |] eqn:Hdata; [| done].
    destruct (ClientService.templates st !! template data) as [tpl |] eqn:Htpl; [| done].
    destruct (ClientService.isDeleted env postId) eqn:Hdel; [done |].
    destruct (ClientService.canUpdate env (creator data) (template data)) eqn:Hcan;
      [| done].
    cbn -[ClientService.freezeIfOverdue ClientService.applyResponse ClientService.emit].
    destruct (ClientService.runHandler env (template data) (Some data) (flag forceUpdate))
      as [[response |] | e] eqn:Hrun;
      cbn -[ClientService.freezeIfOverdue ClientService.applyResponse ClientService.emit].
    + destruct (ClientService.noUpdates response) as [[|] | e] eqn:Hno;
        cbn -[ClientService.freezeIfOverdue ClientService.applyResponse ClientService.emit].
      * rewrite freezeIfOverdue_debitsOf, debitsOf_emit. simpl. by rewrite app_nil_r.
      * by destruct (Hnone data tpl response).
      * rewrite debitsOf_emit. simpl. by rewrite app_nil_r.
    + rewrite freezeIfOverdue_debitsOf, debitsOf_emit. simpl. by rewrite app_nil_r.
    + rewrite debitsOf_emit. simpl. by rewrite app_nil_r.
Qed.

(** The image is generated but the refresh job fails: one debit, for one
    image. *)
Example handlePostUpdate_debits_failed_refresh :
  let env := Examples.refreshFailingEnv 5000 (Examples.growingEnv None) in
  let st' := (ClientService.handlePostUpdate Examples.cfg env "post-1" None
                (Examples.storeOf Examples.heroPost)).1 in
  ClientService.log st'
  = [ClientService.EvHandler "bonsai_garden"
       (Some (ClientService.project_last10 Examples.heroPost)) false;
     ClientService.EvDecrementCredits "0xc0ffee" "gpt-4o-mini" 12 7 1 None None None;
     ClientService.EvRefreshMetadata "post-1"]
  ∧ (status <$> ClientService.mongo_media st' !! "post-1") = Some (Some FAILED).
Proof. vm_compute. split; reflexivity. Qed.

(** A post that Lens reports as deleted is disabled before anything else is
    looked at, the creator's credits included: the document is marked
    [DISABLED], the post leaves the cache, the handler does not run and the
    log is as before. A post that is not deleted and whose creator cannot
    afford the update is left exactly as it was. *)
Theorem handlePostUpdate_deleted_post_is_disabled
  (cfg : ClientService.Config) (env : ClientService.Env) (postId : string)
  (forceUpdate : option bool) (st : ClientService.State)
  (data : SmartMedia) (tpl : ClientService.Template) :
  Spec.wellKeyed st →
  ClientService.getPost st postId = Some data →
  ClientService.templates st !! template data = Some tpl →
  let run := ClientService.handlePostUpdate cfg env postId forceUpdate st in
  (ClientService.isDeleted env postId = true →
   run.2 = Ok ()
   ∧ ClientService.log run.1 = ClientService.log st
   ∧ ClientService.redis_posts run.1 !! postId = None
   ∧ ClientService.mongo_media run.1 !! postId
     = ClientService.set_status (Some DISABLED) <$> ClientService.mongo_media st !! postId
   ∧ ClientService.getPost run.1 postId
     = (λ doc, ClientService.project_last10 (ClientService.set_status (Some DISABLED) doc))
         <$> ClientService.mongo_media st !! postId)
  ∧ (ClientService.isDeleted env postId = false →
     ClientService.canUpdate env (creator data) (template data) = false →
     run = (st, Ok ())).
Proof.
  intros Hkeyed Hdata Htpl. simpl.
  pose proof (getPost_postId st postId data Hkeyed Hdata) as Hid.
  unfold ClientService.handlePostUpdate. rewrite Hdata, Htpl. split.
  - intros ->. simpl.
    assert (ClientService.mongo_media st !! postId ≫= (λ d, Some (ClientService.apply_update
              (ClientService.set_status_doc DISABLED) d))
            = ClientService.set_status (Some DISABLED) <$> ClientService.mongo_media st !! postId)
      as Hdoc by (by destruct (ClientService.mongo_media st !! postId)).
    split_and!; try done.
    + rewrite Hid. apply lookup_delete_eq.
    + rewrite lookup_alter_eq. by destruct (ClientService.mongo_media st !! postId).
    + unfold ClientService.getPost. simpl. rewrite Hid, lookup_delete_eq, lookup_alter_eq.
      by destruct (ClientService.mongo_media st !! postId).
  - by intros -> ->.
Qed.

(** The cached post-1 is deleted on Lens: the next read shows the document,
    disabled. *)
Lemma handlePostUpdate_deleted_post_is_disabled_witness :
  let env := Examples.deletedEnv 5000 in
  let st := ClientService.cachePost Examples.heroPost (Examples.storeOf Examples.heroPost) in
  let st' := (ClientService.handlePostUpdate Examples.cfg env "post-1" None st).1 in
  ClientService.getPost st' "post-1"
  = Some (ClientService.project_last10
            (ClientService.set_status (Some DISABLED) Examples.heroPost))
  ∧ ClientService.log st' = [].
Proof.
  intros env st st'.
  destruct (handlePostUpdate_deleted_post_is_disabled Examples.cfg env "post-1" None st
              Examples.heroPost Examples.gardenTemplate
              (wellKeyed_cachePost Examples.heroPost _ (wellKeyed_storeOf Examples.heroPost))
              eq_refl eq_refl) as [Hdeleted _].
  destruct (Hdeleted eq_refl) as (_ & Hlog & _ & _ & Hget).
  split; [exact Hget | exact Hlog].
Defined.

(** After a usable response that asks for a metadata refresh: when the
    refresh job reports [FAILED] the document is marked [FAILED], whatever
    status the same job has just written, and the cache is neither renewed
    nor emptied, so a cached copy keeps being served; otherwise the post is
    cached afresh, stamped with the time of caching, with one more version
    counted, without status and versions, and with the template data of the
    response when it brings some. *)
Theorem handlePostUpdate_refresh_outcome
  (cfg : ClientService.Config) (env : ClientService.Env) (postId : string)
  (forceUpdate : option bool) (st : ClientService.State)
  (data : SmartMedia) (tpl : ClientService.Template) (response : TemplateHandlerResponse) :
  Spec.wellKeyed st →
  ClientService.getPost st postId = Some data →
  ClientService.templates st !! template data = Some tpl →
  ClientService.isDeleted env postId = false →
  ClientService.canUpdate env (creator data) (template data) = true →
  ClientService.runHandler env (template data) (Some data) (flag forceUpdate)
  = Ok (Some response) →
  ClientService.noUpdates response = Ok false →
  ClientService.hasMetadata response || flag (refreshMetadata response) = true →
  let st' := (ClientService.handlePostUpdate cfg env postId forceUpdate st).1 in
  (ClientService.refreshMetadataStatus env postId = "FAILED" →
   (status <$> ClientService.mongo_media st' !! postId)
   = ((λ _, Some FAILED) <$> ClientService.mongo_media st !! postId)
   ∧ ClientService.redis_posts st' = ClientService.redis_posts st)
  ∧ (ClientService.refreshMetadataStatus env postId ≠ "FAILED" →
     ∃ cached,
       ClientService.getPost st' postId = Some cached
       ∧ updatedAt cached = ClientService.nowAtCache env
       ∧ versionCount cached = Some (or_zero (versionCount data) + 1)
       ∧ status cached = None
       ∧ versions cached = None
       ∧ templateData cached = ClientService.nextTemplateData data response
       ∧ (creator cached, template cached, Types.postId cached, uri cached, token cached)
         = (creator data, template data, postId, uri data, token data)).
Proof.
  intros Hkeyed Hdata Htpl Hdel Hcan Hrun Hno Hwants. simpl.
  pose proof (getPost_postId st postId data Hkeyed Hdata) as Hid.
  rewrite (handlePostUpdate_invokes_handler cfg env postId forceUpdate st data tpl) by done.
  cbv zeta. rewrite Hrun, Hno. cbn -[ClientService.applyResponse]. split.
  - intros Hfailed. split.
    + rewrite applyResponse_mongo. unfold ClientService.refreshFails.
      rewrite Hwants, (bool_decide_eq_true_2 _ Hfailed). simpl.
      rewrite lookup_alter_eq.
      destruct (ClientService.needsStatusUpdate data || ClientService.hasNewVersion response);
        simpl; rewrite ?lookup_alter_eq;
        by destruct (ClientService.mongo_media st !! postId).
    + unfold ClientService.applyResponse.
      rewrite Hwants, (bool_decide_eq_true_2 _ Hfailed). simpl.
      by destruct (ClientService.needsStatusUpdate data
                   || ClientService.hasNewVersion response).
  - intros Hfine. unfold ClientService.applyResponse.
    rewrite Hwants, (bool_decide_eq_false_2 _ Hfine). simpl.
    eexists. split.
    + unfold ClientService.getPost. simpl. rewrite Hid, lookup_insert_eq. reflexivity.
    + simpl. by rewrite Hid.
Qed.

(** A failed post is updated: with a refresh that goes through it is cached
    afresh; with a refresh that fails it stays [FAILED]. *)
Lemma handlePostUpdate_refresh_outcome_witness :
  let garden := Examples.growingEnv (Some "storj://post-1-version-3.json") in
  let st := Examples.storeOf Examples.failedPost in
  (updatedAt <$> ClientService.getPost
     (ClientService.handlePostUpdate Examples.cfg (Examples.serviceEnv 5000 garden)
        "post-1" None st).1 "post-1") = Some 5020
  ∧ (status <$> ClientService.mongo_media
       (ClientService.handlePostUpdate Examples.cfg (Examples.refreshFailingEnv 5000 garden)
          "post-1" None st).1 !! "post-1") = Some (Some FAILED).
Proof.
  intros garden st. split.
  - destruct (handlePostUpdate_refresh_outcome Examples.cfg (Examples.serviceEnv 5000 garden)
                "post-1" None st (ClientService.project_last10 Examples.failedPost)
                Examples.gardenTemplate _ (wellKeyed_storeOf Examples.failedPost)
                eq_refl eq_refl eq_refl eq_refl eq_refl eq_refl eq_refl)
      as [_ Hfine].
    destruct (Hfine ltac:(discriminate)) as (cached & Hget & Hstamp & _).
    rewrite Hget. exact (f_equal Some Hstamp).
  - destruct (handlePostUpdate_refresh_outcome Examples.cfg
                (Examples.refreshFailingEnv 5000 garden)
                "post-1" None st (ClientService.project_last10 Examples.failedPost)
                Examples.gardenTemplate _ (wellKeyed_storeOf Examples.failedPost)
                eq_refl eq_refl eq_refl eq_refl eq_refl eq_refl eq_refl)
      as [Hfailed _].
    destruct (Hfailed eq_refl) as [-> _]. reflexivity.
Defined.

(** [POST /post/:postId/disable] is answered 200 only when the post exists
    and the caller is its recorded creator; a 404 or 401 leaves the service
    as it was. After a 200 the document is marked [DISABLED], the post is out
    of the cache, so that the next read shows the disabled document, and no
    handler has run. *)
Theorem postDisable_only_creator
  (postId : string) (user : option string) (st : ClientService.State) :
  Spec.wellKeyed st →
  let reply := ClientService.postDisable postId user st in
  (reply.2 = 200 ↔
   ∃ data, ClientService.getPost st postId = Some data ∧ user = Some (creator data))
  ∧ (reply.2 ≠ 200 → reply.1 = st ∧ (reply.2 = 404 ∨ reply.2 = 401))
  ∧ (reply.2 = 404 ↔ ClientService.getPost st postId = None)
  ∧ (reply.2 = 200 →
     ClientService.getPost reply.1 postId
     = (λ doc, ClientService.project_last10 (ClientService.set_status (Some DISABLED) doc))
         <$> ClientService.mongo_media st !! postId
     ∧ ClientService.log reply.1 = ClientService.log st
     ∧ Spec.touchesOnly postId st reply.1).
Proof.
  intros Hkeyed. simpl. unfold ClientService.postDisable.
  destruct (ClientService.getPost st postId) as [data |] eqn:Hdata; simpl.
  2:{ split_and!; try done; [| by intros _; split; [| left]].
      split; [done | by intros (? & ? & _)]. }
  pose proof (getPost_postId st postId data Hkeyed Hdata) as Hid.
  case_bool_decide as Huser; simpl.
  - split_and!; try done.
    + split; [| done]. intros _. by exists data.
    + intros _. split_and!; [| done |].
      * unfold ClientService.getPost. simpl. rewrite Hid, lookup_delete_eq, lookup_alter_eq.
        by destruct (ClientService.mongo_media st !! postId).
      * eapply touchesOnly_trans; [apply touchesOnly_updateOne |].
        rewrite <- Hid at 1. apply touchesOnly_removePostFromCache.
  - split_and!; try done; [| by intros _; split; [| right]].
    split; [done |]. intros (d & [= <-] & ->). done.
Qed.

(** The creator disables post-1; a stranger is turned away. *)
Lemma postDisable_only_creator_witness :
  let st := ClientService.cachePost Examples.heroPost (Examples.storeOf Examples.heroPost) in
  (status <$> ClientService.getPost
     (ClientService.postDisable "post-1" (Some "0xc0ffee") st).1 "post-1")
  = Some (Some DISABLED)
  ∧ ClientService.postDisable "post-1" (Some "0xbad") st = (st, 401).
Proof.
  intros st.
  pose proof (wellKeyed_cachePost Examples.heroPost _ (wellKeyed_storeOf Examples.heroPost))
    as Hkeyed.
  split.
  - destruct (postDisable_only_creator "post-1" (Some "0xc0ffee") st Hkeyed)
      as (_ & _ & _ & Hdone).
    destruct (Hdone eq_refl) as (-> & _). reflexivity.
  - destruct (postDisable_only_creator "post-1" (Some "0xbad") st Hkeyed)
      as (_ & Hrefused & _).
    destruct (Hrefused ltac:(discriminate)) as [Hst _].
    apply injective_projections; [exact Hst | reflexivity].
Defined.

(** ** The routes that create a post *)

Section CreateFacts.

Import ClientService ClientRoutes.

(** A preview request takes a free unit or is debited, never both. *)
Lemma handlePreviewCredits_one_of (cfg : Config) (templateName : TemplateName)
  (creator : string) (usage : option TemplateUsage) (defaultModel : option string)
  (st : State) :
  let st' := handlePreviewCredits cfg templateName creator usage defaultModel st in
  (log st' = log st
   ∧ (templateName ∉ PREMIUM_TEMPLATES cfg)
   ∧ ∃ c, redis_counters st !! previewKey creator = Some c
          ∧ count c < FREE_GENERATIONS_PER_HOUR cfg
          ∧ redis_counters st'
            = <[previewKey creator := {| count := count c + 1; ttl := Some 3600 |}]>
                (redis_counters st))
  ∨ (log st'
     = log st ++ [EvDecrementCredits creator (modelOr cfg defaultModel)
                    (default 0 (promptTokens <$> usage))
                    (default 0 (completionTokens <$> usage))
                    (or_zero (usage ≫= imagesCreated))
                    (usage ≫= videoCostParams) (usage ≫= audioCharacters)
                    (usage ≫= customTokens)]
     ∧ redis_counters st' = redis_counters st).
Proof.
  simpl. unfold handlePreviewCredits.
  case_bool_decide as Hpremium; simpl; [by right |].
  destruct (redis_counters st !! previewKey creator) as [c |] eqn:Hc; [| by right].
  destruct (Z.ltb_spec (count c) (FREE_GENERATIONS_PER_HOUR cfg)); [| by right].
  left. split_and!; [done | done |]. by exists c.
Qed.

Lemma handlePreviewCredits_posts (cfg : Config) (templateName : TemplateName)
  (creator : string) (usage : option TemplateUsage) (defaultModel : option string)
  (st : State) :
  let st' := handlePreviewCredits cfg templateName creator usage defaultModel st in
  redis_posts st' = redis_posts st ∧ mongo_media st' = mongo_media st
  ∧ templates st' = templates st.
Proof.
  simpl. unfold handlePreviewCredits.
  destruct (negb _); [| done].
  destruct (redis_counters st !! previewKey creator) as [c |]; [| done].
  by destruct (_ <? _).
Qed.

Lemma persist_log (media : SmartMedia) (svc : Service) :
  log (store (persist media svc)) = log (store svc).
Proof. done. Qed.

Lemma persist_getPost (media : SmartMedia) (svc : Service) :
  getPost (store (persist media svc)) (postId media) = Some media.
Proof. unfold getPost. simpl. by rewrite lookup_insert_eq. Qed.

End CreateFacts.

(** [POST /post/create-preview] by its answer. An answer other than 200 is
    a 400 (the form cannot be read, or the template is not registered) or a
    403 (a premium template and a creator without credits), and leaves the
    service as it was. With a 200 the handler was called once, what
    [formatSmartMedia] made of its response is in the cache under the agent
    id of the answer, and the creator gave either a free unit of the hour or
    a debit, never both; the credits of the creator were looked at for a
    premium template only. *)
Theorem postCreatePreview_answers
  (cfg : ClientService.Config) (env : ClientRoutes.RouteEnv) (creator : string)
  (req : ClientRoutes.PreviewRequest) (svc : ClientRoutes.Service) :
  let run := ClientRoutes.postCreatePreview cfg env creator req svc in
  let st := ClientRoutes.store svc in
  let st' := ClientRoutes.store run.1 in
  (∀ code, run.2 = Ok (ClientRoutes.Status code) →
     run.1 = svc
     ∧ (code = 400
        ∨ (code = 403
           ∧ ∃ n, n ∈ ClientService.PREMIUM_TEMPLATES cfg
                  ∧ ClientRoutes.canAfford env creator n = false)))
  ∧ (∀ agent preview, run.2 = Ok (ClientRoutes.Success (agent, preview)) →
     ∃ n tpl category templateData response,
       ClientService.templates st !! n = Some tpl
       ∧ (n ∈ ClientService.PREMIUM_TEMPLATES cfg →
          ClientRoutes.canAfford env creator n = true)
       ∧ ClientRoutes.previewHandler env n templateData = Ok response
       ∧ preview = response ≫= Types.preview
       ∧ (let media :=
            ClientRoutes.formatSmartMedia env creator category n
              (ClientRoutes.or_else (response ≫= updatedTemplateData) templateData)
              None None None in
          agent = agentId media
          ∧ ClientRoutes.cache run.1 = <[agent := media]> (ClientRoutes.cache svc))
       ∧ ClientService.handlerRuns (ClientService.log st')
         = ClientService.handlerRuns (ClientService.log st)
           ++ [ClientService.EvHandler n None false]
       ∧ ((Spec.debitsOf (ClientService.log st') = Spec.debitsOf (ClientService.log st)
           ∧ (ClientService.name tpl ∉ ClientService.PREMIUM_TEMPLATES cfg)
           ∧ ∃ c, ClientService.redis_counters st !! ClientService.previewKey creator
                  = Some c
                  ∧ ClientService.redis_counters st'
                    = <[ClientService.previewKey creator :=
                          {| ClientService.count := ClientService.count c + 1;
                             ClientService.ttl := Some 3600 |}]>
                        (ClientService.redis_counters st))
          ∨ (length (Spec.debitsOf (ClientService.log st'))
             = S (length (Spec.debitsOf (ClientService.log st)))
             ∧ ClientService.redis_counters st' = ClientService.redis_counters st))).
Proof.
  cbv zeta. unfold ClientRoutes.postCreatePreview.
  destruct (ClientRoutes.formFields (ClientRoutes.pr_data req))
    as [[[templateData category] templateName] | e]; simpl.
  2:{ split; [intros code [= <-]; by split; [| left] | by intros ? ?]. }
  destruct (ClientRoutes.isPremium cfg (ClientRoutes.asName templateName)
            && negb (ClientRoutes.canAfford env creator
                       (default "" (ClientRoutes.asName templateName)))) eqn:Hgate; simpl.
  { split; [| by intros ? ?]. intros code [= <-]. split; [done |]. right. split; [done |].
    apply andb_true_iff in Hgate as [Hpremium Hpoor].
    destruct (ClientRoutes.asName templateName) as [n |]; [| done]. simpl in *.
    exists n. split; [by case_bool_decide | by apply negb_true_iff]. }
  destruct (ClientRoutes.asName templateName) as [n |] eqn:Hname; simpl.
  2:{ split; [intros code [= <-]; by split; [| left] | by intros ? ?]. }
  destruct (ClientService.templates (ClientRoutes.store svc) !! n) as [tpl |] eqn:Htpl; simpl.
  2:{ split; [intros code [= <-]; by split; [| left] | by intros ? ?]. }
  destruct (ClientRoutes.previewHandler env n
              (ClientRoutes.withImage (ClientRoutes.pr_file req) templateData))
    as [response | e] eqn:Hrun; simpl; [| by split; [intros ? ? | intros ? ? ?]].
  split; [by intros ? ? |]. intros agent preview [= <- <-].
  exists n, tpl, category,
    (ClientRoutes.withImage (ClientRoutes.pr_file req) templateData), response.
  split_and!; try done.
  - intros Hin. simpl in Hgate. rewrite (bool_decide_eq_true_2 _ Hin) in Hgate.
    simpl in Hgate. by apply negb_false_iff.
  - set (st1 := ClientService.emit _ (ClientRoutes.store svc)).
    destruct (handlePreviewCredits_one_of cfg (ClientService.name tpl) creator
                (response ≫= totalUsage) (ClientService.defaultModel tpl) st1)
      as [(Hlog & _ & _) | [Hlog _]]; rewrite Hlog.
    + unfold ClientService.handlerRuns. subst st1. simpl. by rewrite filter_app.
    + unfold ClientService.handlerRuns. subst st1. simpl.
      rewrite !filter_app. simpl. by rewrite app_nil_r.
  - set (st1 := ClientService.emit _ (ClientRoutes.store svc)).
    destruct (handlePreviewCredits_one_of cfg (ClientService.name tpl) creator
                (response ≫= totalUsage) (ClientService.defaultModel tpl) st1)
      as [(Hlog & Hfree & c & Hc & _ & Hcount) | [Hlog Hcount]].
    + left. rewrite Hlog. subst st1. split_and!.
      * unfold Spec.debitsOf. simpl. rewrite filter_app. simpl. by rewrite app_nil_r.
      * done.
      * by exists c.
    + right. rewrite Hlog. subst st1. split; [| done].
      unfold Spec.debitsOf. simpl. rewrite !filter_app, !length_app. simpl. lia.
Qed.

(** Example: a preview request for the one registered template. *)
Lemma postCreatePreview_answers_example :
  (ClientRoutes.postCreatePreview Examples.cfg Examples.previewEnv "0xc0ffee"
     Examples.previewRequest Examples.emptyService).2
  = Ok (ClientRoutes.Success ("agent-0xc0ffee", None)).
Proof. vm_compute. reflexivity. Qed.

(** The handler of bonsaiGarden reads [media] only, so a preview request for
    it generates nothing: the answer carries no preview, the template data
    are cached as they were sent (with the uploaded image, if any), and the
    creator still gives a free unit of the hour or is debited, for no usage. *)
Theorem postCreatePreview_bonsai_garden_previews_nothing
  (cfg : ClientService.Config) (env : ClientRoutes.RouteEnv) (creator : string)
  (req : ClientRoutes.PreviewRequest) (svc : ClientRoutes.Service)
  (garden : BonsaiGarden.HandlerEnv) (fuel : nat)
  (templateData category : option json) (n : TemplateName) (tpl : ClientService.Template) :
  ClientRoutes.formFields (ClientRoutes.pr_data req)
  = Ok (templateData, category, Some (JStr n)) →
  ClientService.templates (ClientRoutes.store svc) !! n = Some tpl →
  n ∉ ClientService.PREMIUM_TEMPLATES cfg →
  (∀ data, ClientRoutes.previewHandler env n data
           = Ok (BonsaiGarden.handler garden fuel None false).1) →
  let run := ClientRoutes.postCreatePreview cfg env creator req svc in
  let media :=
    ClientRoutes.formatSmartMedia env creator category n
      (ClientRoutes.withImage (ClientRoutes.pr_file req) templateData) None None None in
  let before := Spec.debitsOf (ClientService.log (ClientRoutes.store svc)) in
  let after := Spec.debitsOf (ClientService.log (ClientRoutes.store run.1)) in
  run.2 = Ok (ClientRoutes.Success (agentId media, None))
  ∧ ClientRoutes.cache run.1 !! agentId media = Some media
  ∧ (after = before
     ∨ after = before
               ++ [ClientService.EvDecrementCredits creator
                     (ClientService.modelOr cfg (ClientService.defaultModel tpl))
                     0 0 0 None None None]).
Proof.
  intros Hform Htpl Hfree Hhandler. cbv zeta.
  unfold ClientRoutes.postCreatePreview. rewrite Hform. simpl.
  rewrite (bool_decide_eq_false_2 _ Hfree). simpl. rewrite Htpl, Hhandler. simpl.
  split_and!; [done | by rewrite lookup_insert_eq |].
  set (st1 := ClientService.emit _ (ClientRoutes.store svc)).
  assert (Spec.debitsOf (ClientService.log st1)
          = Spec.debitsOf (ClientService.log (ClientRoutes.store svc))) as <-.
  { subst st1. rewrite debitsOf_emit. simpl. by rewrite app_nil_r. }
  destruct (handlePreviewCredits_one_of cfg (ClientService.name tpl) creator None
              (ClientService.defaultModel tpl) st1) as [(Hlog & _) | [Hlog _]];
    rewrite Hlog; [by left | right].
  unfold Spec.debitsOf. by rewrite filter_app.
Qed.

(** A creator whose free units are used up asks for a preview: no preview
    comes back, a debit for nothing is recorded. *)
Lemma postCreatePreview_bonsai_garden_previews_nothing_witness :
  let run := ClientRoutes.postCreatePreview Examples.cfg Examples.previewEnv "0xc0ffee"
               Examples.previewRequest Examples.emptyService in
  run.2 = Ok (ClientRoutes.Success ("agent-0xc0ffee", None))
  ∧ ClientService.log (ClientRoutes.store run.1)
    = [ClientService.EvHandler "bonsai_garden" None false;
       ClientService.EvDecrementCredits "0xc0ffee" "gpt-4o-mini" 0 0 0 None None None].
Proof.
  intros run.
  destruct (postCreatePreview_bonsai_garden_previews_nothing Examples.cfg Examples.previewEnv
              "0xc0ffee" Examples.previewRequest Examples.emptyService Examples.gardenEnv 2
              (Some (JObj [("personality", JStr "brave"); ("action", JStr "resting")]))
              (Some (JStr "bonsai_garden")) "bonsai_garden" Examples.gardenTemplate
              eq_refl eq_refl ltac:(vm_compute; set_solver) ltac:(reflexivity))
    as (Hreply & _ & _).
  split; [exact Hreply | vm_compute; reflexivity].
Defined.

(** A preview is committed once. [POST /post/create] with the agent id of a
    cached preview answers 200 with the post that [formatSmartMedia] builds
    for the caller from the preview, takes the preview out of the cache,
    caches the post and, for a post id not yet in the collection, inserts it
    as [ACTIVE] with no versions; it runs no handler and debits nothing. The
    same request sent again, by anyone, is answered 400 and changes nothing. *)
Theorem postCreate_commits_preview_once
  (env : ClientRoutes.RouteEnv) (creator : string) (req : ClientRoutes.CreateRequest)
  (svc : ClientRoutes.Service) (agent : string) (preview : SmartMedia) :
  ClientRoutes.cr_agentId req = Some agent → agent ≠ "" →
  ClientRoutes.cache svc !! agent = Some preview →
  let media :=
    ClientRoutes.formatSmartMedia env creator (Some (JStr (category preview)))
      (template preview) (templateData preview)
      (ClientRoutes.cr_postId req) (ClientRoutes.cr_uri req) (ClientRoutes.cr_token req) in
  let first := ClientRoutes.postCreate env creator req svc in
  first.2 = Ok (ClientRoutes.Success media)
  ∧ ClientRoutes.cache first.1 = delete agent (ClientRoutes.cache svc)
  ∧ ClientService.getPost (ClientRoutes.store first.1) (postId media) = Some media
  ∧ (ClientService.mongo_media (ClientRoutes.store svc) !! postId media = None →
     ClientService.mongo_media (ClientRoutes.store first.1) !! postId media
     = Some (ClientService.set_status (Some ACTIVE)
               (ClientService.set_versions (Some []) media)))
  ∧ ClientService.log (ClientRoutes.store first.1)
    = ClientService.log (ClientRoutes.store svc)
  ∧ ∀ other, ClientRoutes.postCreate env other req first.1
             = (first.1, Ok (ClientRoutes.Status 400)).
Proof.
  intros Hagent Hnonempty Hpreview. cbv zeta.
  assert (truthy_opt_string (ClientRoutes.cr_agentId req) = true) as Htruthy.
  { rewrite Hagent. simpl. by apply truthy_string_true. }
  unfold ClientRoutes.postCreate. rewrite Htruthy, Hagent. simpl. rewrite Hpreview. simpl.
  split_and!; try done.
  - unfold ClientService.getPost. simpl. by rewrite lookup_insert_eq.
  - intros ->. by rewrite lookup_insert_eq.
  - intros other. by rewrite lookup_delete_eq.
Qed.

(** A stranger commits the preview of above; the second attempt fails. *)
Lemma postCreate_commits_preview_once_witness :
  let req := Examples.createRequest in
  let svc := ClientRoutes.cachePreview Examples.heroPreview Examples.emptyService in
  let first := ClientRoutes.postCreate Examples.previewEnv "0xbad" req svc in
  (creator <$> ClientService.getPost (ClientRoutes.store first.1) "post-9") = Some "0xbad"
  ∧ ClientRoutes.postCreate Examples.previewEnv "0xc0ffee" req first.1
    = (first.1, Ok (ClientRoutes.Status 400)).
Proof.
  intros req svc first.
  destruct (postCreate_commits_preview_once Examples.previewEnv "0xbad" req svc
              "agent-0xc0ffee" Examples.heroPreview eq_refl ltac:(discriminate) eq_refl)
    as (_ & _ & Hget & _ & _ & Hagain).
  split; [| exact (Hagain "0xc0ffee")].
  change "post-9" with
    (postId (ClientRoutes.formatSmartMedia Examples.previewEnv "0xbad"
               (Some (JStr (category Examples.heroPreview)))
               (template Examples.heroPreview) (templateData Examples.heroPreview)
               (ClientRoutes.cr_postId req) (ClientRoutes.cr_uri req)
               (ClientRoutes.cr_token req))).
  fold first in Hget. rewrite Hget. reflexivity.
Defined.

(** [POST /post/create] never debits and never counts a free preview, on
    any of its paths: the one that generates the first version from
    [params] checks that the creator can afford it and runs the handler,
    once, but leaves the usage of that run unbilled. *)
Theorem postCreate_never_debits
  (env : ClientRoutes.RouteEnv) (creator : string) (req : ClientRoutes.CreateRequest)
  (svc : ClientRoutes.Service) :
  let run := ClientRoutes.postCreate env creator req svc in
  let st := ClientRoutes.store svc in
  let st' := ClientRoutes.store run.1 in
  Spec.debitsOf (ClientService.log st') = Spec.debitsOf (ClientService.log st)
  ∧ ClientService.redis_counters st' = ClientService.redis_counters st
  ∧ (∀ media, run.2 = Ok (ClientRoutes.Success media) →
     ClientRoutes.cr_agentId req = None →
     ∃ params response,
       ClientRoutes.cr_params req = Some params
       ∧ ClientRoutes.canAfford env creator (ClientRoutes.cp_templateName params) = true
       ∧ ClientRoutes.previewHandler env (ClientRoutes.cp_templateName params)
           (ClientRoutes.cp_templateData params) = Ok response
       ∧ ClientService.handlerRuns (ClientService.log st')
         = ClientService.handlerRuns (ClientService.log st)
           ++ [ClientService.EvHandler (ClientRoutes.cp_templateName params) None false]).
Proof.
  cbv zeta. unfold ClientRoutes.postCreate.
  destruct (truthy_opt_string (ClientRoutes.cr_agentId req)) eqn:Hagent.
  { destruct (ClientRoutes.cache svc !! default "" (ClientRoutes.cr_agentId req));
      simpl; (split_and!; [done | done |]).
    - intros media _ Hnone. rewrite Hnone in Hagent. discriminate.
    - by intros ? ?. }
  destruct (ClientRoutes.cr_params req) as [params |]; simpl;
    [| by split_and!; [| | intros ? ?]].
  destruct (ClientService.templates (ClientRoutes.store svc)
              !! ClientRoutes.cp_templateName params) as [tpl |]; simpl;
    [| by split_and!; [| | intros ? ?]].
  destruct (ClientRoutes.canAfford env creator (ClientRoutes.cp_templateName params))
    eqn:Hcan; simpl; [| by split_and!; [| | intros ? ?]].
  destruct (ClientRoutes.previewHandler env (ClientRoutes.cp_templateName params)
              (ClientRoutes.cp_templateData params)) as [response | e] eqn:Hrun; simpl.
  - split_and!.
    + unfold Spec.debitsOf. rewrite filter_app. simpl. by rewrite app_nil_r.
    + done.
    + intros media _ _. exists params, response. split_and!; try done.
      unfold ClientService.handlerRuns. by rewrite filter_app.
  - split_and!; [| done | by intros ? ?].
    unfold Spec.debitsOf. rewrite filter_app. simpl. by rewrite app_nil_r.
Qed.

(** ** The parsers that never give up *)

Section BackoffInversion.

Import Generation.

Context {A : Type}.
Variable attempt : nat → result (option A).

(** A loop that has returned did so at the first attempt with an answer. *)
Lemma backoffLoop_finished_inv (fuel k : nat) (d : Z) (waits ws : list Z) (a : A) :
  backoffLoop attempt fuel k d waits = Finished a ws →
  ∃ n, (n < fuel)%nat
       ∧ attempt (k + n) = Ok (Some a)
       ∧ ws = waits ++ Spec.backoffDelays d n
       ∧ ∀ j, (k ≤ j < k + n)%nat → noAnswer attempt j.
Proof.
  revert k d waits. induction fuel as [| fuel IH]; intros k d waits; [done |].
  simpl. destruct (attempt k) as [[a' |] | e] eqn:Hk; simpl.
  - intros [= <- <-]. exists 0%nat. rewrite Nat.add_0_r, app_nil_r.
    split_and!; [lia | done | done | intros j Hj; lia].
  - intros H. destruct (IH _ _ _ H) as (n & Hn & Hok & -> & Hfail).
    exists (S n). rewrite backoffDelays_S, <- app_assoc. split_and!; [lia | | done |].
    + by replace (k + S n)%nat with (S k + n)%nat by lia.
    + intros j Hj. destruct (decide (j = k)) as [-> | Hne].
      * unfold noAnswer. by rewrite Hk.
      * apply Hfail. lia.
  - intros H. destruct (IH _ _ _ H) as (n & Hn & Hok & -> & Hfail).
    exists (S n). rewrite backoffDelays_S, <- app_assoc. split_and!; [lia | | done |].
    + by replace (k + S n)%nat with (S k + n)%nat by lia.
    + intros j Hj. destruct (decide (j = k)) as [-> | Hne].
      * unfold noAnswer. by rewrite Hk.
      * apply Hfail. lia.
Qed.

End BackoffInversion.

(** [generateShouldRespond] and [generateTweetActions] return the first
    truthy answer their parser finds: after [n] rounds without one (the call
    or the parser threw, or the parser found nothing or something falsy) they
    have waited 1000, 2000, ... milliseconds, and the answer of round [n] is
    returned whatever the fuel beyond it. They have no other way out of the
    loop: what they return is never [null] or empty, and while the provider
    is down they go on, each wait twice the one before. *)
Theorem generateShouldRespond_never_gives_up
  (generateTextOnly : nat → result string) (trim : string → string)
  (parseShouldRespondFromText : string → result (option string))
  (parseActionResponseFromText : string → result (option json))
  (n : nat) (text verdict : string) (found : json) :
  let respond :=
    Generation.generateShouldRespond generateTextOnly trim parseShouldRespondFromText in
  let actions :=
    Generation.generateTweetActions generateTextOnly trim parseActionResponseFromText in
  let unanswered (k : nat) :=
    ∀ answer, generateTextOnly k = Ok answer →
      (∀ v, parseShouldRespondFromText (trim answer) = Ok (Some v) → v = "")
      ∧ (∀ v, parseActionResponseFromText (trim answer) = Ok (Some v) → truthy v = false) in
  (∀ k, (k < n)%nat → unanswered k) →
  generateTextOnly n = Ok text →
  parseShouldRespondFromText (trim text) = Ok (Some verdict) → verdict ≠ "" →
  parseActionResponseFromText (trim text) = Ok (Some found) → truthy found = true →
  (∀ fuel, (n < fuel)%nat →
     respond fuel = Generation.Finished verdict (Spec.backoffDelays 1000 n)
     ∧ actions fuel = Generation.Finished found (Spec.backoffDelays 1000 n))
  ∧ respond n = Generation.Pending n (1000 * 2 ^ Z.of_nat n) (Spec.backoffDelays 1000 n)
  ∧ actions n = Generation.Pending n (1000 * 2 ^ Z.of_nat n) (Spec.backoffDelays 1000 n)
  ∧ (∀ fuel v waits, respond fuel = Generation.Finished v waits → v ≠ "")
  ∧ (∀ fuel v waits, actions fuel = Generation.Finished v waits → truthy v = true)
  ∧ ((∀ k, ∃ e, generateTextOnly k = Throw e) →
     ∀ m, respond m
          = Generation.Pending m (1000 * 2 ^ Z.of_nat m) (Spec.backoffDelays 1000 m)
          ∧ actions m
            = Generation.Pending m (1000 * 2 ^ Z.of_nat m) (Spec.backoffDelays 1000 m)
          ∧ Spec.total (Spec.backoffDelays 1000 m) = 1000 * (2 ^ Z.of_nat m - 1)).
Proof.
  cbv zeta. intros Hfail Htext Hverdict Hv Hfound Hf.
  assert (∀ k, (k < n)%nat →
            Generation.noAnswer
              (Generation.shouldRespondAttempt generateTextOnly trim
                 parseShouldRespondFromText) k) as Hrespond.
  { intros k Hk. unfold Generation.noAnswer, Generation.shouldRespondAttempt. simpl.
    destruct (generateTextOnly k) as [answer |] eqn:Hanswer; [| done]. simpl.
    destruct (Hfail k Hk answer Hanswer) as [Hempty _].
    destruct (parseShouldRespondFromText (trim answer)) as [[v |] |]; try done. simpl.
    by rewrite (Hempty v eq_refl). }
  assert (∀ k, (k < n)%nat →
            Generation.noAnswer
              (Generation.tweetActionsAttempt generateTextOnly trim
                 parseActionResponseFromText) k) as Hactions.
  { intros k Hk. unfold Generation.noAnswer, Generation.tweetActionsAttempt. simpl.
    destruct (generateTextOnly k) as [answer |] eqn:Hanswer; [| done]. simpl.
    destruct (Hfail k Hk answer Hanswer) as [_ Hfalsy].
    destruct (parseActionResponseFromText (trim answer)) as [[v |] |]; try done. simpl.
    by rewrite (Hfalsy v eq_refl). }
  apply truthy_string_true in Hv.
  split_and!.
  - intros fuel Hfuel. split.
    + unfold Generation.generateShouldRespond.
      rewrite (backoffLoop_finished _ n fuel 0 1000 [] verdict); try done.
      * intros j Hj. apply Hrespond. lia.
      * unfold Generation.shouldRespondAttempt. simpl. rewrite Htext. simpl.
        rewrite Hverdict. simpl. by rewrite Hv.
    + unfold Generation.generateTweetActions.
      rewrite (backoffLoop_finished _ n fuel 0 1000 [] found); try done.
      * intros j Hj. apply Hactions. lia.
      * unfold Generation.tweetActionsAttempt. simpl. rewrite Htext. simpl.
        rewrite Hfound. simpl. by rewrite Hf.
  - unfold Generation.generateShouldRespond.
    rewrite backoffLoop_pending by (intros j Hj; apply Hrespond; lia). done.
  - unfold Generation.generateTweetActions.
    rewrite backoffLoop_pending by (intros j Hj; apply Hactions; lia). done.
  - intros fuel v waits H.
    apply backoffLoop_finished_inv in H as (k & _ & Hok & _).
    unfold Generation.shouldRespondAttempt in Hok. simpl in Hok.
    destruct (generateTextOnly k) as [answer |]; [| done]. simpl in Hok.
    destruct (parseShouldRespondFromText (trim answer)) as [[v' |] |]; simpl in Hok;
      try done.
    destruct (truthy_string v') eqn:Hv'; [| done]. injection Hok as <-.
    by apply truthy_string_true.
  - intros fuel v waits H.
    apply backoffLoop_finished_inv in H as (k & _ & Hok & _).
    unfold Generation.tweetActionsAttempt in Hok. simpl in Hok.
    destruct (generateTextOnly k) as [answer |]; [| done]. simpl in Hok.
    destruct (parseActionResponseFromText (trim answer)) as [[v' |] |]; simpl in Hok;
      try done.
    destruct (truthy v') eqn:Hv'; [| done]. by injection Hok as <-.
  - intros Hdown m. split_and!.
    + unfold Generation.generateShouldRespond.
      rewrite backoffLoop_pending; [done |].
      intros j _. unfold Generation.noAnswer, Generation.shouldRespondAttempt.
      destruct (Hdown j) as [e ->]. done.
    + unfold Generation.generateTweetActions.
      rewrite backoffLoop_pending; [done |].
      intros j _. unfold Generation.noAnswer, Generation.tweetActionsAttempt.
      destruct (Hdown j) as [e ->]. done.
    + apply total_backoffDelays.
Qed.

(** An empty verdict, an error, then "RESPOND": returned after waits of
    1000 and 2000, by both functions. *)
Lemma generateShouldRespond_never_gives_up_witness :
  Generation.generateShouldRespond Examples.verdictModel (λ s, s) Examples.parseVerdict 3
  = Generation.Finished "RESPOND" [1000; 2000]
  ∧ Generation.generateTweetActions Examples.verdictModel (λ s, s) Examples.parseActions 5
    = Generation.Finished (JObj [("like", JBool true)]) [1000; 2000].
Proof.
  destruct (generateShouldRespond_never_gives_up Examples.verdictModel (λ s, s)
              Examples.parseVerdict Examples.parseActions 2 "RESPOND" "RESPOND"
              (JObj [("like", JBool true)])) as (Hdone & _).
  - intros k Hk answer Hanswer.
    destruct k as [| [| k]]; [| discriminate | lia].
    injection Hanswer as <-. split; intros v [= <-]; reflexivity.
  - reflexivity.
  - reflexivity.
  - discriminate.
  - reflexivity.
  - reflexivity.
  - split; [apply (Hdone 3%nat); lia | apply (Hdone 5%nat); lia].
Defined.

(** ** The rpgGame handler *)

Section PropertyFacts.

Lemma assoc_set_prop (k : string) (v : json) (props : list (string * json)) :
  assoc k (RpgGame.set_prop k v props) = Some v.
Proof.
  induction props as [| [k' v'] rest IH]; simpl.
  - by rewrite String.eqb_refl.
  - destruct (String.eqb k k') eqn:Hk; simpl; by rewrite Hk.
Qed.

Lemma assoc_set_prop_other (k k' : string) (v : json) (props : list (string * json)) :
  k' ≠ k → assoc k' (RpgGame.set_prop k v props) = assoc k' props.
Proof.
  intros Hne. induction props as [| [k0 v0] rest IH]; simpl.
  - by apply String.eqb_neq in Hne as ->.
  - destruct (String.eqb k k0) eqn:Hk; simpl.
    + apply String.eqb_eq in Hk as <-. by apply String.eqb_neq in Hne as ->.
    + by rewrite IH.
Qed.

(** What [recordPage] leaves when it does not throw. *)
Lemma recordPage_appends (td : json) (entry : string) (props : list (string * json)) :
  RpgGame.recordPage td entry = Ok props →
  assoc "previousPages" props
  = Some (JArr (match assoc "previousPages" (RpgGame.own td) with
                | Some (JArr pages) => pages
                | _ => []
                end ++ [JStr entry]))
  ∧ ∀ k, k ≠ "previousPages" → assoc k props = assoc k (RpgGame.own td).
Proof.
  unfold RpgGame.recordPage.
  destruct (assoc "previousPages" (RpgGame.own td)) as [pages |] eqn:Hpages; simpl.
  - destruct (truthy pages) eqn:Htruthy.
    + destruct pages; try done. intros [= <-].
      split; [apply assoc_set_prop | intros k Hk; by apply assoc_set_prop_other].
    + destruct (RpgGame.extensible td); [| done]. intros [= <-].
      split; [| intros k Hk; by apply assoc_set_prop_other].
      rewrite assoc_set_prop. by destruct pages.
  - destruct (RpgGame.extensible td); [| done]. intros [= <-].
    split; [apply assoc_set_prop | intros k Hk; by apply assoc_set_prop_other].
Qed.

(** The text of a page cannot be built exactly when the page is [null] or
    has no [decisions]. *)
Lemma pageText_throws (env : RpgGame.HandlerEnv) (page : json) :
  (∃ e, RpgGame.pageText env page = Throw e)
  ↔ page = JNull
    ∨ get_prop page "decisions" = Ok None
    ∨ get_prop page "decisions" = Ok (Some JNull).
Proof.
  unfold RpgGame.pageText.
  destruct page as [| b | n | s | items | fields]; simpl;
    try (split; [intros _; right; by left | intros _; by eexists]).
  - split; [by left | intros _; by eexists].
  - destruct (assoc "decisions" fields) as [decisions |]; simpl.
    + destruct decisions; simpl;
        try (split; [by intros [? ?] | by intros [? | [? | ?]]]).
      split; [intros _; right; by right | intros _; by eexists].
    + split; [intros _; right; by left | intros _; by eexists].
Qed.

(** A page whose text can be built can be turned. *)
Lemma turnPage_after_text (env : RpgGame.HandlerEnv) (page : json) (text : string)
  (props : list (string * json)) :
  RpgGame.pageText env page = Ok text → ∃ updated, RpgGame.turnPage page props = Ok updated.
Proof.
  unfold RpgGame.turnPage. destruct page; simpl; try done; by eexists.
Qed.

End PropertyFacts.

(** A refresh by the rpgGame handler that returns a page has made three
    calls, in this order: the decision, the next page, the publication. The
    decision taken is the content of the first decision of the model's
    answer when the answer has decisions with a length, and the first
    decision of the current page when it has none. The story grows by exactly
    one entry, the chapter that was current with the decision taken, written
    to the template data of the media; every other property is kept. The new
    chapter and decisions replace the current ones in the template data
    returned. The usage is that of the two model calls, with no image. *)
Theorem rpgGame_refresh_records_decision
  (env : RpgGame.HandlerEnv) (media : SmartMedia) (td : json)
  (other : option json) (forceUpdate : bool) (page : RpgGame.Page) :
  templateData media = Some td → truthy td = true →
  let run := RpgGame.handler env (Some media) other forceUpdate in
  let current := assoc "decisions" (RpgGame.own td) in
  RpgGame.returned run = Some (RpgGame.Generated page) →
  ∃ weighted answer usage1 asked decision props next usage2,
    RpgGame.decide env current weighted = Ok (answer, usage1)
    ∧ get_prop answer "decisions" = Ok asked
    ∧ (RpgGame.truthy_opt (RpgGame.length_of asked) = true →
       ∃ first, RpgGame.index asked 0 = Ok first
                ∧ RpgGame.prop first "content" = Ok decision)
    ∧ (RpgGame.truthy_opt (RpgGame.length_of asked) = false →
       RpgGame.index current 0 = Ok decision)
    ∧ (∀ first rest, asked = Some (JArr (first :: rest)) →
                     get_prop first "content" = Ok decision)
    ∧ (asked = None ∨ asked = Some (JArr []) → RpgGame.index current 0 = Ok decision)
    ∧ (let entry := RpgGame.entryFor env (RpgGame.own td) decision in
       RpgGame.recordPage td entry = Ok props
       ∧ RpgGame.written run = Some props
       ∧ assoc "previousPages" props
         = Some (JArr (match assoc "previousPages" (RpgGame.own td) with
                       | Some (JArr pages) => pages
                       | _ => []
                       end ++ [JStr entry]))
       ∧ (∀ k, k ≠ "previousPages" → assoc k props = assoc k (RpgGame.own td)))
    ∧ RpgGame.nextPage env (RpgGame.pageState props) = Ok (next, usage2)
    ∧ RpgGame.calls run
      = [RpgGame.EvDecide current weighted;
         RpgGame.EvNextPage (RpgGame.pageState props);
         RpgGame.EvPublish (RpgGame.text page)]
    ∧ RpgGame.pageText env next = Ok (RpgGame.text page)
    ∧ RpgGame.turnPage next props = Ok (RpgGame.updatedTemplateData page)
    ∧ RpgGame.metadata page = Some (RpgGame.text page)
    ∧ RpgGame.refreshMetadata page = true
    ∧ imagesCreated (RpgGame.totalUsage page) = Some 0
    ∧ promptTokens (RpgGame.totalUsage page)
      = Generation.promptTokens usage1 + Generation.promptTokens usage2
    ∧ completionTokens (RpgGame.totalUsage page)
      = Generation.completionTokens usage1 + Generation.completionTokens usage2
    ∧ totalTokens (RpgGame.totalUsage page)
      = Generation.totalTokens usage1 + Generation.totalTokens usage2.
Proof.
  intros Hdata Htruthy. cbv zeta. unfold RpgGame.handler. simpl.
  rewrite Hdata. simpl. rewrite Htruthy. simpl. rewrite Htruthy. simpl.
  unfold RpgGame.refreshPage.
  destruct (BonsaiGarden.commentsToEvaluate (RpgGame.lens env) media td forceUpdate)
    as [[comments |] | e]; [| done | done].
  destruct (BonsaiGarden.fetchAllCollectorsFor (RpgGame.lens env) (postId media))
    as [allCollectors | e]; [| done]. simpl.
  destruct (mapM (BonsaiGarden.weighComment (RpgGame.lens env) media allCollectors) comments)
    as [weighted | e]; [| done].
  destruct (RpgGame.decide env (assoc "decisions" (RpgGame.own td)) weighted)
    as [[answer usage1] | e] eqn:Hdecide; [| done].
  destruct (RpgGame.decisionTaken (RpgGame.own td) answer) as [decision | e] eqn:Htaken;
    [| done].
  destruct (RpgGame.recordPage td (RpgGame.entryFor env (RpgGame.own td) decision))
    as [props | e] eqn:Hrecord; [| done].
  unfold RpgGame.writePage. simpl.
  destruct (RpgGame.nextPage env (RpgGame.pageState props)) as [[next usage2] | e] eqn:Hnext;
    [| done].
  destruct (RpgGame.pageText env next) as [text | e] eqn:Htext; [| done].
  destruct (RpgGame.publish env media text) as [uri | e]; [| done]. simpl.
  destruct (RpgGame.turnPage next props) as [updated | e] eqn:Hturn; [| done].
  intros [= <-]. simpl.
  unfold RpgGame.decisionTaken in Htaken.
  destruct (get_prop answer "decisions") as [asked | e] eqn:Hasked; [| done].
  simpl in Htaken.
  destruct (recordPage_appends td _ props Hrecord) as [Hpages Hkept].
  exists weighted, answer, usage1, asked, decision, props, next, usage2.
  split_and!; try done.
  - intros Hlength. rewrite Hlength in Htaken. simpl in Htaken.
    destruct (RpgGame.index asked 0) as [first | e]; [| done]. by exists first.
  - intros Hlength. by rewrite Hlength in Htaken.
  - intros first rest ->. by simpl in Htaken.
  - intros [-> | ->]; by simpl in Htaken.
Qed.

(** The model puts "Climb" first, the second decision of the page: "Climb"
    is recorded with the chapter that was current. *)
Lemma rpgGame_refresh_records_decision_witness :
  ∃ page,
    RpgGame.returned (RpgGame.handler Examples.rpgEnv (Some Examples.dungeonMedia) None false)
    = Some (RpgGame.Generated page)
    ∧ (assoc "previousPages"
       <$> RpgGame.written
             (RpgGame.handler Examples.rpgEnv (Some Examples.dungeonMedia) None false))
      = Some (Some (JArr [JStr "The Road; Walk on"; JStr "The Gate; Climb"]))
    ∧ promptTokens (RpgGame.totalUsage page) = 24.
Proof.
  eexists. split; [vm_compute; reflexivity |].
  destruct (rpgGame_refresh_records_decision Examples.rpgEnv Examples.dungeonMedia
              Examples.dungeon None false _ eq_refl eq_refl eq_refl)
    as (weighted & answer & usage1 & asked & decision & props & next & usage2
        & Hdecide & Hasked & _ & _ & Hfirst & _ & Hstory & Hnext & _ & _ & _ & _ & _ & _
        & Hprompt & _).
  injection Hdecide as <- <-. injection Hasked as <-.
  specialize (Hfirst _ _ eq_refl). injection Hfirst as <-.
  destruct Hstory as (_ & -> & Hpages & _). injection Hnext as <- <-.
  split; [simpl; by rewrite Hpages | exact Hprompt].
Defined.

(** When the model returns no decision the first decision of the page is
    recorded, and a page without decisions makes the handler return
    nothing, after the story has grown. *)
Example rpgGame_refresh_other_answers :
  (assoc "previousPages"
   <$> RpgGame.written
         (RpgGame.handler Examples.undecidedEnv (Some Examples.dungeonMedia) None false))
  = Some (Some (JArr [JStr "The Road; Walk on"; JStr "The Gate; Knock"]))
  ∧ RpgGame.returned
      (RpgGame.handler Examples.dullEnv (Some Examples.dungeonMedia) None false) = None
  ∧ (assoc "previousPages"
     <$> RpgGame.written
           (RpgGame.handler Examples.dullEnv (Some Examples.dungeonMedia) None false))
    = Some (Some (JArr [JStr "The Road; Walk on"; JStr "The Gate; Climb"])).
Proof. by vm_compute. Qed.



(** A page without decisions: the preview returns nothing. *)
Example rpgGame_preview_without_decisions :
  RpgGame.handler Examples.dullEnv None (Some Examples.dungeon) false
  = {| RpgGame.returned := None;
       RpgGame.calls := [RpgGame.EvNextPage (RpgGame.pageState (RpgGame.own Examples.dungeon))];
       RpgGame.written := None |}.
Proof. by vm_compute. Qed.

(** ** Reading a post and asking for its update *)

(** [GET /post/:postId] shows at most the last ten versions of a post. For
    a post that is not cached the versions and the status are those of the
    document. For a post cached without versions and status, as
    [handlePostUpdate] caches it, the answer has neither, whatever the
    document says, unless [withVersions] is a non-empty string ("false"
    included): then they are read from the document. The answer is 404
    exactly when [getPost] finds nothing. *)
Theorem getPostRoute_reports_last_versions
  (postId : string) (withVersions : option string) (st : ClientService.State)
  (data : SmartMedia) (tpl : ClientService.Template) :
  ClientService.getPost st postId = Some data →
  ClientService.templates st !! template data = Some tpl →
  let doc := ClientService.mongo_media st !! postId in
  let stored := doc ≫= versions in
  ∃ view,
    ClientRoutes.getPostRoute postId withVersions st = Ok (ClientRoutes.Success view)
    ∧ ClientRoutes.view_data view = data
    ∧ (ClientService.redis_posts st !! postId = None →
       ClientRoutes.view_versions view = array_slice (-10) <$> stored
       ∧ ClientRoutes.view_status view = doc ≫= status
       ∧ ∀ shown, ClientRoutes.view_versions view = Some shown →
                  (length shown ≤ 10)%nat ∧ ∃ all, stored = Some all ∧ shown `suffix_of` all)
    ∧ (ClientService.redis_posts st !! postId = Some data →
       versions data = None → status data = None →
       (truthy_opt_string withVersions = false →
        ClientRoutes.view_versions view = None ∧ ClientRoutes.view_status view = None)
       ∧ (truthy_opt_string withVersions = true →
          ClientRoutes.view_versions view = array_slice (-10) <$> stored
          ∧ ClientRoutes.view_status view = doc ≫= status)).
Proof.
  intros Hdata Htpl. cbv zeta. unfold ClientRoutes.getPostRoute.
  rewrite Hdata, Htpl. eexists. split; [done |]. simpl. split; [done |]. split.
  - intros Hmiss. unfold ClientService.getPost in Hdata. rewrite Hmiss in Hdata.
    destruct (ClientService.mongo_media st !! postId) as [d |]; [| done].
    injection Hdata as <-. simpl.
    assert (∀ shown, array_slice (-10) <$> versions d = Some shown →
                     (length shown ≤ 10)%nat
                     ∧ ∃ all, versions d = Some all ∧ shown `suffix_of` all) as Hlast.
    { intros shown Hshown. destruct (versions d) as [all |]; [| done].
      injection Hshown as <-.
      destruct (array_slice_suffix 10 all ltac:(lia)) as (dropped & Hall & Hlen).
      change (- (10)) with (-10) in Hall, Hlen.
      split; [lia |]. exists all. split; [done |]. by exists dropped. }
    destruct (truthy_opt_string withVersions); simpl.
    + destruct (versions d) as [all |] eqn:Hv; simpl.
      * by split_and!.
      * destruct (negb _); by split_and!.
    + by split_and!.
  - intros Hcached Hv Hs. rewrite Hv, Hs.
    rewrite !bool_decide_eq_false_2 by (by intros [? ?]).
    split; intros ->; simpl; [done |].
    by destruct (ClientService.mongo_media st !! postId).
Qed.

(** The cached copy hides the failure; [?withVersions=false] shows it, with
    the last ten of the twelve versions. *)
Lemma getPostRoute_reports_last_versions_witness :
  ∃ plain full,
    ClientRoutes.getPostRoute "post-1" None Examples.staleCacheStore
    = Ok (ClientRoutes.Success plain)
    ∧ ClientRoutes.getPostRoute "post-1" (Some "false") Examples.staleCacheStore
      = Ok (ClientRoutes.Success full)
    ∧ ClientRoutes.view_status plain = None
    ∧ ClientRoutes.view_status full = Some FAILED
    ∧ ClientRoutes.view_versions full
      = Some ["v3"; "v4"; "v5"; "v6"; "v7"; "v8"; "v9"; "v10"; "v11"; "v12"].
Proof.
  destruct (getPostRoute_reports_last_versions "post-1" None Examples.staleCacheStore
              Examples.cachedHero Examples.gardenTemplate eq_refl eq_refl)
    as (plain & Hplain & _ & _ & Hcached).
  destruct (getPostRoute_reports_last_versions "post-1" (Some "false")
              Examples.staleCacheStore Examples.cachedHero Examples.gardenTemplate
              eq_refl eq_refl)
    as (full & Hfull & _ & _ & Hqueried).
  exists plain, full. split; [exact Hplain |]. split; [exact Hfull |].
  destruct (Hcached eq_refl eq_refl eq_refl) as [Hquiet _].
  destruct (Hquiet eq_refl) as [_ Hstatus].
  destruct (Hqueried eq_refl eq_refl eq_refl) as [_ Hshown].
  destruct (Hshown eq_refl) as [Hversions Hfailed].
  split; [exact Hstatus |]. split; [exact Hfailed | exact Hversions].
Defined.

(** ** An empty context *)

(** The parsers call [generateText] without [messages]. With an empty
    context, the default of [generateTrueOrFalse], every such call throws at
    its first statement, before any provider is reached, and the error is
    caught by the loop: [generateTrueOrFalse], [generateShouldRespond] and
    [generateTweetActions] never return, sleeping 1000, 2000, 4000, ...
    milliseconds. [generateTextArray] and [generateObjectArray] test the
    context themselves and answer with an empty array. *)
Theorem empty_context_is_retried_forever
  (rest : nat → result string) (trim : string → string)
  (parseBooleanFromText : string → result (option bool))
  (parseJsonArrayFromText : string → result (option (list json)))
  (parseShouldRespondFromText : string → result (option string))
  (parseActionResponseFromText : string → result (option json))
  (stop : list string) (n : nat) :
  let generateTextOnly := Generation.generateTextEntry "" None rest in
  let waiting {A} : Generation.Run A :=
    Generation.Pending n (1000 * 2 ^ Z.of_nat n) (Spec.backoffDelays 1000 n) in
  (∀ k, ∃ e, generateTextOnly k = Throw e)
  ∧ Generation.generateTrueOrFalse generateTextOnly trim parseBooleanFromText (Some stop) n
    = Ok waiting
  ∧ Generation.generateShouldRespond generateTextOnly trim parseShouldRespondFromText n
    = waiting
  ∧ Generation.generateTweetActions generateTextOnly trim parseActionResponseFromText n
    = waiting
  ∧ Generation.generateTextArray generateTextOnly parseJsonArrayFromText "" n
    = Generation.Finished [] []
  ∧ Generation.generateObjectArray generateTextOnly parseJsonArrayFromText "" n
    = Generation.Finished [] [].
Proof.
  cbv zeta. split_and!; try done.
  - intros k. by eexists.
  - unfold Generation.generateTrueOrFalse. f_equal.
    by rewrite backoffLoop_pending.
  - unfold Generation.generateShouldRespond. by rewrite backoffLoop_pending.
  - unfold Generation.generateTweetActions. by rewrite backoffLoop_pending.
Qed.
